(** * Service-to-service authentication: token granting and verification

    A shallow embedding of the [auth] package of the repository
    (vendor/github.com/RedVentures/sdk-go/auth): the [Granter], which
    obtains and caches OAuth2 client-credentials tokens, and the
    [Verifier], which checks inbound bearer tokens against the identity
    provider's published keys; of the middleware built on them
    ([WithScope], and the wrappers [WithLog] and [WithPrometheus] of
    make-mw); and of the proxy handler of the server (cmd/server).

    Conventions of the embedding.
    - Go's [int64] is [Z] with the two's-complement wrap-around written
      out ([Int64.wrap]); [int] status codes are only compared, never
      computed with, and are plain [Z].
    - Go strings are [string] (sequences of bytes).
    - A Go [map] field that may be [nil] is an [option (gmap _ _)].
    - Methods on a pointer receiver run in a state monad over the
      receiver and the outside world (the clock and the log of
      observable operations).
    - A function returning [(value, error)] returns a [result].
    - JSON text is represented by the document it spells ([json.bytes]).
    - Goroutines calling [GetToken] at the same time are a transition
      system ([Concurrent]) whose steps are the stretches of the method
      between two points where it takes a lock or waits. *)

From Stdlib Require Import ZArith String Ascii List Lia DecimalString.
From stdpp Require Import base option gmap strings list.

Open Scope Z_scope.

(** ** 64-bit signed integers *)

Module Int64.

Definition modulus : Z := 2 ^ 64.
Definition min_signed : Z := - 2 ^ 63.
Definition max_signed : Z := 2 ^ 63 - 1.

(** The value an [int64] holds after a computation whose mathematical
    result is [z]. *)
Definition wrap (z : Z) : Z := (z + 2 ^ 63) mod modulus - 2 ^ 63.

Definition add (a b : Z) : Z := wrap (a + b).
Definition sub (a b : Z) : Z := wrap (a - b).

Definition in_range (z : Z) : Prop := min_signed <= z <= max_signed.

End Int64.

(** ** The [strings] and [fmt] packages *)

Module strings.

(** [contains cutset c]: the byte [c] occurs in [cutset]. *)
Fixpoint contains (cutset : string) (c : ascii) : bool :=
  match cutset with
  | EmptyString => false
  | String d cutset' => if Ascii.eqb c d then true else contains cutset' c
  end.

(** [strings.TrimRight(s, cutset)]: [s] without its longest suffix made
    of bytes of [cutset]. *)
Fixpoint TrimRight (s cutset : string) : string :=
  match s with
  | EmptyString => EmptyString
  | String c s' =>
      match TrimRight s' cutset with
      | EmptyString =>
          if contains cutset c then EmptyString else String c EmptyString
      | t => String c t
      end
  end.

(** [n] copies of the byte [c]. *)
Fixpoint Repeat (c : ascii) (n : nat) : string :=
  match n with
  | O => EmptyString
  | S n' => String c (Repeat c n')
  end.

(** [s] ends with the byte [c]. *)
Fixpoint HasSuffixByte (s : string) (c : ascii) : bool :=
  match s with
  | EmptyString => false
  | String d EmptyString => Ascii.eqb d c
  | String _ s' => HasSuffixByte s' c
  end.

(** [strings.HasPrefix] *)
Fixpoint HasPrefix (s prefix : string) {struct prefix} : bool :=
  match prefix with
  | EmptyString => true
  | String p prefix' =>
      match s with
      | EmptyString => false
      | String c s' => Ascii.eqb c p && HasPrefix s' prefix'
      end
  end.

(** The scan of [Replace]: [skip] bytes of a replaced occurrence are
    still to be passed over, [n] replacements may still be made (any
    number when [n] is negative). *)
Fixpoint replace (s old new : string) (n : Z) (skip : nat) : string :=
  match s with
  | EmptyString => EmptyString
  | String c s' =>
      match skip with
      | S k => replace s' old new n k
      | O =>
          if (n =? 0) || negb (HasPrefix s old) then
            String c (replace s' old new n O)
          else
            append new (replace s' old new (n - 1) (pred (String.length old)))
      end
  end.

(** [strings.Replace(s, old, new, n)] for an [old] that is not empty:
    the first [n] occurrences of [old], taken from the left and not
    overlapping, replaced by [new].  (For an empty [old] Go inserts
    [new] between the characters; the package never asks for that, and
    [s] is returned.) *)
Definition Replace (s old new : string) (n : Z) : string :=
  match old with
  | EmptyString => s
  | _ => replace s old new n O
  end.

(** The scan of [Split]: [cur] is the piece being read. *)
Fixpoint split (s sep : string) (skip : nat) (cur : string) : list string :=
  match s with
  | EmptyString => [cur]
  | String c s' =>
      match skip with
      | S k => split s' sep k cur
      | O =>
          if HasPrefix s sep then
            cur :: split s' sep (pred (String.length sep)) EmptyString
          else split s' sep O (append cur (String c EmptyString))
      end
  end.

(** [strings.Split(s, sep)] for a [sep] that is not empty: the pieces
    of [s] between the occurrences of [sep].  (For an empty [sep] Go
    splits after each character; the package never asks for that, and
    [s] is returned as the one piece.) *)
Definition Split (s sep : string) : list string :=
  match sep with
  | EmptyString => [s]
  | _ => split s sep O EmptyString
  end.

(** [strings.Join] *)
Fixpoint Join (elems : list string) (sep : string) : string :=
  match elems with
  | [] => EmptyString
  | [e] => e
  | e :: elems' => append e (append sep (Join elems' sep))
  end.

End strings.

Module fmt.

(** The verb [%d] applied to an integer. *)
Definition d (z : Z) : string := NilZero.string_of_int (Z.to_int z).

End fmt.

(** ** Errors *)

(** The error values the package builds: [errors.New] and [fmt.Errorf]
    give an [errorString]; [errors.Wrap] gives a [withMessage] around its
    cause; the JWT library reports through a [ValidationError] carrying
    the inner error and a bit field. *)
Inductive error : Type :=
| errorString (s : string)
| withMessage (cause : error) (msg : string)
| ValidationError (Inner : error) (Errors : Z).

(** The method [Error()]. *)
Fixpoint Error (e : error) : string :=
  match e with
  | errorString s => s
  | withMessage cause msg => msg +:+ ": " +:+ Error cause
  | ValidationError inner _ => Error inner
  end.

Module errors.
Definition New (msg : string) : error := errorString msg.
Definition Wrap (err : error) (msg : string) : error := withMessage err msg.
End errors.

Inductive result (A : Type) : Type :=
| Ok (a : A)
| Err (e : error).
Arguments Ok {A} a.
Arguments Err {A} e.

Definition is_Ok {A} (r : result A) : bool :=
  match r with Ok _ => true | Err _ => false end.

(** ** The outside world *)

Record Request : Type := mkRequest
  { Method : string; URL : string; ContentType : string; Payload : string }.

Record Response : Type := mkResponse
  { StatusCode : Z; Body : string }.

(** The operations whose occurrence the properties below speak about.
    Every cache access, every producer run by the coalescer and every
    HTTP request is appended to the log when it happens. *)
Inductive Event : Type :=
| CacheRead (key : string)
| CacheWrite (key : string)
| CacheReset
| Flight (key : string)
| RoundTrip (req : Request)
| SignatureCheck.

Record World : Type := mkWorld
  { clock : Z;            (* seconds since the epoch *)
    trace : list Event }.

(** What happens to one HTTP request: a response or a transport error,
    after [latency] seconds. *)
Record Exchange : Type := mkExchange
  { outcome : result Response; latency : Z }.

(** An [*http.Client]: the answer may depend on the moment and on what
    was sent before. *)
Definition Client : Type := World -> Request -> Exchange.

(** The requests sent so far. *)
Fixpoint requests (t : list Event) : list Request :=
  match t with
  | [] => []
  | RoundTrip req :: t' => req :: requests t'
  | _ :: t' => requests t'
  end.

(** ** Receiver and world threaded through a method call *)

Record Store (T : Type) : Type := mkStore { self : T; world : World }.
Arguments mkStore {T} self world.
Arguments self {T} s.
Arguments world {T} s.

Definition M (T A : Type) : Type := Store T -> A * Store T.

Global Instance M_ret {T} : MRet (M T) := fun A a s => (a, s).
Global Instance M_bind {T} : MBind (M T) :=
  fun A B k m s => let (a, s') := m s in k a s'.

Definition getSelf {T} : M T T := fun s => (self s, s).
Definition putSelf {T} (x : T) : M T unit :=
  fun s => (tt, mkStore x (world s)).

Definition emit {T} (e : Event) : M T unit :=
  fun s =>
    (tt, mkStore (self s)
           (mkWorld (clock (world s)) (trace (world s) ++ [e]))).

(** [time.Now().Unix()] *)
Definition Unix {T} : M T Z :=
  fun s => (Int64.wrap (clock (world s)), s).

(** One round trip through [client]: the request is logged and the clock
    advances by the latency of the exchange. *)
Definition Do {T} (client : Client) (req : Request) : M T (result Response) :=
  fun s =>
    let x := client (world s) req in
    (outcome x,
     mkStore (self s)
       (mkWorld (clock (world s) + latency x)
                (trace (world s) ++ [RoundTrip req]))).

(** [client.Post(url, contentType, body)] and [client.Get(url)] *)
Definition Post {T} (client : Client) (url contentType body : string)
  : M T (result Response) :=
  Do client (mkRequest "POST" url contentType body).

Definition Get {T} (client : Client) (url : string) : M T (result Response) :=
  Do client (mkRequest "GET" url "" "").

Definition run {T A} (m : M T A) (x : T) (w : World) : A * Store T :=
  m (mkStore x w).

(** The reading of the clock in world [w], and [w] with more logged. *)
Definition unix (w : World) : Z := Int64.wrap (clock w).

Definition logged (w : World) (es : list Event) : World :=
  mkWorld (clock w) (trace w ++ es).

(** ** Request coalescing *)

Module singleflight.

(** Modelled from the spec: [singleflight.Group.Do] of the vendored
    golang.org/x/sync package, which is not among the sources.  With no
    fetch for [key] in flight, [coalesce(key, producer)] invokes the
    producer once and delivers its outcome to the caller; the pending
    entry is cleared when the producer returns, so that between two
    calls the group holds nothing. *)
Definition Do {T A} (key : string) (fn : M T (result A)) : M T (result A) :=
  _ ← emit (Flight key); fn.

End singleflight.

(** The world in which the producer of a call started in [w] runs: the
    cache was read and the coalescer entered. *)
Definition atFetch (w : World) (key : string) : World :=
  logged w [CacheRead key; Flight key].

(** ** Granter *)

Module Granter.

(** [cachedToken] defines how cached JWTs are stored in the cache. *)
Record cachedToken : Type := mkCachedToken
  { jwt : string; expiration : Z }.

Record t : Type := mk
  { ClientID : string;
    ClientSecret : string;
    TenantURL : string;
    HTTPClient : option Client;
    ExpirationMargin : Z;
    cache : option (gmap string cachedToken) }.

Definition withCache (g : t) (c : option (gmap string cachedToken)) : t :=
  mk (ClientID g) (ClientSecret g) (TenantURL g) (HTTPClient g)
     (ExpirationMargin g) c.

(** The body of a successful token response. *)
Record accessTokenResponse : Type := mkAccessTokenResponse
  { AccessToken : string; TokenType : string; ExpiresIn : Z }.

(** [ResetCache] clears the cached tokens for all of the resources. *)
Definition ResetCache : M t unit :=
  g ← getSelf;
  _ ← emit CacheReset;
  putSelf (withCache g None).

(** [readToken] reads the token from the cache, ensuring that it exists
    and is not expired. *)
Definition readToken (resource : string) : M t (string * bool) :=
  g ← getSelf;
  _ ← emit (CacheRead resource);
  match cache g with
  | None => mret ("", false)
  | Some c =>
      match c !! resource with
      | Some tc =>
          now ← Unix;
          if expiration tc >=? now then mret (jwt tc, true)
          else mret ("", false)
      | None => mret ("", false)
      end
  end.

(** [writeToken] stores the token under [resource]; the expiration is
    adjusted by the expiration margin. *)
Definition writeToken (resource jwt : string) (expiration : Z) : M t unit :=
  g ← getSelf;
  _ ← emit (CacheWrite resource);
  let c := match cache g with
           | None => ∅
           | Some c => c
           end in
  putSelf
    (withCache g
       (Some (<[resource :=
                  mkCachedToken jwt
                    (Int64.sub expiration (ExpirationMargin g))]> c))).

Section WithLibraries.

(** [defaultHTTPClient], used when the granter has no client of its own. *)
Variable defaultHTTPClient : Client.

(** [json.Marshal] on a [map[string]string]. *)
Variable jsonMarshal : gmap string string -> string.

(** [json.NewDecoder(body).Decode] into the access-token response. *)
Variable jsonDecode : string -> result accessTokenResponse.

(** The function handed to the coalescer by [GetToken]. *)
Definition fetchToken (resource : string) : M t (result string) :=
  g ← getSelf;
  if String.eqb (ClientID g) "" || String.eqb (ClientSecret g) "" then
    mret (Err (errors.New "ClientID and ClientSecret cannot be empty"))
  else if String.eqb (TenantURL g) "" then
    mret (Err (errors.New "TenantURL cannot be empty"))
  else
    let client := match HTTPClient g with
                  | None => defaultHTTPClient
                  | Some c => c
                  end in
    let payload :=
      jsonMarshal
        (<["grant_type" := "client_credentials"]>
           (<["client_id" := ClientID g]>
              (<["client_secret" := ClientSecret g]>
                 (<["audience" := resource]> ∅)))) in
    let tenantURL := strings.TrimRight (TenantURL g) "/" in
    r ← Post client (tenantURL +:+ "/oauth/token") "application/json" payload;
    match r with
    | Err err => mret (Err (errors.Wrap err "unable to fetch token"))
    | Ok resp =>
        if (StatusCode resp <? 200) || (StatusCode resp >=? 400) then
          let err :=
            errorString
              ("received " +:+ fmt.d (StatusCode resp) +:+ " status code") in
          mret (Err (errors.Wrap err "unable to fetch token"))
        else
          match jsonDecode (Body resp) with
          | Err err => mret (Err (errors.Wrap err "bad Access Token Response"))
          | Ok accessTokenResponse =>
              now ← Unix;
              let expiresOn := Int64.add now (ExpiresIn accessTokenResponse) in
              _ ← writeToken resource (AccessToken accessTokenResponse)
                    expiresOn;
              mret (Ok (AccessToken accessTokenResponse))
          end
    end.

(** [GetToken] gets a JWT from the cache for the requested audience; if
    nothing is cached or the cached token has expired, a new token is
    fetched from the OAuth token service. *)
Definition GetToken (resource : string) : M t (result string) :=
  if String.eqb resource "" then
    mret (Err (errors.New "resource cannot be empty"))
  else
    '(jwt, ok) ← readToken resource;
    if ok : bool then mret (Ok jwt)
    else
      r ← singleflight.Do resource (fetchToken resource);
      match r with
      | Err err => mret (Err err)
      | Ok token => mret (Ok token)
      end.

(** [NewTokenFunc] fixes the resource of [GetToken]. *)
Definition NewTokenFunc (resource : string) : M t (result string) :=
  GetToken resource.

(** *** Vocabulary of the properties *)

(** The client the granter sends with. *)
Definition client (g : t) : Client :=
  match HTTPClient g with
  | None => defaultHTTPClient
  | Some c => c
  end.

(** The request for a token for [resource]. *)
Definition tokenRequest (g : t) (resource : string) : Request :=
  mkRequest "POST"
    (strings.TrimRight (TenantURL g) "/" +:+ "/oauth/token")
    "application/json"
    (jsonMarshal
       (<["grant_type" := "client_credentials"]>
          (<["client_id" := ClientID g]>
             (<["client_secret" := ClientSecret g]>
                (<["audience" := resource]> ∅))))).

Definition configured (g : t) : Prop :=
  ClientID g <> "" /\ ClientSecret g <> "" /\ TenantURL g <> "".

(** The cache of [g] has nothing to offer for [resource] at the time
    of [w]. *)
Definition miss (g : t) (w : World) (resource : string) : Prop :=
  snd (fst (run (readToken resource) g w)) = false.

(** What the token endpoint answers to a call started in [w]. *)
Definition answer (g : t) (w : World) (resource : string) : Exchange :=
  client g (atFetch w resource) (tokenRequest g resource).

(** The error for a response refused for its status code. *)
Definition statusError (code : Z) : error :=
  errors.Wrap
    (errorString ("received " +:+ fmt.d code +:+ " status code"))
    "unable to fetch token".

End WithLibraries.

End Granter.

(** ** The [unicode/utf8] package *)

Module utf8.

(** The value of a byte. *)
Definition byte (c : ascii) : Z := Z.of_N (N_of_ascii c).

Definition between (lo hi : Z) (c : ascii) : bool :=
  (lo <=? byte c) && (byte c <=? hi).

(** [RuneError], U+FFFD, in UTF-8: the bytes EF BF BD. *)
Definition RuneError : string :=
  String (ascii_of_N 239)
    (String (ascii_of_N 191) (String (ascii_of_N 189) EmptyString)).

(** The width [DecodeRuneInString] finds for the encoding at the start
    of [s]; 0 stands for an encoding that is not valid, for which the
    function returns [RuneError] and the width 1.  The first byte
    decides how many bytes follow and between which bounds the second
    must lie; the others lie between 80 and BF. *)
Definition width (s : string) : nat :=
  match s with
  | EmptyString => 0
  | String c0 s' =>
      let b := byte c0 in
      if b <? 128 then 1
      else if b <? 194 then 0
      else if b <=? 223 then
        match s' with
        | String c1 _ => if between 128 191 c1 then 2 else 0
        | _ => 0
        end
      else if b <=? 239 then
        let lo := if b =? 224 then 160 else 128 in
        let hi := if b =? 237 then 159 else 191 in
        match s' with
        | String c1 (String c2 _) =>
            if between lo hi c1 && between 128 191 c2 then 3 else 0
        | _ => 0
        end
      else if b <=? 244 then
        let lo := if b =? 240 then 144 else 128 in
        let hi := if b =? 244 then 143 else 191 in
        match s' with
        | String c1 (String c2 (String c3 _)) =>
            if between lo hi c1 && between 128 191 c2 && between 128 191 c3
            then 4 else 0
        | _ => 0
        end
      else 0
  end.

(** [s] is made of valid encodings, the next one starting after [skip]
    bytes. *)
Fixpoint validFrom (s : string) (skip : nat) : bool :=
  match s with
  | EmptyString => true
  | String c s' =>
      match skip with
      | S k => validFrom s' k
      | O =>
          match width (String c s') with
          | O => false
          | S k => validFrom s' k
          end
      end
  end.

(** [utf8.ValidString] *)
Definition ValidString (s : string) : bool := validFrom s 0.

End utf8.

(** ** The [encoding/json] package, on documents *)

Module json.

(** A JSON document. *)
#[warnings="-register-all"]
Inductive Value : Type :=
| Null
| Bool (b : bool)
| Number (literal : string)
| Str (s : string)
| Array (elements : list Value)
| Object (members : list (string * Value)).

(** A [[]byte] handed to or produced by the package is represented by
    the document it spells, or by the complaint of the scanner when it
    spells none.  The strings of a document are the strings the decoder
    gives for its string literals. *)
Inductive bytes : Type :=
| Text (v : Value)
| Malformed (complaint : string).

(** The word the package uses for a document in its type errors. *)
Definition kind (v : Value) : string :=
  match v with
  | Null => "null"
  | Bool _ => "bool"
  | Number _ => "number"
  | Str _ => "string"
  | Array _ => "array"
  | Object _ => "object"
  end.

Definition UnmarshalTypeError (value type : string) : error :=
  errorString
    ("json: cannot unmarshal " +:+ value +:+ " into Go value of type " +:+ type).

(** What the encoder makes of a Go string: the string itself where it
    is valid UTF-8; a byte at which no valid encoding starts is written
    as the escape of U+FFFD and read back as that character.  The next
    encoding starts after [skip] bytes. *)
Fixpoint coerceFrom (s : string) (skip : nat) : string :=
  match s with
  | EmptyString => EmptyString
  | String c s' =>
      match skip with
      | S k => String c (coerceFrom s' k)
      | O =>
          match utf8.width (String c s') with
          | O => utf8.RuneError +:+ coerceFrom s' 0
          | S k => String c (coerceFrom s' k)
          end
      end
  end.

Definition coerce (s : string) : string := coerceFrom s 0.

(** [json.Marshal] on a [string]. *)
Definition MarshalString (s : string) : bytes := Text (Str (coerce s)).

(** [json.Marshal] on a [[]string]; [None] is the nil slice. *)
Definition MarshalStrings (v : option (list string)) : bytes :=
  match v with
  | None => Text Null
  | Some l => Text (Array (map (fun s => Str (coerce s)) l))
  end.

(** [json.Unmarshal(data, &s)] for [s] a [string] holding [s0]: [null]
    leaves the target as it is. *)
Definition UnmarshalString (data : bytes) (s0 : string) : result string :=
  match data with
  | Malformed complaint => Err (errorString complaint)
  | Text Null => Ok s0
  | Text (Str s) => Ok s
  | Text v => Err (UnmarshalTypeError (kind v) "string")
  end.

(** The elements of an array decoded into strings: [null] gives the
    empty string; the first element that is neither a string nor [null]
    is the error reported. *)
Fixpoint stringElements (l : list Value) : result (list string) :=
  match l with
  | [] => Ok []
  | v :: l' =>
      match v with
      | Str s =>
          match stringElements l' with
          | Ok ss => Ok (s :: ss)
          | Err e => Err e
          end
      | Null =>
          match stringElements l' with
          | Ok ss => Ok ("" :: ss)
          | Err e => Err e
          end
      | _ => Err (UnmarshalTypeError (kind v) "string")
      end
  end.

(** [json.Unmarshal(data, &v)] for [v] a nil [[]string]. *)
Definition UnmarshalStrings (data : bytes) : result (option (list string)) :=
  match data with
  | Malformed complaint => Err (errorString complaint)
  | Text Null => Ok None
  | Text (Array l) =>
      match stringElements l with
      | Ok ss => Ok (Some ss)
      | Err e => Err e
      end
  | Text v => Err (UnmarshalTypeError (kind v) "[]string")
  end.

End json.

(** ** The JWT library *)

(** [rsa.PublicKey] *)
Record PublicKey : Type := mkPublicKey { N : Z; E : Z }.

(** [AudienceList] handles the case where a JWT with one audience has a
    single string as its ["aud"] value.  [None] is the nil slice. *)
Definition AudienceList : Type := option (list string).

Definition elements (al : AudienceList) : list string :=
  match al with
  | None => []
  | Some l => l
  end.

Module jwt.

Record StandardClaims : Type := mkStandardClaims
  { Audience : string;
    ExpiresAt : Z;
    Id : string;
    IssuedAt : Z;
    Issuer : string;
    NotBefore : Z;
    Subject : string }.

Definition ValidationErrorMalformed : Z := 1.
Definition ValidationErrorUnverifiable : Z := 2.
Definition ValidationErrorSignatureInvalid : Z := 4.

(** [e] is a validation error with the bit [flag] set. *)
Definition hasFlag (e : error) (flag : Z) : bool :=
  match e with
  | ValidationError _ flags => negb (Z.land flags flag =? 0)
  | _ => false
  end.

(** The interface [jwt.Claims]: the claims type [C] the caller handed
    to the parser, or the library's own [MapClaims]. *)
Inductive Claims (C : Type) : Type :=
| Custom (c : C)
| MapClaims (m : gmap string json.Value).
Arguments Custom {C} c.
Arguments MapClaims {C} m.

Record Token (C : Type) : Type := mkToken
  { Raw : string;
    Header : gmap string json.Value;
    claims : Claims C;
    Signature : string;
    Valid : bool }.
Arguments mkToken {C}.
Arguments Raw {C} t.
Arguments Header {C} t.
Arguments claims {C} t.
Arguments Signature {C} t.
Arguments Valid {C} t.

Section Parser.

Context {T C : Type}.

(** [Parser.ParseUnverified]: the three segments split and the header
    and claims decoded, nothing checked. *)
Variable ParseUnverified : string -> result (Token C).

(** What the parser checks once it holds the key: the validity of the
    claims at the given time and the signature. *)
Variable Verify : Z -> Token C -> PublicKey -> option error.

(** Modelled from the spec: [jwt.ParseWithClaims] of the vendored
    github.com/dgrijalva/jwt-go package, which is not among the sources.
    It parses the token's header and claims, then resolves the signing
    key through the key-lookup callback; an error of the callback is
    the outcome (wrapped as unverifiable unless it is a validation
    error already); only with the key in hand is the signature
    checked. *)
Definition ParseWithClaims (tokenString : string)
    (keyFunc : Token C -> M T (result PublicKey)) : M T (result (Token C)) :=
  match ParseUnverified tokenString with
  | Err err => mret (Err err)
  | Ok token =>
      r ← keyFunc token;
      match r with
      | Err (ValidationError inner flags) =>
          mret (Err (ValidationError inner flags))
      | Err err => mret (Err (ValidationError err ValidationErrorUnverifiable))
      | Ok key =>
          _ ← emit SignatureCheck;
          now ← Unix;
          match Verify now token key with
          | Some vErr => mret (Err vErr)
          | None =>
              mret (Ok (mkToken (Raw token) (Header token) (claims token)
                          (Signature token) true))
          end
      end
  end.

End Parser.

End jwt.

(** [Claims] represents the claims for a JWT. *)
Record Claims : Type := mkClaims
  { Scope : string;
    Audience : AudienceList;
    Email : string;
    EmployeeId : string;
    FirstName : string;
    LastName : string;
    StandardClaims : jwt.StandardClaims }.

Definition Issuer (c : Claims) : string := jwt.Issuer (StandardClaims c).

(** [Token] represents a parsed JWT token. *)
Record Token : Type := mkToken
  { Raw : string;
    claims : Claims;
    rawClaims : option (gmap string json.Value) }.

(** A bare string for a list of exactly one audience, an array
    otherwise. *)
Definition MarshalJSON (al : AudienceList) : result json.bytes :=
  match elements al with
  | [s] => Ok (json.MarshalString s)
  | _ => Ok (json.MarshalStrings al)
  end.

(** The list decoded from [data]: a string gives the list of that one
    string; what is not a string is decoded as an array. *)
Definition UnmarshalJSON (data : json.bytes) : result AudienceList :=
  match json.UnmarshalString data "" with
  | Err _ =>
      match json.UnmarshalStrings data with
      | Err err => Err err
      | Ok v => Ok v
      end
  | Ok s => Ok (Some [s])
  end.

(** ** Verifier *)

Module Verifier.

Record keyCache : Type := mkKeyCache
  { key : PublicKey; expiration : Z }.

Record t : Type := mk
  { Resource : string;
    TenantURL : string;
    HTTPClient : option Client;
    ExpirationMargin : Z;
    cache : option (gmap string keyCache) }.

Definition withCache (v : t) (c : option (gmap string keyCache)) : t :=
  mk (Resource v) (TenantURL v) (HTTPClient v) (ExpirationMargin v) c.

(** One entry of the key set published by the identity provider. *)
Record jwk : Type := mkJwk
  { KeyID : string; CertificateChain : list string }.

Definition LF : string := String (ascii_of_nat 10) EmptyString.

(** [ResetCache] clears the cache of public keys. *)
Definition ResetCache : M t unit :=
  v ← getSelf;
  _ ← emit CacheReset;
  putSelf (withCache v None).

(** [readPublicKey] reads the key from the cache, ensuring that it
    exists and is not expired. *)
Definition readPublicKey (kid : string) : M t (option PublicKey) :=
  v ← getSelf;
  _ ← emit (CacheRead kid);
  match cache v with
  | None => mret None
  | Some c =>
      match c !! kid with
      | Some entry =>
          now ← Unix;
          if expiration entry >? now then mret (Some (key entry))
          else mret None
      | None => mret None
      end
  end.

(** [writePublicKey] updates the cache with a new public key. *)
Definition writePublicKey (kid : string) (pk : PublicKey) : M t unit :=
  v ← getSelf;
  _ ← emit (CacheWrite kid);
  let c := match cache v with
           | None => ∅
           | Some c => c
           end in
  now ← Unix;
  putSelf
    (withCache v
       (Some (<[kid :=
                  mkKeyCache pk
                    (Int64.sub (Int64.add now 86400) (ExpirationMargin v))]>
                c))).

Fixpoint verifyAudience (v : t) (audiences : list string) : option error :=
  match audiences with
  | [] =>
      Some (errorString ("bad token: missing '" +:+ Resource v +:+ "' audience"))
  | audience :: audiences' =>
      if String.eqb audience (Resource v) then None
      else verifyAudience v audiences'
  end.

Section WithLibraries.

Variable defaultHTTPClient : Client.

(** [json.NewDecoder(body).Decode] into the list of published keys. *)
Variable jsonDecode : string -> result (list jwk).

(** [jwt.ParseRSAPublicKeyFromPEM] *)
Variable ParseRSAPublicKeyFromPEM : string -> result PublicKey.

Variable ParseUnverified : string -> result (jwt.Token Claims).
Variable Verify : Z -> jwt.Token Claims -> PublicKey -> option error.

(** The loop of [getKey] over the published keys. *)
Fixpoint scanKeys (kid : string) (keys : list jwk) : M t (result PublicKey) :=
  match keys with
  | [] => mret (Err (errors.New ("no key for kid: " +:+ kid)))
  | key :: keys' =>
      if String.eqb (KeyID key) kid then
        match CertificateChain key with
        | [] => mret (Err (errors.New "missing certificate chain"))
        | certString :: _ =>
            let certString :=
              "-----BEGIN CERTIFICATE-----" +:+ LF +:+ certString +:+ LF
              +:+ "-----END CERTIFICATE-----" in
            match ParseRSAPublicKeyFromPEM certString with
            | Err err => mret (Err (errors.Wrap err "unable to parse public key"))
            | Ok key =>
                _ ← writePublicKey kid key;
                mret (Ok key)
            end
        end
      else scanKeys kid keys'
  end.

(** The function handed to the coalescer by [getKey]. *)
Definition fetchKey (kid : string) : M t (result PublicKey) :=
  v ← getSelf;
  let keyURL :=
    strings.TrimRight (TenantURL v) "/" +:+ "/.well-known/jwks.json" in
  let client := match HTTPClient v with
                | None => defaultHTTPClient
                | Some c => c
                end in
  r ← Get client keyURL;
  match r with
  | Err err => mret (Err (errors.Wrap err "error fetching keys from Auth0"))
  | Ok resp =>
      if (StatusCode resp <? 200) || (StatusCode resp >=? 400) then
        mret (Err (errorString
                     ("error fetching keys from Auth0: received "
                      +:+ fmt.d (StatusCode resp) +:+ " status code")))
      else
        match jsonDecode (Body resp) with
        | Err err => mret (Err err)
        | Ok keys => scanKeys kid keys
        end
  end.

(** [getKey] gets the public key that the identity provider signs
    tokens with. *)
Definition getKey (kid : string) : M t (result PublicKey) :=
  cached ← readPublicKey kid;
  match cached with
  | Some key => mret (Ok key)
  | None =>
      r ← singleflight.Do kid (fetchKey kid);
      match r with
      | Err err => mret (Err err)
      | Ok publicKey => mret (Ok publicKey)
      end
  end.

Definition keyFunc (token : jwt.Token Claims) : M t (result PublicKey) :=
  match jwt.claims token with
  | jwt.MapClaims _ => mret (Err (errors.New "unable to parse claims"))
  | jwt.Custom claims =>
      v ← getSelf;
      match verifyAudience v (elements (Audience claims)) with
      | Some err => mret (Err err)
      | None =>
          let issuer := strings.TrimRight (TenantURL v) "/" +:+ "/" in
          if String.eqb (Issuer claims) ""
             || negb (String.eqb (Issuer claims) issuer) then
            mret (Err (errorString
                         ("bad token: issuer is '" +:+ Issuer claims
                          +:+ "' when it should be '" +:+ issuer +:+ "'")))
          else
            match jwt.Header token !! "kid" with
            | Some (json.Str kid) =>
                r ← getKey kid;
                match r with
                | Err err =>
                    mret (Err (errors.Wrap err "unable to get public key"))
                | Ok key => mret (Ok key)
                end
            | _ => mret (Err (errors.New "unable to get kid header from token"))
            end
      end
  end.

(** [VerifyToken] parses the given token string and verifies that it
    has permission to access this resource. *)
Definition VerifyToken (tokenString : string) : M t (result Token) :=
  r ← jwt.ParseWithClaims ParseUnverified Verify tokenString keyFunc;
  match r with
  | Err err => mret (Err err)
  | Ok parsed =>
      match jwt.claims parsed with
      | jwt.Custom claims => mret (Ok (mkToken (jwt.Raw parsed) claims None))
      | jwt.MapClaims _ => mret (Err (errors.New "unable to parse claims"))
      end
  end.

(** *** Vocabulary of the properties *)

Definition client (v : t) : Client :=
  match HTTPClient v with
  | None => defaultHTTPClient
  | Some c => c
  end.

(** The request for the published keys. *)
Definition keysRequest (v : t) : Request :=
  mkRequest "GET"
    (strings.TrimRight (TenantURL v) "/" +:+ "/.well-known/jwks.json") "" "".

(** The key cache of [v] has nothing to offer for [kid] at the time of
    [w]. *)
Definition miss (v : t) (w : World) (kid : string) : Prop :=
  fst (run (readPublicKey kid) v w) = None.

(** What the key endpoint answers to a resolution started in [w]. *)
Definition answer (v : t) (w : World) (kid : string) : Exchange :=
  client v (atFetch w kid) (keysRequest v).

(** The error for a response refused for its status code. *)
Definition statusError (code : Z) : error :=
  errorString
    ("error fetching keys from Auth0: received " +:+ fmt.d code
     +:+ " status code").

(** What a key freshly resolved for [kid] leaves in the store. *)
Definition stored (v : t) (w : World) (kid : string) (pk : PublicKey)
  : Store t :=
  mkStore
    (withCache v
       (Some (<[kid :=
                  mkKeyCache pk
                    (Int64.sub (Int64.add (unix w) 86400)
                       (ExpirationMargin v))]>
                (default ∅ (cache v)))))
    (logged w [CacheWrite kid]).

(** A certificate of the chain in PEM armour. *)
Definition pem (certString : string) : string :=
  "-----BEGIN CERTIFICATE-----" +:+ LF +:+ certString +:+ LF
  +:+ "-----END CERTIFICATE-----".

(** The first published key with the wanted key id. *)
Definition firstMatch (kid : string) (keys : list jwk) : option jwk :=
  find (fun key => String.eqb (KeyID key) kid) keys.

(** The issuer the verifier expects. *)
Definition expectedIssuer (v : t) : string :=
  strings.TrimRight (TenantURL v) "/" +:+ "/".

Definition audienceError (v : t) : error :=
  errorString ("bad token: missing '" +:+ Resource v +:+ "' audience").

Definition issuerError (actual expected : string) : error :=
  errorString
    ("bad token: issuer is '" +:+ actual +:+ "' when it should be '"
     +:+ expected +:+ "'").

Definition kidError : error :=
  errors.New "unable to get kid header from token".

End WithLibraries.

End Verifier.

(** ** Goroutines calling GetToken at the same time *)

Module Concurrent.

(** Where a goroutine stands in [GetToken].  The points are those at
    which it takes a lock or waits: the read of the cache, the entry to
    the coalescer, the round trip, the write to the cache and the exit
    from the coalescer. *)
Inductive pc : Type :=
| Called
| Missed
| Leading
| Responded (r : result Response)
| Returning (r : result string)
| Waiting
| Done (r : result string).

Record Thread : Type := mkThread { resource : string; point : pc }.

(** The granter and the world the goroutines share, the keys the
    coalescer holds a pending call for, and the goroutines. *)
Record Config : Type := mkConfig
  { store : Store Granter.t;
    flights : gset string;
    threads : list Thread }.

(** The scheduler lets a goroutine take its next step, or time pass. *)
Inductive Label : Type :=
| Run (i : nat)
| Tick (seconds : Z).

(** The goroutine runs the producer of a pending call. *)
Definition leads (p : pc) : bool :=
  match p with
  | Leading | Responded _ | Returning _ => true
  | _ => false
  end.

Definition waits (p : pc) : bool :=
  match p with
  | Waiting => true
  | _ => false
  end.

(** The outcome of the call of [key] handed to a goroutine waiting for
    it. *)
Definition deliver (key : string) (r : result string) (th : Thread) : Thread :=
  if waits (point th) && String.eqb (resource th) key
  then mkThread (resource th) (Done r)
  else th.

Section WithLibraries.

Variable defaultHTTPClient : Client.
Variable jsonMarshal : gmap string string -> string.
Variable jsonDecode : string -> result Granter.accessTokenResponse.

(** Goroutine [i] is at [p] now, and the store is [s]. *)
Definition move (c : Config) (i : nat) (key : string) (s : Store Granter.t)
    (p : pc) : Config :=
  mkConfig s (flights c) (<[i := mkThread key p]> (threads c)).

(** The first part of the producer: the configuration is checked and
    the request makes its round trip. *)
Definition request (key : string) (s : Store Granter.t)
  : pc * Store Granter.t :=
  let g := self s in
  if String.eqb (Granter.ClientID g) ""
     || String.eqb (Granter.ClientSecret g) "" then
    (Returning
       (Err (errors.New "ClientID and ClientSecret cannot be empty")), s)
  else if String.eqb (Granter.TenantURL g) "" then
    (Returning (Err (errors.New "TenantURL cannot be empty")), s)
  else
    let '(r, s') :=
      Do (Granter.client defaultHTTPClient g)
         (Granter.tokenRequest jsonMarshal g key) s in
    (Responded r, s').

(** The second part of the producer: the response is read and a token
    is written to the cache. *)
Definition receive (key : string) (r : result Response) (s : Store Granter.t)
  : result string * Store Granter.t :=
  match r with
  | Err err => (Err (errors.Wrap err "unable to fetch token"), s)
  | Ok resp =>
      if (StatusCode resp <? 200) || (StatusCode resp >=? 400) then
        (Err (Granter.statusError (StatusCode resp)), s)
      else
        match jsonDecode (Body resp) with
        | Err err => (Err (errors.Wrap err "bad Access Token Response"), s)
        | Ok accessTokenResponse =>
            let '(now, s1) := Unix s in
            let expiresOn :=
              Int64.add now (Granter.ExpiresIn accessTokenResponse) in
            let '(_, s2) :=
              Granter.writeToken key
                (Granter.AccessToken accessTokenResponse) expiresOn s1 in
            (Ok (Granter.AccessToken accessTokenResponse), s2)
        end
  end.

(** Modelled from the spec: the coalescer of the vendored
    golang.org/x/sync/singleflight package, which is not among the
    sources, with several callers.  A caller of [coalesce(key,
    producer)] that finds no fetch for [key] in flight registers one
    and runs the producer; a caller that finds one waits for it; when
    the producer returns, its outcome is delivered to all waiters and
    the pending entry is cleared, so that a later call starts a fresh
    producer invocation.

    One step of goroutine [i]. *)
Definition step (c : Config) (i : nat) : Config :=
  match threads c !! i with
  | None => c
  | Some th =>
      let key := resource th in
      match point th with
      | Called =>
          if String.eqb key "" then
            move c i key (store c)
              (Done (Err (errors.New "resource cannot be empty")))
          else
            let '((jwt, ok), s) := Granter.readToken key (store c) in
            move c i key s (if ok : bool then Done (Ok jwt) else Missed)
      | Missed =>
          if decide (key ∈ flights c) then move c i key (store c) Waiting
          else
            let '(_, s) := emit (Flight key) (store c) in
            mkConfig s ({[key]} ∪ flights c)
              (<[i := mkThread key Leading]> (threads c))
      | Leading =>
          let '(p, s) := request key (store c) in
          move c i key s p
      | Responded r =>
          let '(r', s) := receive key r (store c) in
          move c i key s (Returning r')
      | Returning r =>
          mkConfig (store c) (flights c ∖ {[key]})
            (<[i := mkThread key (Done r)]> (deliver key r <$> threads c))
      | Waiting => c
      | Done _ => c
      end
  end.

Definition elapse (c : Config) (seconds : Z) : Config :=
  mkConfig
    (mkStore (self (store c))
       (mkWorld (clock (world (store c)) + seconds)
          (trace (world (store c)))))
    (flights c) (threads c).

Definition next (c : Config) (l : Label) : Config :=
  match l with
  | Run i => step c i
  | Tick seconds => elapse c seconds
  end.

(** The configuration after a schedule. *)
Definition exec (c : Config) (schedule : list Label) : Config :=
  fold_left next schedule c.

End WithLibraries.

(** [n] goroutines that have called [GetToken(key)], none of which has
    done anything yet. *)
Definition calls (key : string) (n : nat) : list Thread :=
  replicate n (mkThread key Called).

Definition initial (g : Granter.t) (w : World) (ths : list Thread) : Config :=
  mkConfig (mkStore g w) ∅ ths.

(** The requests sent so far. *)
Definition sent (c : Config) : list Request :=
  requests (trace (world (store c))).

(** At most one goroutine runs a producer for a key, the coalescer
    holds exactly the keys for which one does, and whoever waits, waits
    for one of them. *)
Definition oneFlightPerKey (c : Config) : Prop :=
  (forall i j thi thj,
      threads c !! i = Some thi -> threads c !! j = Some thj ->
      leads (point thi) = true -> leads (point thj) = true ->
      resource thi = resource thj -> i = j)
  /\ (forall i th,
         threads c !! i = Some th -> leads (point th) = true ->
         resource th ∈ flights c)
  /\ (forall key,
         key ∈ flights c ->
         exists i th, threads c !! i = Some th /\ leads (point th) = true
                      /\ resource th = key)
  /\ (forall i th,
         threads c !! i = Some th -> waits (point th) = true ->
         resource th ∈ flights c).

(** Goroutine [leader] runs the producer for [key] and all the others
    wait for it. *)
Definition joined (key : string) (leader : nat) (p : pc) (c : Config) : Prop :=
  threads c !! leader = Some (mkThread key p)
  /\ forall j th, threads c !! j = Some th -> j <> leader ->
                  th = mkThread key Waiting.

(** All goroutines have returned [r]. *)
Definition returned (r : result string) (c : Config) : Prop :=
  forall j th, threads c !! j = Some th -> point th = Done r.

(** Every goroutine has returned. *)
Definition finished (c : Config) : Prop :=
  forall j th, threads c !! j = Some th -> exists r, point th = Done r.

(** How far a flight for [key] that all goroutines have joined has
    got, [before] being what had been sent when it started and [req]
    the request it makes. *)
Definition flightPhase (jsonMarshal : gmap string string -> string)
    (key : string) (leader : nat) (before : list Request) (req : Request)
    (c : Config) : Prop :=
  (joined key leader Leading c /\ sent c = before
   /\ Granter.configured (self (store c))
   /\ Granter.tokenRequest jsonMarshal (self (store c)) key = req)
  \/ (exists r, joined key leader (Responded r) c
                /\ sent c = before ++ [req])
  \/ (exists r, joined key leader (Returning r) c
                /\ sent c = before ++ [req])
  \/ (exists r, returned r c /\ sent c = before ++ [req]).

(** The steps a schedule gives to goroutine [i]. *)
Fixpoint runs (i : nat) (schedule : list Label) : nat :=
  match schedule with
  | [] => 0
  | Run j :: schedule' =>
      (if decide (i = j) then 1 else 0) + runs i schedule'
  | Tick _ :: schedule' => runs i schedule'
  end.

(** The flight after [n] steps of its leader: about to send, with
    the response in hand, with the outcome in hand, over. *)
Definition flightAt (jsonMarshal : gmap string string -> string)
    (key : string) (leader : nat) (before : list Request) (req : Request)
    (n : nat) (c : Config) : Prop :=
  match n with
  | 0%nat =>
      joined key leader Leading c /\ sent c = before
      /\ Granter.configured (self (store c))
      /\ Granter.tokenRequest jsonMarshal (self (store c)) key = req
  | 1%nat =>
      exists r, joined key leader (Responded r) c
                /\ sent c = before ++ [req]
  | 2%nat =>
      exists r, joined key leader (Returning r) c
                /\ sent c = before ++ [req]
  | _ => exists r, returned r c /\ sent c = before ++ [req]
  end.

(** The schedule on which [n] goroutines get into the coalescer before
    anything is fetched: each reads the cache, then each enters, the
    first of them to lead. *)
Definition enter (n : nat) : list Label :=
  map Run (seq 0 n) ++ map Run (seq 0 n).

(** Where the goroutines stand while they get in: [k] of them have
    done their step and are at [p], [m] are still at [q]; nothing has
    been sent and the clock has not moved. *)
Definition entering (g : Granter.t) (w : World) (fl : gset string)
    (before : list Thread) (k m : nat) (key : string) (p q : pc)
    (c : Config) : Prop :=
  flights c = fl
  /\ self (store c) = g
  /\ clock (world (store c)) = clock w
  /\ sent c = requests (trace w)
  /\ threads c
     = before ++ replicate k (mkThread key p) ++ replicate m (mkThread key q).

End Concurrent.

(** ** Concrete surroundings

    Stand-ins for the network and the libraries, on which the code is
    run at concrete inputs. *)

Module Fixture.

(** A client whose every exchange gives the same response after
    [delay] seconds. *)
Definition respond (code : Z) (body : string) (delay : Z) : Client :=
  fun _ _ => mkExchange (Ok (mkResponse code body)) delay.

Definition jsonMarshal (m : gmap string string) : string :=
  default "" (m !! "audience").

(** A decoder that takes the whole body for the token and an hour for
    its lifetime. *)
Definition decodeToken (body : string) : result Granter.accessTokenResponse :=
  if String.eqb body "" then Err (errorString "EOF")
  else Ok (Granter.mkAccessTokenResponse body "Bearer" 3600).

Definition svcB : string := "https://svc-b".

(** A granter in front of a token endpoint that answers with status
    [code]. *)
Definition granter (code : Z) : Granter.t :=
  Granter.mk "client-a" "secret-a" "https://tenant.example.com/"
    (Some (respond code "tok1" 1)) 60 None.

(** A granter without credentials that holds a token for [svcB] good
    until [exp]. *)
Definition holding (exp : Z) : Granter.t :=
  Granter.mk "" "" "" None 60
    (Some {[ svcB := Granter.mkCachedToken "tok1" exp ]}).

Definition start : World := mkWorld 1000 [].

Definition signingKey : PublicKey := mkPublicKey 3233 17.

Definition decodeKeys (body : string) : result (list Verifier.jwk) :=
  if String.eqb body "" then Err (errorString "EOF")
  else Ok [Verifier.mkJwk "other" []; Verifier.mkJwk "bare" [];
           Verifier.mkJwk body ["MIIC"; "MIID"]].

Definition parsePEM (pemString : string) : result PublicKey :=
  if String.eqb pemString (Verifier.pem "MIIC") then Ok signingKey
  else Err (errorString "asn1: structure error").

(** A verifier in front of a key endpoint that answers with status
    [code] and publishes a key for ["key-1"]. *)
Definition verifier (code : Z) : Verifier.t :=
  Verifier.mk svcB "https://tenant.example.com//"
    (Some (respond code "key-1" 1)) 60 None.

Definition standardClaims (issuer : string) : jwt.StandardClaims :=
  jwt.mkStandardClaims "" 5000 "" 900 issuer 900 "client-a".

Definition claimsFor (audience : list string) (issuer : string) : Claims :=
  mkClaims "read:things" (Some audience) "" "" "" ""
    (standardClaims issuer).

(** The token whose string is its key id. *)
Definition tokenFor (audience : list string) (issuer : string)
    (tokenString : string) : jwt.Token Claims :=
  jwt.mkToken tokenString {[ "kid" := json.Str tokenString ]}
    (jwt.Custom (claimsFor audience issuer)) "sig" false.

(** A parser that reads the key id off the token string; the audience
    and issuer are fixed by the fixture. *)
Definition parseAs (audience : list string) (issuer : string)
    (tokenString : string) : result (jwt.Token Claims) :=
  Ok (tokenFor audience issuer tokenString).

(** A parser whose tokens carry no key id. *)
Definition parseWithoutKid (audience : list string) (issuer : string)
    (tokenString : string) : result (jwt.Token Claims) :=
  Ok (jwt.mkToken tokenString ∅
        (jwt.Custom (claimsFor audience issuer)) "sig" false).

(** Every signature verifies. *)
Definition accept (now : Z) (token : jwt.Token Claims) (key : PublicKey)
  : option error := None.

Definition goodIssuer : string := "https://tenant.example.com/".

(** A token endpoint that hands ["tok1"] to the first request it sees
    and ["tok2"] to the later ones. *)
Definition renewing : Client :=
  fun w _ =>
    mkExchange
      (Ok (mkResponse 200
             (match requests (trace w) with
              | [] => "tok1"
              | _ => "tok2"
              end)))
      1.

(** A granter in front of it. *)
Definition racing : Granter.t :=
  Granter.mk "client-a" "secret-a" "https://tenant.example.com/"
    (Some renewing) 60 None.

(** Two goroutines call [GetToken(svcB)].  Both read the cache before
    anything is in it; the first then goes through the coalescer alone,
    fetches, writes the cache and returns; only then does the second
    enter the coalescer. *)
Definition lateJoiner : list Concurrent.Label :=
  [Concurrent.Run 0; Concurrent.Run 1;
   Concurrent.Run 0; Concurrent.Run 0; Concurrent.Run 0; Concurrent.Run 0;
   Concurrent.Run 1; Concurrent.Run 1; Concurrent.Run 1; Concurrent.Run 1].

(** The second enters the coalescer while the first is fetching. *)
Definition joiner : list Concurrent.Label :=
  [Concurrent.Run 0; Concurrent.Run 1;
   Concurrent.Run 0; Concurrent.Run 1;
   Concurrent.Run 0; Concurrent.Run 0; Concurrent.Run 0].

End Fixture.

(** ** What the caches hold *)

(** The entry of the token cache for [resource], and of the key cache
    for [kid]; a nil map has none. *)
Definition tokenEntry (g : Granter.t) (resource : string)
  : option Granter.cachedToken :=
  c ← Granter.cache g; c !! resource.

Definition keyEntry (v : Verifier.t) (kid : string)
  : option Verifier.keyCache :=
  c ← Verifier.cache v; c !! kid.

(** Two granters, or two verifiers, that differ in their cache at
    most. *)
Definition sameSettings (g g' : Granter.t) : Prop :=
  Granter.ClientID g' = Granter.ClientID g
  /\ Granter.ClientSecret g' = Granter.ClientSecret g
  /\ Granter.TenantURL g' = Granter.TenantURL g
  /\ Granter.HTTPClient g' = Granter.HTTPClient g
  /\ Granter.ExpirationMargin g' = Granter.ExpirationMargin g.

Definition sameVerifierSettings (v v' : Verifier.t) : Prop :=
  Verifier.Resource v' = Verifier.Resource v
  /\ Verifier.TenantURL v' = Verifier.TenantURL v
  /\ Verifier.HTTPClient v' = Verifier.HTTPClient v
  /\ Verifier.ExpirationMargin v' = Verifier.ExpirationMargin v.

(** The requests sent between two worlds. *)
Definition sentBetween (w w' : World) (reqs : list Request) : Prop :=
  requests (trace w') = requests (trace w) ++ reqs.

(** ** The untyped claims of a token *)

Section RawClaims.

(** [Parser.ParseUnverified] with [jwt.MapClaims]: the claims of the
    token string as a map, no signature checked. *)
Variable ParseUnverifiedMap : string -> result (gmap string json.Value).

(** The loop that copies the parsed claims entry by entry. *)
Definition copyClaims (parsed : gmap string json.Value)
  : gmap string json.Value :=
  map_fold (fun key claim claims => <[key := claim]> claims) ∅ parsed.

(** [RawClaims] returns every single claim from the token as a map; the
    map is kept in the token once it has been computed. *)
Definition RawClaims (t : Token)
  : result (gmap string json.Value) * Token :=
  match rawClaims t with
  | Some claims => (Ok claims, t)
  | None =>
      match ParseUnverifiedMap (Raw t) with
      | Err err => (Err err, t)
      | Ok parsed =>
          let copied := copyClaims parsed in
          (Ok copied, mkToken (Raw t) (claims t) (Some copied))
      end
  end.

End RawClaims.

(** ** Requests that carry the token *)

Module http.

(** [http.Header]: the values of each key, in the order they were
    added.  The operations are given for keys in canonical form, as
    ["Authorization"] is. *)
Definition Header : Type := gmap string (list string).

Definition Add (h : Header) (key value : string) : Header :=
  <[key := default [] (h !! key) ++ [value]]> h.

(** [Header.Set] *)
Definition Set' (h : Header) (key value : string) : Header :=
  <[key := [value]]> h.

Definition Values (h : Header) (key : string) : list string :=
  default [] (h !! key).

Definition Get (h : Header) (key : string) : string :=
  match Values h key with
  | value :: _ => value
  | [] => ""
  end.

(** An [*http.Request] with a body read from a [Reader]. *)
Record Request (Reader : Type) : Type := mkRequest
  { Method : string; URL : string; Headers : Header; Body : Reader }.
Arguments mkRequest {Reader}.
Arguments Method {Reader} r.
Arguments URL {Reader} r.
Arguments Headers {Reader} r.
Arguments Body {Reader} r.

Definition withHeaders {Reader} (r : Request Reader) (h : Header)
  : Request Reader :=
  mkRequest (Method r) (URL r) h (Body r).

End http.

(** A [*Granter] handed to a function: nil, or the granter of the
    store. *)
Inductive pointer : Type :=
| nil
| this.

(** What a call that may panic comes to. *)
Inductive outcomeOf (A : Type) : Type :=
| Returns (a : A)
| Panics (msg : string).
Arguments Returns {A} a.
Arguments Panics {A} msg.

Section Adapters.

Variable defaultHTTPClient : Client.
Variable jsonMarshal : gmap string string -> string.
Variable jsonDecode : string -> result Granter.accessTokenResponse.

(** [io.Reader] and [http.NewRequest]. *)
Variable Reader : Type.
Variable NewRequest :
  string -> string -> Reader -> result (http.Request Reader).

(** [NewRequestFunc] creates a request function for the given
    resource: it gets the token and returns a new request with the
    Authorization header set. *)
Definition NewRequestFunc (resource : string)
    (method url : string) (body : Reader)
  : M Granter.t (result (http.Request Reader)) :=
  r ← Granter.GetToken defaultHTTPClient jsonMarshal jsonDecode resource;
  match r with
  | Err err => mret (Err err)
  | Ok jwt =>
      match NewRequest method url body with
      | Err err => mret (Err err)
      | Ok r =>
          mret (Ok (http.withHeaders r
                      (http.Add (http.Headers r) "Authorization"
                         ("Bearer " +:+ jwt))))
      end
  end.

(** An [http.RoundTripper]. *)
Definition RoundTripper : Type :=
  http.Request Reader -> M Granter.t (result Response).

(** [http.DefaultTransport] *)
Variable DefaultTransport : RoundTripper.

(** [NewRoundTripper] creates a round tripper that adds authorization
    to each request before it delegates to the original one (or to the
    default transport if none is provided); it panics if the granter is
    nil.  The round tripper adds the header to the request it is
    given, so it returns, beside the response, that request as it
    leaves it. *)
Definition NewRoundTripper (granter : pointer) (resource : string)
    (original : option RoundTripper)
  : outcomeOf (http.Request Reader ->
               M Granter.t (result Response * http.Request Reader)) :=
  match granter with
  | nil => Panics "granter cannot be nil"
  | this =>
      Returns
        (fun request =>
           r ← Granter.GetToken defaultHTTPClient jsonMarshal jsonDecode
                 resource;
           match r with
           | Err err => mret (Err err, request)
           | Ok jwt =>
               let request :=
                 http.withHeaders request
                   (http.Add (http.Headers request) "Authorization"
                      ("Bearer " +:+ jwt)) in
               resp ← match original with
                      | None => DefaultTransport request
                      | Some rt => rt request
                      end;
               mret (resp, request)
           end)
  end.

End Adapters.

(** ** The middleware that asks for a scope *)

(** [contains] *)
Fixpoint contains (haystack : list string) (needle : string) : bool :=
  match haystack with
  | [] => false
  | hay :: haystack' =>
      if String.eqb hay needle then true else contains haystack' needle
  end.

Definition StatusUnauthorized : Z := 401.
Definition StatusForbidden : Z := 403.

Section Scopes.

(** The state of whoever implements the interfaces, the body of a
    request, and an [http.ResponseWriter] with its [WriteHeader]. *)
Variable T : Type.
Variable Reader : Type.
Variable ResponseWriter : Type.
Variable WriteHeader : ResponseWriter -> Z -> M T unit.

(** The interface [Verifier]. *)
Variable VerifyToken : string -> M T (result Token).

(** An [http.Handler]. *)
Definition Handler : Type :=
  ResponseWriter -> http.Request Reader -> M T unit.

(** [WithScope] will be sure the passed auth token has the correct
    scope. *)
Definition WithScope (next : Handler) (scope : string) : Handler :=
  fun w r =>
    let token :=
      strings.Replace (http.Get (http.Headers r) "Authorization")
        "Bearer " "" 1 in
    v ← VerifyToken token;
    match v with
    | Err _ => WriteHeader w StatusUnauthorized
    | Ok t =>
        let scopes := strings.Split (Scope (claims t)) " " in
        if negb (contains scopes scope) then WriteHeader w StatusForbidden
        else next w r
    end.

End Scopes.

(** [sub] occurs in [s]. *)
Fixpoint occurs (sub s : string) : bool :=
  strings.HasPrefix s sub
  || match s with
     | EmptyString => false
     | String _ s' => occurs sub s'
     end.

(** [s] has no space in it. *)
Definition spaceFree (s : string) : Prop :=
  strings.contains s " "%char = false.

(** The permission [scope] is one of the words of [granted], a string
    of words without spaces separated by single spaces. *)
Definition grants (granted scope : string) : Prop :=
  exists before after,
    granted = strings.Join (before ++ scope :: after) " "
    /\ Forall spaceFree (before ++ scope :: after).

(** ** Middleware that records the status of the response *)

Definition StatusOK : Z := 200.

Module mw.

Section Writers.

(** The state of whatever stands behind the interfaces: the connection,
    the server, the rest of the program. *)
Variable T : Type.

(** The [http.Header] a writer hands out, and the channel of
    [CloseNotify]. *)
Variable H : Type.
Variable C : Type.

(** A call that returns or panics, on a state [S]. *)
Definition Act (S A : Type) : Type := S -> outcomeOf A * S.

Definition andThen {S A B} (m : Act S A) (k : A -> Act S B) : Act S B :=
  fun s =>
    match m s with
    | (Returns a, s') => k a s'
    | (Panics v, s') => (Panics v, s')
    end.

(** A value behind [http.ResponseWriter]: the three methods of the
    interface, and [Flush] and [CloseNotify] when its type has them. *)
Record ResponseWriter : Type := mkResponseWriter
  { Header : Act (Store T) H;
    WriteHeader : Z -> Act (Store T) unit;
    Write : string -> Act (Store T) (Z * option error);
    Flusher : option (Act (Store T) unit);
    CloseNotifier : option (Act (Store T) C) }.

(** What a handler can find out about the value behind the interface:
    the name of its type and the names of its methods.  A checked type
    assertion [w.(I)], a type switch and reflection are questions about
    these. *)
Record DynamicType : Type := mkDynamicType
  { TypeName : string; MethodNames : list string }.

(** The code of a handler, as far as the writer it is given goes: it
    returns, panics, calls a method of the writer and goes on with the
    result, looks at the dynamic type of the writer and goes on
    according to what it finds ([Inspect]), or does something else
    ([Other]: whatever does not go through the interface value, such
    as changing the header map it got, or calling [Hijack] or [Push] on
    a writer it has found to have them).  [CallFlush] and
    [CallCloseNotify] stand for [w.(http.Flusher).Flush()] and
    [w.(http.CloseNotifier).CloseNotify()]. *)
Inductive Program : Type :=
| Return
| Panic (v : string)
| CallHeader (k : H -> Program)
| CallWriteHeader (status : Z) (k : Program)
| CallWrite (b : string) (k : Z * option error -> Program)
| CallFlush (k : Program)
| CallCloseNotify (k : C -> Program)
| Inspect (k : DynamicType -> Program)
| Other (X : Type) (m : Act (Store T) X) (k : X -> Program).

(** What the handler's calls come to for a given interface value, whose
    state is [S]. *)
Record Methods (S : Type) : Type := mkMethods
  { dynamicType : DynamicType;
    callHeader : Act S H;
    callWriteHeader : Z -> Act S unit;
    callWrite : string -> Act S (Z * option error);
    callFlush : Act S unit;
    callCloseNotify : Act S C;
    elsewhere : forall X, Act (Store T) X -> Act S X }.
Arguments dynamicType {S} m.
Arguments callHeader {S} m.
Arguments callWriteHeader {S} m.
Arguments callWrite {S} m.
Arguments callFlush {S} m.
Arguments callCloseNotify {S} m.
Arguments elsewhere {S} m {X}.

(** [next.ServeHTTP(w, r)] for the handler whose code is [p]. *)
Fixpoint ServeHTTP {S} (w : Methods S) (p : Program) : Act S unit :=
  match p with
  | Return => fun s => (Returns tt, s)
  | Panic v => fun s => (Panics v, s)
  | CallHeader k => andThen (callHeader w) (fun h => ServeHTTP w (k h))
  | CallWriteHeader status k =>
      andThen (callWriteHeader w status) (fun _ => ServeHTTP w k)
  | CallWrite b k => andThen (callWrite w b) (fun n => ServeHTTP w (k n))
  | CallFlush k => andThen (callFlush w) (fun _ => ServeHTTP w k)
  | CallCloseNotify k =>
      andThen (callCloseNotify w) (fun c => ServeHTTP w (k c))
  | Inspect k => ServeHTTP w (k (dynamicType w))
  | Other X m k => andThen (elsewhere w m) (fun x => ServeHTTP w (k x))
  end.

(** The type assertion [w.(I)] followed by a call of the method of
    [I]: it panics when the writer has no such method. *)
Definition asserted {A} (I : string) (method : option (Act (Store T) A))
  : Act (Store T) A :=
  match method with
  | Some m => m
  | None => fun s => (Panics ("interface conversion: not " +:+ I), s)
  end.

End Writers.

Arguments Act S A : clear implicits.
Arguments Header {T H C} r.
Arguments WriteHeader {T H C} r.
Arguments Write {T H C} r.
Arguments Flusher {T H C} r.
Arguments CloseNotifier {T H C} r.
Arguments Return {T H C}.
Arguments Panic {T H C} v.
Arguments CallHeader {T H C} k.
Arguments CallWriteHeader {T H C} status k.
Arguments CallWrite {T H C} b k.
Arguments CallFlush {T H C} k.
Arguments CallCloseNotify {T H C} k.
Arguments Inspect {T H C} k.
Arguments Other {T H C} X m k.
Arguments mkMethods {T H C S}.
Arguments dynamicType {T H C S} m.
Arguments callHeader {T H C S} m.
Arguments callWriteHeader {T H C S} m.
Arguments callWrite {T H C S} m.
Arguments callFlush {T H C S} m.
Arguments callCloseNotify {T H C S} m.
Arguments elsewhere {T H C S} m {X}.
Arguments ServeHTTP {T H C S} w p.
Arguments asserted {T A} I method.

(** [logResponseWriter] *)
Module logResponseWriter.

Section Methods.

Variable T H C : Type.

Record t : Type := mk { w : ResponseWriter T H C; status : Z }.

(** The body of a method with the value receiver [rcv]: it gives,
    beside its result, what the receiver holds when it returns. *)
Definition Method (X : Type) : Type :=
  t -> Store T -> outcomeOf X * t * Store T.

Definition Header : Method H :=
  fun rcv s =>
    let (r, s) := mw.Header (w rcv) s in
    (r, rcv, s).

Definition WriteHeader (status' : Z) : Method unit :=
  fun rcv s =>
    let rcv := mk (w rcv) status' in
    let (r, s) := mw.WriteHeader (w rcv) status' s in
    (r, rcv, s).

Definition Write (b : string) : Method (Z * option error) :=
  fun rcv s =>
    let (r, s) := mw.Write (w rcv) b s in
    (r, rcv, s).

Definition Flush : Method unit :=
  fun rcv s =>
    let (r, s) := asserted "http.Flusher" (mw.Flusher (w rcv)) s in
    (r, rcv, s).

Definition CloseNotify : Method C :=
  fun rcv s =>
    let (r, s) := asserted "http.CloseNotifier" (mw.CloseNotifier (w rcv)) s in
    (r, rcv, s).

(** A method with a value receiver called through a pointer runs on a
    copy of what the pointer points at ([cell]): what the body assigns
    to its receiver is gone when it returns. *)
Definition byValue {X} (body : Method X) : Act (t * Store T) X :=
  fun '(cell, s) =>
    let '(r, _, s) := body cell s in
    (r, (cell, s)).

(** The interface value made of a pointer to a [logResponseWriter]:
    the five methods are those of the type. *)
Definition methods : Methods T H C (t * Store T) :=
  mkMethods
    (mkDynamicType "*http.logResponseWriter"
       ["CloseNotify"; "Flush"; "Header"; "Write"; "WriteHeader"])
    (byValue Header)
    (fun status' => byValue (WriteHeader status'))
    (fun b => byValue (Write b))
    (byValue Flush)
    (byValue CloseNotify)
    (fun X m '(cell, s) => let (r, s) := m s in (r, (cell, s))).

End Methods.

Arguments mk {T H C} w status.
Arguments w {T H C} t.
Arguments status {T H C} t.
Arguments methods {T H C}.

End logResponseWriter.

Section WithLog.

Variable T H C : Type.

(** The [*http.Request], with what is read of it: [r.Method],
    [r.RequestURI], [r.URL.Path], and [r.Context().Value(contextKeyRequestID)],
    a value of any type. *)
Variable Request : Type.
Variable Method : Request -> string.
Variable RequestURI : Request -> string.
Variable Path : Request -> string.
Variable Any : Type.
Variable requestID : Request -> Any.

(** [time.Now()] and [time.Since(start)]. *)
Variable Time : Type.
Variable Duration : Type.
Variable Now : M T Time.
Variable Since : Time -> M T Duration.

(** A value handed to the logger. *)
Inductive keyval : Type :=
| Str (s : string)
| Int (n : Z)
| Dur (d : Duration)
| Val (v : Any).

(** [log.Logger] *)
Definition Logger : Type := list keyval -> M T (option error).

(** [WithLog] *)
Definition WithLog (next : Request -> Program T H C) (l : Logger)
  : ResponseWriter T H C -> Request -> Act (Store T) unit :=
  fun w r s =>
    let (start, s) := Now s in
    let lw := logResponseWriter.mk w StatusOK in
    let '(served, (lw, s)) :=
      ServeHTTP logResponseWriter.methods (next r) (lw, s) in
    match served with
    | Panics v => (Panics v, s)
    | Returns _ =>
        let (dur, s) := Since start s in
        let (_, s) :=
          l [Str "level"; Str "info";
             Str "msg"; Str "incoming request";
             Str "requestId"; Val (requestID r);
             Str "method"; Str (Method r);
             Str "uri"; Str (RequestURI r);
             Str "status"; Int (logResponseWriter.status lw);
             Str "dur"; Dur dur] s in
        (Returns tt, s)
    end.

End WithLog.

Arguments Str {Any Duration} s.
Arguments Int {Any Duration} n.
Arguments Dur {Any Duration} d.
Arguments Val {Any Duration} v.

(** [prometheusResponseWriter] *)
Module prometheusResponseWriter.

Section Methods.

Variable T H C : Type.

Record t : Type := mk { w : ResponseWriter T H C; status : Z }.

Definition Method (X : Type) : Type :=
  t -> Store T -> outcomeOf X * t * Store T.

Definition Header : Method H :=
  fun rcv s =>
    let (r, s) := mw.Header (w rcv) s in
    (r, rcv, s).

Definition WriteHeader (status' : Z) : Method unit :=
  fun rcv s =>
    let rcv := mk (w rcv) status' in
    let (r, s) := mw.WriteHeader (w rcv) status' s in
    (r, rcv, s).

Definition Write (b : string) : Method (Z * option error) :=
  fun rcv s =>
    let (r, s) := mw.Write (w rcv) b s in
    (r, rcv, s).

Definition Flush : Method unit :=
  fun rcv s =>
    let (r, s) := asserted "http.Flusher" (mw.Flusher (w rcv)) s in
    (r, rcv, s).

Definition CloseNotify : Method C :=
  fun rcv s =>
    let (r, s) := asserted "http.CloseNotifier" (mw.CloseNotifier (w rcv)) s in
    (r, rcv, s).

(** The methods have value receivers, as those of [logResponseWriter]
    have. *)
Definition byValue {X} (body : Method X) : Act (t * Store T) X :=
  fun '(cell, s) =>
    let '(r, _, s) := body cell s in
    (r, (cell, s)).

(** The interface value made of a pointer to a
    [prometheusResponseWriter]. *)
Definition methods : Methods T H C (t * Store T) :=
  mkMethods
    (mkDynamicType "*http.prometheusResponseWriter"
       ["CloseNotify"; "Flush"; "Header"; "Write"; "WriteHeader"])
    (byValue Header)
    (fun status' => byValue (WriteHeader status'))
    (fun b => byValue (Write b))
    (byValue Flush)
    (byValue CloseNotify)
    (fun X m '(cell, s) => let (r, s) := m s in (r, (cell, s))).

End Methods.

Arguments mk {T H C} w status.
Arguments w {T H C} t.
Arguments status {T H C} t.
Arguments methods {T H C}.

End prometheusResponseWriter.

Section WithPrometheus.

Variable T H C : Type.

Variable Request : Type.
Variable Method : Request -> string.
Variable Path : Request -> string.

(** [time.Now()], and the milliseconds since [start] as a [float64]:
    [float64(time.Since(start).Nanoseconds()) / float64(time.Millisecond)]. *)
Variable Time : Type.
Variable float64 : Type.
Variable Now : M T Time.
Variable millisecondsSince : Time -> M T float64.

(** [httpRequestsTotal.With(labels).Inc()] and
    [httpLatencies.With(labels).Observe(v)]. *)
Variable Inc : gmap string string -> M T unit.
Variable Observe : gmap string string -> float64 -> M T unit.

(** [WithPrometheus] *)
Definition WithPrometheus (next : Request -> Program T H C)
  : ResponseWriter T H C -> Request -> Act (Store T) unit :=
  fun w r s =>
    let (start, s) := Now s in
    let pw := prometheusResponseWriter.mk w StatusOK in
    let '(served, (pw, s)) :=
      ServeHTTP prometheusResponseWriter.methods (next r) (pw, s) in
    match served with
    | Panics v => (Panics v, s)
    | Returns _ =>
        let (_, s) :=
          Inc {[ "method" := Method r;
                 "path" := Path r;
                 "status" := fmt.d (prometheusResponseWriter.status pw) ]} s in
        let (v, s) := millisecondsSince start s in
        let (_, s) :=
          Observe {[ "method" := Method r;
                     "path" := Path r;
                     "status" := fmt.d (prometheusResponseWriter.status pw) ]}
            v s in
        (Returns tt, s)
    end.

End WithPrometheus.

End mw.

(** ** The server: the proxy handler *)

Definition StatusInternalServerError : Z := 500.

Module main.

(** [apiError] *)
Record apiError : Type := mkApiError { Message : string }.

(** [json.Marshal] on an [apiError]: the tag [omitempty] leaves the
    member out when the message is empty. *)
Definition MarshalApiError (e : apiError) : json.bytes :=
  json.Text
    (json.Object
       (if String.eqb (Message e) "" then []
        else [("message", json.Str (json.coerce (Message e)))])).

(** [handler]; its logger is among the collaborators below. *)
Record handler : Type := mkHandler { optionProxyURL : string }.

(** What the handler reads of the [*http.Request] it serves. *)
Record Request (Reader : Type) : Type := mkRequest
  { Method : string;
    Host : string;
    RemoteAddr : string;
    Header : http.Header;
    Body : Reader }.
Arguments mkRequest {Reader}.
Arguments Method {Reader} r.
Arguments Host {Reader} r.
Arguments RemoteAddr {Reader} r.
Arguments Header {Reader} r.
Arguments Body {Reader} r.

(** A value handed to the logger. *)
Inductive logValue : Type :=
| LogString (s : string)
| LogInt (n : Z).

(** What a handler does to its collaborators, which are the logger
    [h.l], the HTTP client and the [http.ResponseWriter]; none of the
    handlers looks at what the logger or the writer return. *)
Inductive Call (Reader : Type) : Type :=
| Log (keyvals : list logValue)
| Do (req : http.Request Reader)
| HeaderAdd (key value : string)
| WriteHeader (status : Z)
| Write (b : json.bytes).
Arguments Log {Reader} keyvals.
Arguments Do {Reader} req.
Arguments HeaderAdd {Reader} key value.
Arguments WriteHeader {Reader} status.
Arguments Write {Reader} b.

(** The calls made so far are the state. *)
Definition call {Reader} (c : Call Reader) : M (list (Call Reader)) unit :=
  fun s => (tt, mkStore (self s ++ [c]) (world s)).

(** [sendError]: [Encode] marshals the value and hands the text to the
    writer in one [Write]. *)
Definition sendError {Reader} (status : Z) (msg : string)
  : M (list (Call Reader)) unit :=
  let err := mkApiError msg in
  _ ← call (HeaderAdd "Content-Type" "application/json");
  _ ← call (WriteHeader status);
  call (Write (MarshalApiError err)).

Section Proxy.

Variable Reader : Type.

(** [url.Parse] and the method [String] of the [*url.URL] it gives. *)
Variable URL : Type.
Variable Parse : string -> result URL.
Variable URLString : URL -> string.

(** [http.NewRequest] *)
Variable NewRequest :
  string -> string -> Reader -> result (http.Request Reader).

(** [textproto.CanonicalMIMEHeaderKey], which [Header.Set] and
    [Header.Add] apply to the key. *)
Variable CanonicalMIMEHeaderKey : string -> string.

(** What [client.Do] comes to for a request: the response of the
    upstream, or an error, the timeout of five seconds included. *)
Variable upstream : http.Request Reader -> result Response.

(** The loop over [r.Header]: [ranged] holds the entries in the order
    in which [range] yields them, which Go leaves open. *)
Definition copyHeader (ranged : list (string * list string))
    (h : http.Header) : http.Header :=
  fold_left
    (fun h '(header, values) =>
       fold_left
         (fun h v => http.Add h (CanonicalMIMEHeaderKey header) v)
         values h)
    ranged h.

(** [proxyHandler] *)
Definition proxyHandler (h : handler)
    (ranged : list (string * list string)) (r : Request Reader)
  : M (list (Call Reader)) unit :=
  _ ← call (Log [LogString "level"; LogString "info";
                 LogString "msg"; LogString "received proxy request"]);
  match Parse (optionProxyURL h) with
  | Err err =>
      _ ← call (Log [LogString "level"; LogString "error";
                     LogString "msg"; LogString "could not parse proxy url";
                     LogString "err"; LogString (Error err)]);
      sendError StatusInternalServerError (Error err)
  | Ok url =>
      match NewRequest (Method r) (URLString url) (Body r) with
      | Err err =>
          _ ← call (Log [LogString "level"; LogString "error";
                         LogString "msg";
                         LogString "could not create new http request";
                         LogString "err"; LogString (Error err)]);
          sendError StatusInternalServerError (Error err)
      | Ok proxyReq =>
          let header :=
            http.Set' (http.Headers proxyReq)
              (CanonicalMIMEHeaderKey "Host") (Host r) in
          let header :=
            http.Set' header
              (CanonicalMIMEHeaderKey "X-Forwarded-For") (RemoteAddr r) in
          let header := copyHeader ranged header in
          let proxyReq := http.withHeaders proxyReq header in
          _ ← call (Do proxyReq);
          match upstream proxyReq with
          | Err err =>
              _ ← call (Log [LogString "level"; LogString "error";
                             LogString "msg";
                             LogString "could do proxy request";
                             LogString "err"; LogString (Error err)]);
              sendError StatusInternalServerError (Error err)
          | Ok proxyResp =>
              if (StatusCode proxyResp <? 200) || (StatusCode proxyResp >=? 300)
              then
                _ ← call (Log [LogString "level"; LogString "info";
                               LogString "msg";
                               LogString "bad status code from proxy response";
                               LogString "status";
                               LogInt (StatusCode proxyResp)]);
                sendError (StatusCode proxyResp)
                  ("bad status from proxy request got: "
                   +:+ fmt.d (StatusCode proxyResp))
              else call (WriteHeader (StatusCode proxyResp))
          end
      end
  end.

End Proxy.

(** The calls a handler made on the writer, the requests it sent and
    the statuses it wrote, in order. *)
Definition onWriter {Reader} (c : Call Reader) : bool :=
  match c with
  | HeaderAdd _ _ | WriteHeader _ | Write _ => true
  | _ => false
  end.

Fixpoint sent {Reader} (calls : list (Call Reader))
  : list (http.Request Reader) :=
  match calls with
  | [] => []
  | Do req :: calls' => req :: sent calls'
  | _ :: calls' => sent calls'
  end.

(** The calls of a handler that starts with none made. *)
Definition calls {Reader} (handler : M (list (Call Reader)) unit)
  : list (Call Reader) :=
  self (snd (run handler [] (mkWorld 0 []))).

End main.

(** * Properties *)

#[local] Arguments String.append !s1 s2 : simpl nomatch.

(** ** Arithmetic of [int64] *)

Lemma wrap_in_range (z : Z) : Int64.in_range (Int64.wrap z).
Proof.
  unfold Int64.in_range, Int64.wrap, Int64.min_signed, Int64.max_signed,
    Int64.modulus.
  pose proof (Z.mod_pos_bound (z + 2 ^ 63) (2 ^ 64) ltac:(lia)). lia.
Qed.

Lemma wrap_id (z : Z) : Int64.in_range z -> Int64.wrap z = z.
Proof.
  unfold Int64.in_range, Int64.wrap, Int64.min_signed, Int64.max_signed,
    Int64.modulus.
  intros Hz. rewrite Z.mod_small by lia. lia.
Qed.

Lemma add_exact (a b : Z) : Int64.in_range (a + b) -> Int64.add a b = a + b.
Proof. apply wrap_id. Qed.

Lemma sub_exact (a b : Z) : Int64.in_range (a - b) -> Int64.sub a b = a - b.
Proof. apply wrap_id. Qed.

(** ** [strings.TrimRight] *)

Lemma TrimRight_empty_iff (s cutset : string) :
  strings.TrimRight s cutset = "" <->
  forall c, In c (list_ascii_of_string s) -> strings.contains cutset c = true.
Proof.
  induction s as [|c s IH]; simpl.
  - split; [intros _ c [] | reflexivity].
  - destruct (strings.TrimRight s cutset) eqn:Ht.
    + destruct (strings.contains cutset c) eqn:Hc.
      * split; [|reflexivity]. intros _ x [<-|Hx]; [exact Hc|].
        now apply IH.
      * split; [discriminate|]. intros H.
        rewrite H in Hc by now left. discriminate.
    + split; [discriminate|]. intros H.
      assert (String a s0 = "") as Habs; [|discriminate Habs].
      apply IH. intros x Hx. apply H. now right.
Qed.

(** What is cut off is a run of bytes of the cutset. *)
Lemma TrimRight_suffix (s cutset : string) :
  exists t, s = strings.TrimRight s cutset +:+ t /\
            forall c, In c (list_ascii_of_string t) ->
                      strings.contains cutset c = true.
Proof.
  induction s as [|c s (t & Hs & Ht)]; simpl.
  - exists "". split; [reflexivity | intros c []].
  - destruct (strings.TrimRight s cutset) eqn:Htrim.
    + destruct (strings.contains cutset c) eqn:Hc.
      * exists (String c s). split; [reflexivity|].
        simpl in Hs. subst t. intros x [<-|Hx]; [exact Hc | now apply Ht].
      * exists t. simpl in *. split; [now f_equal | exact Ht].
    + exists t. split; [|exact Ht]. simpl in *. now f_equal.
Qed.

(** What is left does not end with a byte of the cutset. *)
Lemma TrimRight_last (s cutset : string) (c : ascii) :
  strings.contains cutset c = true ->
  strings.HasSuffixByte (strings.TrimRight s cutset) c = false.
Proof.
  intros Hc. induction s as [|a s IH]; simpl; [reflexivity|].
  destruct (strings.TrimRight s cutset) as [|b u] eqn:Htrim.
  - destruct (strings.contains cutset a) eqn:Ha; simpl; [reflexivity|].
    destruct (Ascii.eqb a c) eqn:Hac; [|reflexivity].
    apply Ascii.eqb_eq in Hac. congruence.
  - simpl in *. exact IH.
Qed.

(** ** Running monadic code *)

Ltac unfold_M :=
  unfold run, mbind, M_bind, mret, M_ret, getSelf, putSelf, emit, Unix in *;
  cbn [self world clock trace fst snd] in *.

Lemma requests_app (t u : list Event) :
  requests (t ++ u) = requests t ++ requests u.
Proof.
  induction t as [|e t IH]; simpl; [reflexivity|].
  destruct e; simpl; now rewrite ?IH.
Qed.

(** ** The token cache *)

Section GranterCache.

Import Granter.

(** What [readToken] answers, case by case. *)
Lemma readToken_run (g : t) (w : World) (resource : string) :
  run (readToken resource) g w =
  (match cache g with
   | None => ("", false)
   | Some c =>
       match c !! resource with
       | Some tc =>
           if expiration tc >=? unix w then (jwt tc, true) else ("", false)
       | None => ("", false)
       end
   end,
   mkStore g (logged w [CacheRead resource])).
Proof.
  unfold readToken, unix, logged. unfold_M.
  destruct (cache g) as [c|]; [|reflexivity].
  destruct (c !! resource) as [tc|]; [|reflexivity].
  cbn. destruct (expiration tc >=? _); reflexivity.
Qed.

(** A token that [readToken] returns expires at [now] or later. *)
Lemma readToken_found (g : t) (w : World) (resource token : string) :
  fst (run (readToken resource) g w) = (token, true) ->
  exists c tc, cache g = Some c /\ c !! resource = Some tc /\
               jwt tc = token /\ unix w <= expiration tc.
Proof.
  rewrite readToken_run. cbn [fst].
  destruct (cache g) as [c|]; [|discriminate].
  destruct (c !! resource) as [tc|] eqn:Hc; [|discriminate].
  destruct (expiration tc >=? unix w) eqn:Hge; [|discriminate].
  intros [= <-]. exists c, tc. repeat split; try assumption. lia.
Qed.

Lemma writeToken_run (g : t) (w : World) (resource token : string) (exp : Z) :
  run (writeToken resource token exp) g w =
  (tt,
   mkStore
     (withCache g
        (Some (<[resource :=
                   mkCachedToken token (Int64.sub exp (ExpirationMargin g))]>
                 (default ∅ (cache g)))))
     (logged w [CacheWrite resource])).
Proof.
  unfold writeToken, logged. unfold_M. destruct (cache g); reflexivity.
Qed.

End GranterCache.

(** ** Fetching a token *)

Section GranterFetch.

Import Granter.

Variable defaultHTTPClient : Client.
Variable jsonMarshal : gmap string string -> string.
Variable jsonDecode : string -> result accessTokenResponse.

Abbreviation fetchToken := (fetchToken defaultHTTPClient jsonMarshal jsonDecode).
Abbreviation GetToken := (GetToken defaultHTTPClient jsonMarshal jsonDecode).
Abbreviation client := (client defaultHTTPClient).
Abbreviation tokenRequest := (tokenRequest jsonMarshal).
Abbreviation answer := (answer defaultHTTPClient jsonMarshal).

Lemma eqb_empty_false (s : string) : s <> "" -> String.eqb s "" = false.
Proof. intros H. now apply String.eqb_neq. Qed.

(** The producer, once the configuration is there: one request, and
    the outcome decided by the exchange. *)
Lemma fetchToken_run (g : t) (w : World) (resource : string) :
  configured g ->
  let x := client g w (tokenRequest g resource) in
  let w1 := mkWorld (clock w + latency x)
              (trace w ++ [RoundTrip (tokenRequest g resource)]) in
  run (fetchToken resource) g w =
  match outcome x with
  | Err err => (Err (errors.Wrap err "unable to fetch token"), mkStore g w1)
  | Ok resp =>
      if (StatusCode resp <? 200) || (StatusCode resp >=? 400) then
        (Err (statusError (StatusCode resp)), mkStore g w1)
      else
        match jsonDecode (Body resp) with
        | Err err =>
            (Err (errors.Wrap err "bad Access Token Response"), mkStore g w1)
        | Ok atr =>
            (Ok (AccessToken atr),
             mkStore
               (withCache g
                  (Some (<[resource :=
                             mkCachedToken (AccessToken atr)
                               (Int64.sub
                                  (Int64.add (unix w1) (ExpiresIn atr))
                                  (ExpirationMargin g))]>
                           (default ∅ (cache g)))))
               (logged w1 [CacheWrite resource]))
        end
  end.
Proof.
  intros (Hid & Hsecret & Htenant) x w1.
  unfold Granter.fetchToken. unfold_M.
  rewrite (eqb_empty_false _ Hid), (eqb_empty_false _ Hsecret),
    (eqb_empty_false _ Htenant). cbn [orb].
  unfold Post, Do. cbn [self world].
  fold (client g). fold (tokenRequest g resource). fold x.
  destruct (outcome x) as [resp|err]; [|reflexivity].
  destruct ((StatusCode resp <? 200) || (StatusCode resp >=? 400));
    [reflexivity|].
  destruct (jsonDecode (Body resp)) as [atr|err]; [|reflexivity].
  pose proof (writeToken_run g w1 resource (AccessToken atr)
                (Int64.add (unix w1) (ExpiresIn atr))) as Hw.
  unfold run in Hw. fold w1. unfold unix in Hw |- *.
  cbn [clock world] in *. rewrite Hw. reflexivity.
Qed.

(** On a miss [GetToken] is the producer, run by the coalescer after the
    cache was read. *)
Lemma GetToken_miss (g : t) (w : World) (resource : string) :
  resource <> "" -> miss g w resource ->
  run (GetToken resource) g w = run (fetchToken resource) g (atFetch w resource).
Proof.
  intros Hres Hmiss. unfold Granter.GetToken, miss in *.
  rewrite (eqb_empty_false _ Hres).
  pose proof (readToken_run g w resource) as Hr.
  destruct (run (readToken resource) g w) as [[token ok] s] eqn:Hrun.
  cbn [fst snd] in Hmiss. subst ok.
  unfold run in *. unfold mbind at 1, M_bind at 1. rewrite Hrun.
  injection Hr as _ ->.
  unfold singleflight.Do. unfold_M. unfold logged, atFetch, logged.
  cbn [clock trace]. rewrite <- app_assoc. cbn [app].
  destruct (Granter.fetchToken _ _ _ _ _) as [[token'|err] s']; reflexivity.
Qed.

(** On a hit [GetToken] only reads the cache. *)
Lemma GetToken_hit (g : t) (w : World) (resource : string)
    (c : gmap string cachedToken) (tc : cachedToken) :
  resource <> "" ->
  cache g = Some c ->
  c !! resource = Some tc ->
  unix w <= expiration tc ->
  run (GetToken resource) g w
  = (Ok (jwt tc), mkStore g (logged w [CacheRead resource])).
Proof.
  intros Hres Hcache Hentry Hfresh. unfold Granter.GetToken.
  rewrite (eqb_empty_false _ Hres).
  pose proof (readToken_run g w resource) as Hr.
  rewrite Hcache, Hentry in Hr.
  assert ((expiration tc >=? unix w) = true) as Hge by lia.
  rewrite Hge in Hr. unfold run in *.
  unfold mbind, M_bind. rewrite Hr. reflexivity.
Qed.

End GranterFetch.

(** ** The key cache and the resolution of keys *)

Section VerifierCache.

Import Verifier.

Lemma readPublicKey_run (v : t) (w : World) (kid : string) :
  run (readPublicKey kid) v w =
  (match cache v with
   | None => None
   | Some c =>
       match c !! kid with
       | Some entry =>
           if expiration entry >? unix w then Some (key entry) else None
       | None => None
       end
   end,
   mkStore v (logged w [CacheRead kid])).
Proof.
  unfold readPublicKey, unix, logged. unfold_M.
  destruct (cache v) as [c|]; [|reflexivity].
  destruct (c !! kid) as [entry|]; [|reflexivity].
  cbn. destruct (expiration entry >? _); reflexivity.
Qed.

(** A key that [readPublicKey] returns expires after [now]. *)
Lemma readPublicKey_found (v : t) (w : World) (kid : string) (pk : PublicKey) :
  fst (run (readPublicKey kid) v w) = Some pk ->
  exists c entry, cache v = Some c /\ c !! kid = Some entry /\
                  key entry = pk /\ unix w < expiration entry.
Proof.
  rewrite readPublicKey_run. cbn [fst].
  destruct (cache v) as [c|]; [|discriminate].
  destruct (c !! kid) as [entry|] eqn:Hc; [|discriminate].
  destruct (expiration entry >? unix w) eqn:Hgt; [|discriminate].
  intros [= <-]. exists c, entry. repeat split; try assumption. lia.
Qed.

Lemma writePublicKey_run (v : t) (w : World) (kid : string) (pk : PublicKey) :
  run (writePublicKey kid pk) v w =
  (tt,
   mkStore
     (withCache v
        (Some (<[kid :=
                   mkKeyCache pk
                     (Int64.sub (Int64.add (unix w) 86400)
                        (ExpirationMargin v))]>
                 (default ∅ (cache v)))))
     (logged w [CacheWrite kid])).
Proof.
  unfold writePublicKey, logged, unix. unfold_M. destruct (cache v); reflexivity.
Qed.

Variable defaultHTTPClient : Client.
Variable jsonDecode : string -> result (list jwk).
Variable ParseRSAPublicKeyFromPEM : string -> result PublicKey.

Abbreviation scanKeys := (scanKeys ParseRSAPublicKeyFromPEM).
Abbreviation fetchKey :=
  (fetchKey defaultHTTPClient jsonDecode ParseRSAPublicKeyFromPEM).
Abbreviation getKey :=
  (getKey defaultHTTPClient jsonDecode ParseRSAPublicKeyFromPEM).
Abbreviation client := (client defaultHTTPClient).

(** The loop stops at the first entry with the wanted key id. *)
Lemma scanKeys_run (v : t) (w : World) (kid : string) (keys : list jwk) :
  run (scanKeys kid keys) v w =
  match firstMatch kid keys with
  | None => (Err (errors.New ("no key for kid: " +:+ kid)), mkStore v w)
  | Some entry =>
      match CertificateChain entry with
      | [] => (Err (errors.New "missing certificate chain"), mkStore v w)
      | certString :: _ =>
          match ParseRSAPublicKeyFromPEM (pem certString) with
          | Err err =>
              (Err (errors.Wrap err "unable to parse public key"), mkStore v w)
          | Ok pk => (Ok pk, stored v w kid pk)
          end
      end
  end.
Proof.
  induction keys as [|entry keys IH]; [reflexivity|].
  unfold firstMatch in *. cbn [Verifier.scanKeys find].
  destruct (String.eqb (KeyID entry) kid); [|exact IH].
  destruct (CertificateChain entry) as [|certString chain]; [reflexivity|].
  fold (pem certString).
  destruct (ParseRSAPublicKeyFromPEM (pem certString)) as [pk|err];
    [|reflexivity].
  pose proof (writePublicKey_run v w kid pk) as Hw.
  unfold run in *. unfold mbind, M_bind. rewrite Hw. reflexivity.
Qed.

Lemma fetchKey_run (v : t) (w : World) (kid : string) :
  let x := client v w (keysRequest v) in
  let w1 := mkWorld (clock w + latency x)
              (trace w ++ [RoundTrip (keysRequest v)]) in
  run (fetchKey kid) v w =
  match outcome x with
  | Err err =>
      (Err (errors.Wrap err "error fetching keys from Auth0"), mkStore v w1)
  | Ok resp =>
      if (StatusCode resp <? 200) || (StatusCode resp >=? 400) then
        (Err (statusError (StatusCode resp)), mkStore v w1)
      else
        match jsonDecode (Body resp) with
        | Err err => (Err err, mkStore v w1)
        | Ok keys => run (scanKeys kid keys) v w1
        end
  end.
Proof.
  intros x w1. unfold Verifier.fetchKey. unfold_M.
  unfold Get, Do. cbn [self world].
  fold (client v). fold (keysRequest v). fold x.
  destruct (outcome x) as [resp|err]; [|reflexivity].
  destruct ((StatusCode resp <? 200) || (StatusCode resp >=? 400));
    [reflexivity|].
  destruct (jsonDecode (Body resp)) as [keys|err]; reflexivity.
Qed.

Lemma getKey_miss (v : t) (w : World) (kid : string) :
  miss v w kid ->
  run (getKey kid) v w = run (fetchKey kid) v (atFetch w kid).
Proof.
  intros Hmiss. unfold Verifier.getKey, miss in *.
  pose proof (readPublicKey_run v w kid) as Hr.
  destruct (run (readPublicKey kid) v w) as [cached s] eqn:Hrun.
  cbn [fst] in Hmiss. subst cached.
  unfold run in *. unfold mbind at 1, M_bind at 1. rewrite Hrun.
  injection Hr as _ ->.
  unfold singleflight.Do. unfold_M. unfold logged, atFetch, logged.
  cbn [clock trace]. rewrite <- app_assoc. cbn [app].
  destruct (Verifier.fetchKey _ _ _ _ _) as [[pk|err] s']; reflexivity.
Qed.

Lemma getKey_hit (v : t) (w : World) (kid : string) (pk : PublicKey) :
  fst (run (readPublicKey kid) v w) = Some pk ->
  run (getKey kid) v w = (Ok pk, mkStore v (logged w [CacheRead kid])).
Proof.
  intros Hhit. unfold Verifier.getKey.
  pose proof (readPublicKey_run v w kid) as Hr.
  destruct (run (readPublicKey kid) v w) as [cached s] eqn:Hrun.
  cbn [fst] in Hhit. subst cached.
  unfold run in *. unfold mbind at 1, M_bind at 1. rewrite Hrun.
  injection Hr as _ ->. reflexivity.
Qed.

End VerifierCache.

(** ** The key-lookup callback *)

Section VerifierPolicy.

Import Verifier.

Variable defaultHTTPClient : Client.
Variable jsonDecode : string -> result (list jwk).
Variable ParseRSAPublicKeyFromPEM : string -> result PublicKey.
Variable ParseUnverified : string -> result (jwt.Token Claims).
Variable Verify : Z -> jwt.Token Claims -> PublicKey -> option error.

Abbreviation getKey :=
  (getKey defaultHTTPClient jsonDecode ParseRSAPublicKeyFromPEM).
Abbreviation keyFunc :=
  (keyFunc defaultHTTPClient jsonDecode ParseRSAPublicKeyFromPEM).
Abbreviation VerifyToken :=
  (VerifyToken defaultHTTPClient jsonDecode ParseRSAPublicKeyFromPEM
     ParseUnverified Verify).

(** The audience check passes exactly when the resource is listed. *)
Lemma verifyAudience_spec (v : t) (audiences : list string) :
  (Resource v ∈ audiences -> verifyAudience v audiences = None) /\
  (Resource v ∉ audiences ->
   verifyAudience v audiences = Some (audienceError v)).
Proof.
  induction audiences as [|a l [IHin IHout]]; simpl.
  - split; [intros H; inversion H | reflexivity].
  - destruct (String.eqb a (Resource v)) eqn:Ha.
    + apply String.eqb_eq in Ha. subst a.
      split; [reflexivity|]. intros H. exfalso. apply H. left.
    + apply String.eqb_neq in Ha. split.
      * intros H. apply IHin. inversion H; subst; [congruence | assumption].
      * intros H. apply IHout. intros Hin. apply H. now right.
Qed.

Lemma append_not_empty (s u : string) : u <> "" -> s +:+ u <> "".
Proof. destruct s; simpl; [auto | discriminate]. Qed.

Lemma expectedIssuer_not_empty (v : t) : expectedIssuer v <> "".
Proof. apply append_not_empty. discriminate. Qed.

(** The two tests on the issuer amount to one comparison. *)
Lemma issuer_test (v : t) (issuer : string) :
  String.eqb issuer "" || negb (String.eqb issuer (expectedIssuer v)) =
  negb (String.eqb issuer (expectedIssuer v)).
Proof.
  destruct (String.eqb issuer "") eqn:He; [|reflexivity].
  apply String.eqb_eq in He. subst issuer. cbn [orb].
  destruct (String.eqb "" (expectedIssuer v)) eqn:Hx; [|reflexivity].
  apply String.eqb_eq in Hx. symmetry in Hx.
  now apply expectedIssuer_not_empty in Hx.
Qed.

(** The callback as a decision list: claims, audience, issuer, key id,
    key. *)
Lemma keyFunc_run (v : t) (w : World) (token : jwt.Token Claims) :
  run (keyFunc token) v w =
  match jwt.claims token with
  | jwt.MapClaims _ => (Err (errors.New "unable to parse claims"), mkStore v w)
  | jwt.Custom claims =>
      match verifyAudience v (elements (Audience claims)) with
      | Some err => (Err err, mkStore v w)
      | None =>
          if String.eqb (Issuer claims) (expectedIssuer v) then
            match jwt.Header token !! "kid" with
            | Some (json.Str kid) =>
                match run (getKey kid) v w with
                | (Err err, s) =>
                    (Err (errors.Wrap err "unable to get public key"), s)
                | (Ok key, s) => (Ok key, s)
                end
            | _ => (Err kidError, mkStore v w)
            end
          else
            (Err (issuerError (Issuer claims) (expectedIssuer v)), mkStore v w)
      end
  end.
Proof.
  unfold Verifier.keyFunc.
  destruct (jwt.claims token) as [claims|m]; [|reflexivity].
  unfold_M.
  destruct (verifyAudience v (elements (Audience claims))); [reflexivity|].
  fold (expectedIssuer v). rewrite issuer_test.
  destruct (String.eqb (Issuer claims) (expectedIssuer v)); cbn [negb];
    [|reflexivity].
  destruct (jwt.Header token !! "kid") as [[| | |kid| |]|]; try reflexivity.
  destruct (Verifier.getKey _ _ _ kid _) as [[key|err] s]; reflexivity.
Qed.

(** What the parser makes of an answer of the callback. *)
Lemma VerifyToken_run (v : t) (w : World) (tokenString : string)
    (token : jwt.Token Claims) (claims : Claims) :
  ParseUnverified tokenString = Ok token ->
  jwt.claims token = jwt.Custom claims ->
  run (VerifyToken tokenString) v w =
  match run (keyFunc token) v w with
  | (Err (ValidationError inner flags), s) =>
      (Err (ValidationError inner flags), s)
  | (Err err, s) =>
      (Err (ValidationError err jwt.ValidationErrorUnverifiable), s)
  | (Ok key, s) =>
      let s' := mkStore (self s) (logged (world s) [SignatureCheck]) in
      match Verify (unix (world s)) token key with
      | Some vErr => (Err vErr, s')
      | None => (Ok (mkToken (jwt.Raw token) claims None), s')
      end
  end.
Proof.
  intros Hparse Hclaims.
  unfold Verifier.VerifyToken, jwt.ParseWithClaims. rewrite Hparse.
  unfold run. unfold mbind at 1, M_bind at 1. unfold mbind at 1, M_bind at 1.
  destruct (Verifier.keyFunc _ _ _ token _) as [[key|err] s].
  - unfold_M. unfold unix, logged.
    destruct (Verify _ token key); [reflexivity|].
    cbn [jwt.claims]. rewrite Hclaims. reflexivity.
  - destruct err; reflexivity.
Qed.

End VerifierPolicy.

(** * The claims of the specification *)

Lemma requests_atFetch (w : World) (key : string) :
  requests (trace (atFetch w key)) = requests (trace w).
Proof.
  unfold atFetch, logged. cbn [trace]. rewrite requests_app.
  cbn. apply app_nil_r.
Qed.

Lemma status_accepted (code : Z) :
  200 <= code < 400 -> (code <? 200) || (code >=? 400) = false.
Proof. intros H. apply orb_false_iff. split; lia. Qed.

Lemma status_refused (code : Z) :
  code < 200 \/ 400 <= code -> (code <? 200) || (code >=? 400) = true.
Proof. intros H. apply orb_true_iff. destruct H; [left | right]; lia. Qed.

(** C7. For the empty resource string, GetToken fails with the error
    "resource cannot be empty" and does nothing else: the store and the
    log are as before, so there was no cache read, no producer run by
    the coalescer and no HTTP request. *)
Theorem C7_GetToken_empty_resource
    (defaultHTTPClient : Client)
    (jsonMarshal : gmap string string -> string)
    (jsonDecode : string -> result Granter.accessTokenResponse)
    (g : Granter.t) (w : World) :
  exists e,
    run (Granter.GetToken defaultHTTPClient jsonMarshal jsonDecode "") g w
    = (Err e, mkStore g w)
    /\ Error e = "resource cannot be empty".
Proof. exists (errors.New "resource cannot be empty"). split; reflexivity. Qed.

(** C10. A granter whose cache holds a token for resource r that has
    not expired returns that token from GetToken(r), whatever its
    ClientID, ClientSecret and TenantURL are: the only thing it does is
    read the cache. *)
Theorem C10_cache_hit_skips_validation
    (defaultHTTPClient : Client)
    (jsonMarshal : gmap string string -> string)
    (jsonDecode : string -> result Granter.accessTokenResponse)
    (g : Granter.t) (w : World) (resource : string)
    (c : gmap string Granter.cachedToken) (tc : Granter.cachedToken) :
  resource <> "" ->
  Granter.cache g = Some c ->
  c !! resource = Some tc ->
  unix w <= Granter.expiration tc ->
  run (Granter.GetToken defaultHTTPClient jsonMarshal jsonDecode resource) g w
  = (Ok (Granter.jwt tc), mkStore g (logged w [CacheRead resource])).
Proof. apply GetToken_hit. Qed.

Lemma C10_cache_hit_skips_validation_witness :
  Granter.ClientID (Fixture.holding 2000) = "" /\
  run (Granter.GetToken (Fixture.respond 500 "" 0) Fixture.jsonMarshal
         Fixture.decodeToken Fixture.svcB)
      (Fixture.holding 2000) Fixture.start
  = (Ok "tok1",
     mkStore (Fixture.holding 2000)
       (logged Fixture.start [CacheRead Fixture.svcB])).
Proof.
  split; [reflexivity|].
  apply (C10_cache_hit_skips_validation (Fixture.respond 500 "" 0)
           Fixture.jsonMarshal Fixture.decodeToken (Fixture.holding 2000)
           Fixture.start Fixture.svcB
           {[ Fixture.svcB := Granter.mkCachedToken "tok1" 2000 ]}
           (Granter.mkCachedToken "tok1" 2000)).
  - discriminate.
  - reflexivity.
  - vm_compute. reflexivity.
  - vm_compute. discriminate.
Defined.

(** C2, at the input where the code departs from it.  The cache holds a
    token for the resource whose stored expiration is 1000 and the
    clock reads 1000: readToken returns the token as found, though its
    expiration is not after now. *)
Theorem C2_readToken_returns_entry_expiring_now :
  unix Fixture.start = 1000 /\
  run (Granter.readToken Fixture.svcB) (Fixture.holding 1000) Fixture.start
  = (("tok1", true),
     mkStore (Fixture.holding 1000)
       (logged Fixture.start [CacheRead Fixture.svcB])).
Proof. split; vm_compute; reflexivity. Qed.

(** C3. A successful token response {access_token, token_type,
    expires_in} read at instant now is answered with the access token
    and cached under the resource with stored expiration
    (now + expires_in) - ExpirationMargin, in 64-bit arithmetic, after
    exactly one request.  With expires_in = 3600 and a margin of 60, a
    second call whose clock reads less than now + 3540 returns the
    cached token and sends nothing; a call whose clock reads more than
    now + 3540 sends exactly one request. *)
Theorem C3_token_cached_until_margin
    (defaultHTTPClient : Client)
    (jsonMarshal : gmap string string -> string)
    (jsonDecode : string -> result Granter.accessTokenResponse)
    (g : Granter.t) (w : World) (resource : string)
    (resp : Response) (atr : Granter.accessTokenResponse) :
  let GetToken := Granter.GetToken defaultHTTPClient jsonMarshal jsonDecode in
  let x := Granter.answer defaultHTTPClient jsonMarshal g w resource in
  let now := Int64.wrap (clock w + latency x) in
  let expiresOn := Int64.add now (Granter.ExpiresIn atr) in
  let s1 := snd (run (GetToken resource) g w) in
  resource <> "" ->
  Granter.configured g ->
  Granter.miss g w resource ->
  outcome x = Ok resp ->
  200 <= StatusCode resp < 400 ->
  jsonDecode (Body resp) = Ok atr ->
  fst (run (GetToken resource) g w) = Ok (Granter.AccessToken atr)
  /\ (exists c,
        Granter.cache (self s1) = Some c /\
        c !! resource
        = Some (Granter.mkCachedToken (Granter.AccessToken atr)
                  (Int64.sub expiresOn (Granter.ExpirationMargin g))))
  /\ (Int64.in_range (now + Granter.ExpiresIn atr) ->
      Int64.in_range
        (now + Granter.ExpiresIn atr - Granter.ExpirationMargin g) ->
      Int64.sub expiresOn (Granter.ExpirationMargin g)
      = now + Granter.ExpiresIn atr - Granter.ExpirationMargin g)
  /\ unix (world s1) = now
  /\ requests (trace (world s1))
     = requests (trace w) ++ [Granter.tokenRequest jsonMarshal g resource]
  /\ (Granter.ExpiresIn atr = 3600 ->
      Granter.ExpirationMargin g = 60 ->
      now + 3600 <= Int64.max_signed ->
      forall w2 : World,
        (unix w2 < now + 3540 ->
         run (GetToken resource) (self s1) w2
         = (Ok (Granter.AccessToken atr),
            mkStore (self s1) (logged w2 [CacheRead resource])))
        /\ (now + 3540 < unix w2 ->
            exists req,
              requests
                (trace (world (snd (run (GetToken resource) (self s1) w2))))
              = requests (trace w2) ++ [req])).
Proof.
  intros GetToken x now expiresOn s1 Hres Hconf Hmiss Hout Hstatus Hdecode.
  assert (run (GetToken resource) g w
          = (Ok (Granter.AccessToken atr),
             mkStore
               (Granter.withCache g
                  (Some (<[resource :=
                             Granter.mkCachedToken (Granter.AccessToken atr)
                               (Int64.sub expiresOn
                                  (Granter.ExpirationMargin g))]>
                           (default ∅ (Granter.cache g)))))
               (logged
                  (mkWorld (clock w + latency x)
                     (trace (atFetch w resource)
                      ++ [RoundTrip
                            (Granter.tokenRequest jsonMarshal g resource)]))
                  [CacheWrite resource]))) as Hrun.
  { unfold GetToken. rewrite GetToken_miss by assumption.
    rewrite fetchToken_run by assumption.
    fold (Granter.answer defaultHTTPClient jsonMarshal g w resource).
    fold x. rewrite Hout, (status_accepted _ Hstatus), Hdecode.
    reflexivity. }
  subst s1. rewrite Hrun. cbn [fst snd self world].
  split; [reflexivity|]. split.
  { eexists. split; [reflexivity|]. apply lookup_insert_eq. }
  split.
  { intros H1 H2. unfold expiresOn. rewrite add_exact by assumption.
    now apply sub_exact. }
  split; [reflexivity|]. split.
  { unfold logged. cbn [trace]. rewrite !requests_app, requests_atFetch.
    cbn. now rewrite app_nil_r. }
  intros Hexp Hmargin Hmax w2.
  set (g1 := Granter.withCache g _).
  assert (Int64.sub expiresOn (Granter.ExpirationMargin g) = now + 3540)
    as Hstored.
  { pose proof (wrap_in_range (clock w + latency x)) as Hnow. fold now in Hnow.
    unfold expiresOn, Int64.in_range, Int64.min_signed, Int64.max_signed in *.
    rewrite Hexp, Hmargin.
    rewrite add_exact
      by (unfold Int64.in_range, Int64.min_signed, Int64.max_signed; lia).
    rewrite sub_exact
      by (unfold Int64.in_range, Int64.min_signed, Int64.max_signed; lia).
    lia. }
  split.
  - intros Hearly.
    apply (GetToken_hit defaultHTTPClient jsonMarshal jsonDecode g1 w2 resource
             (<[resource :=
                  Granter.mkCachedToken (Granter.AccessToken atr)
                    (Int64.sub expiresOn (Granter.ExpirationMargin g))]>
                (default ∅ (Granter.cache g)))
             (Granter.mkCachedToken (Granter.AccessToken atr)
                (Int64.sub expiresOn (Granter.ExpirationMargin g))));
      [assumption | reflexivity | apply lookup_insert_eq |].
    cbn [Granter.expiration]. lia.
  - intros Hlate.
    assert (Granter.miss g1 w2 resource) as Hmiss2.
    { unfold Granter.miss. rewrite readToken_run. cbn [fst snd].
      subst g1. cbn [Granter.cache Granter.withCache].
      rewrite lookup_insert_eq. cbn [Granter.expiration].
      rewrite Hstored.
      assert ((now + 3540 >=? unix w2) = false) as -> by lia. reflexivity. }
    assert (Granter.configured g1) as Hconf2 by exact Hconf.
    unfold GetToken. rewrite GetToken_miss by assumption.
    pose proof (fetchToken_run defaultHTTPClient jsonMarshal jsonDecode g1
                  (atFetch w2 resource) resource Hconf2) as Hf.
    cbv zeta in Hf. rewrite Hf.
    exists (Granter.tokenRequest jsonMarshal g1 resource).
    set (x2 := Granter.client defaultHTTPClient g1 (atFetch w2 resource)
                 (Granter.tokenRequest jsonMarshal g1 resource)).
    destruct (outcome x2) as [resp2|err2].
    + destruct ((StatusCode resp2 <? 200) || (StatusCode resp2 >=? 400)).
      * cbn [snd world trace]. now rewrite requests_app, requests_atFetch.
      * destruct (jsonDecode (Body resp2)) as [atr2|err2];
          cbn [snd world trace]; unfold logged; cbn [trace];
          rewrite ?requests_app, requests_atFetch; cbn;
          now rewrite ?app_nil_r.
    + cbn [snd world trace]. now rewrite requests_app, requests_atFetch.
Qed.

Lemma C3_token_cached_until_margin_witness :
  let GetToken :=
    Granter.GetToken (Fixture.respond 500 "" 0) Fixture.jsonMarshal
      Fixture.decodeToken in
  let s1 := snd (run (GetToken Fixture.svcB) (Fixture.granter 200)
                   Fixture.start) in
  fst (run (GetToken Fixture.svcB) (Fixture.granter 200) Fixture.start)
  = Ok "tok1"
  /\ run (GetToken Fixture.svcB) (self s1) (mkWorld 4540 [])
     = (Ok "tok1",
        mkStore (self s1) (logged (mkWorld 4540 []) [CacheRead Fixture.svcB]))
  /\ exists req,
       requests
         (trace (world (snd (run (GetToken Fixture.svcB) (self s1)
                               (mkWorld 4542 [])))))
       = [] ++ [req].
Proof.
  intros GetToken s1.
  pose proof (C3_token_cached_until_margin (Fixture.respond 500 "" 0)
                Fixture.jsonMarshal Fixture.decodeToken (Fixture.granter 200)
                Fixture.start Fixture.svcB (mkResponse 200 "tok1")
                (Granter.mkAccessTokenResponse "tok1" "Bearer" 3600)) as H.
  cbv zeta in H.
  assert (Fixture.svcB <> "") as Hres by discriminate.
  assert (Granter.configured (Fixture.granter 200)) as Hconf
    by (repeat split; discriminate).
  assert (Granter.miss (Fixture.granter 200) Fixture.start Fixture.svcB)
    as Hmiss by reflexivity.
  assert (200 <= StatusCode (mkResponse 200 "tok1") < 400) as Hstatus
    by (cbn; lia).
  destruct (H Hres Hconf Hmiss eq_refl Hstatus eq_refl)
    as (Hfirst & _ & _ & _ & _ & Hlater).
  split; [exact Hfirst|].
  assert (Int64.wrap 1001 + 3600 <= Int64.max_signed) as Hmax
    by (vm_compute; discriminate).
  split.
  - apply (Hlater eq_refl eq_refl Hmax (mkWorld 4540 [])).
    vm_compute. reflexivity.
  - apply (Hlater eq_refl eq_refl Hmax (mkWorld 4542 [])).
    vm_compute. reflexivity.
Defined.

(** C1, as amended.  A response from the token endpoint or from the key
    endpoint whose status code is below 200 or at least 400 makes the
    operation fail with a status error that carries the code.  A
    response with a status code from 200 to 399, the 3xx codes
    included, is not refused for its status: its body is decoded, and
    the operation succeeds when the body is well formed. *)
Theorem C1_status_outside_200_399_is_error :
  (forall (defaultHTTPClient : Client)
          (jsonMarshal : gmap string string -> string)
          (jsonDecode : string -> result Granter.accessTokenResponse)
          (g : Granter.t) (w : World) (resource : string) (resp : Response),
      let r := fst (run (Granter.GetToken defaultHTTPClient jsonMarshal
                           jsonDecode resource) g w) in
      resource <> "" ->
      Granter.configured g ->
      Granter.miss g w resource ->
      outcome (Granter.answer defaultHTTPClient jsonMarshal g w resource)
      = Ok resp ->
      (StatusCode resp < 200 \/ 400 <= StatusCode resp ->
       r = Err (Granter.statusError (StatusCode resp)))
      /\ (200 <= StatusCode resp < 400 ->
          forall atr, jsonDecode (Body resp) = Ok atr ->
                      r = Ok (Granter.AccessToken atr)))
  /\ (forall (defaultHTTPClient : Client)
             (jsonDecode : string -> result (list Verifier.jwk))
             (ParseRSAPublicKeyFromPEM : string -> result PublicKey)
             (v : Verifier.t) (w : World) (kid : string) (resp : Response),
         let r := fst (run (Verifier.getKey defaultHTTPClient jsonDecode
                              ParseRSAPublicKeyFromPEM kid) v w) in
         Verifier.miss v w kid ->
         outcome (Verifier.answer defaultHTTPClient v w kid) = Ok resp ->
         (StatusCode resp < 200 \/ 400 <= StatusCode resp ->
          r = Err (Verifier.statusError (StatusCode resp)))
         /\ (200 <= StatusCode resp < 400 ->
             forall keys entry certString chain pk,
               jsonDecode (Body resp) = Ok keys ->
               Verifier.firstMatch kid keys = Some entry ->
               Verifier.CertificateChain entry = certString :: chain ->
               ParseRSAPublicKeyFromPEM (Verifier.pem certString) = Ok pk ->
               r = Ok pk))
  /\ (forall code,
         Error (Granter.statusError code)
         = "unable to fetch token: received " +:+ fmt.d code
           +:+ " status code")
  /\ (forall code,
         Error (Verifier.statusError code)
         = "error fetching keys from Auth0: received " +:+ fmt.d code
           +:+ " status code").
Proof.
  split; [|split; [|split; reflexivity]].
  - intros dc jm jd g w resource resp r Hres Hconf Hmiss Hout.
    subst r. rewrite GetToken_miss by assumption.
    rewrite fetchToken_run by assumption.
    fold (Granter.answer dc jm g w resource). rewrite Hout. split.
    + intros Hcode. now rewrite (status_refused _ Hcode).
    + intros Hcode atr Hdecode.
      now rewrite (status_accepted _ Hcode), Hdecode.
  - intros dc jd pp v w kid resp r Hmiss Hout.
    subst r. rewrite getKey_miss by assumption.
    rewrite fetchKey_run.
    fold (Verifier.answer dc v w kid). rewrite Hout. split.
    + intros Hcode. now rewrite (status_refused _ Hcode).
    + intros Hcode keys entry certString chain pk Hdecode Hfind Hchain Hpk.
      rewrite (status_accepted _ Hcode), Hdecode, scanKeys_run.
      now rewrite Hfind, Hchain, Hpk.
Qed.

Lemma C1_status_outside_200_399_is_error_witness :
  fst (run (Granter.GetToken (Fixture.respond 200 "" 0) Fixture.jsonMarshal
              Fixture.decodeToken Fixture.svcB)
         (Fixture.granter 503) Fixture.start)
  = Err (Granter.statusError 503)
  /\ fst (run (Verifier.getKey (Fixture.respond 200 "" 0) Fixture.decodeKeys
                 Fixture.parsePEM "key-1")
            (Fixture.verifier 404) Fixture.start)
     = Err (Verifier.statusError 404).
Proof.
  destruct C1_status_outside_200_399_is_error as (Htoken & Hkeys & _).
  split.
  - refine (proj1 (Htoken (Fixture.respond 200 "" 0) Fixture.jsonMarshal
                     Fixture.decodeToken (Fixture.granter 503) Fixture.start
                     Fixture.svcB (mkResponse 503 "tok1") _ _ _ _) _).
    + discriminate.
    + repeat split; discriminate.
    + reflexivity.
    + reflexivity.
    + right. cbn. lia.
  - refine (proj1 (Hkeys (Fixture.respond 200 "" 0) Fixture.decodeKeys
                     Fixture.parsePEM (Fixture.verifier 404) Fixture.start
                     "key-1" (mkResponse 404 "key-1") _ _) _).
    + reflexivity.
    + reflexivity.
    + right. cbn. lia.
Defined.

(** The token endpoint answers 304 with a well-formed body: the status
    code is not a 2xx code, and GetToken succeeds with the token of the
    body.  The key endpoint answers 304: key resolution succeeds. *)
Lemma C1_not_modified_is_accepted :
  ~ (200 <= 304 < 300)
  /\ outcome (Granter.answer (Fixture.respond 200 "" 0) Fixture.jsonMarshal
                (Fixture.granter 304) Fixture.start Fixture.svcB)
     = Ok (mkResponse 304 "tok1")
  /\ fst (run (Granter.GetToken (Fixture.respond 200 "" 0)
                 Fixture.jsonMarshal Fixture.decodeToken Fixture.svcB)
            (Fixture.granter 304) Fixture.start)
     = Ok "tok1"
  /\ fst (run (Verifier.getKey (Fixture.respond 200 "" 0) Fixture.decodeKeys
                 Fixture.parsePEM "key-1")
            (Fixture.verifier 304) Fixture.start)
     = Ok Fixture.signingKey.
Proof.
  split; [lia|]. repeat split; vm_compute; reflexivity.
Qed.

(** ** Trailing slashes and the expected issuer *)

Lemma all_slashes (u : string) :
  (forall c, In c (list_ascii_of_string u) -> strings.contains "/" c = true) ->
  u = strings.Repeat "/" (String.length u).
Proof.
  induction u as [|c u IH]; intros H; simpl; [reflexivity|].
  f_equal.
  - specialize (H c (or_introl eq_refl)). simpl in H.
    destruct (Ascii.eqb c "/") eqn:Hc; [|discriminate].
    now apply Ascii.eqb_eq in Hc.
  - apply IH. intros x Hx. apply H. now right.
Qed.

(** [TrimRight s "/"] is [s] without its trailing slashes, all of
    them. *)
Lemma TrimRight_slashes (s : string) :
  (exists n, s = strings.TrimRight s "/" +:+ strings.Repeat "/" n)
  /\ strings.HasSuffixByte (strings.TrimRight s "/") "/" = false.
Proof.
  split.
  - destruct (TrimRight_suffix s "/") as (u & Hs & Hu).
    exists (String.length u). now rewrite <- (all_slashes u Hu).
  - now apply TrimRight_last.
Qed.

(** ** What key resolution logs *)

Section VerifierTrace.

Import Verifier.

Variable defaultHTTPClient : Client.
Variable jsonDecode : string -> result (list jwk).
Variable ParseRSAPublicKeyFromPEM : string -> result PublicKey.

Abbreviation getKey :=
  (getKey defaultHTTPClient jsonDecode ParseRSAPublicKeyFromPEM).

Lemma getKey_trace (v : t) (w : World) (kid : string) :
  exists es, trace (world (snd (run (getKey kid) v w))) = trace w ++ es
             /\ SignatureCheck ∉ es.
Proof.
  destruct (fst (run (readPublicKey kid) v w)) as [pk|] eqn:Hread.
  - rewrite (getKey_hit _ _ _ v w kid pk Hread). cbn [snd world].
    exists [CacheRead kid]. split; [reflexivity|].
    rewrite list_elem_of_singleton. discriminate.
  - rewrite getKey_miss by exact Hread. rewrite fetchKey_run.
    set (x := Verifier.client defaultHTTPClient v (atFetch w kid)
                (keysRequest v)).
    assert (SignatureCheck ∉
              [CacheRead kid; Flight kid; RoundTrip (keysRequest v)]) as H3.
    { rewrite !not_elem_of_cons. repeat split; try discriminate.
      apply not_elem_of_nil. }
    assert (SignatureCheck ∉
              [CacheRead kid; Flight kid; RoundTrip (keysRequest v);
               CacheWrite kid]) as H4.
    { rewrite !not_elem_of_cons. repeat split; try discriminate.
      apply not_elem_of_nil. }
    assert (forall T (r : result T),
               exists es,
                 trace (world (snd (r,
                   mkStore v
                     (mkWorld (clock (atFetch w kid) + latency x)
                        (trace (atFetch w kid)
                         ++ [RoundTrip (keysRequest v)])))))
                 = trace w ++ es /\ SignatureCheck ∉ es) as Hplain.
    { intros T r. exists [CacheRead kid; Flight kid; RoundTrip (keysRequest v)].
      split; [|exact H3]. cbn [snd world trace]. unfold atFetch, logged.
      cbn [trace]. now rewrite <- app_assoc. }
    destruct (outcome x) as [resp|err]; [|apply Hplain].
    destruct ((StatusCode resp <? 200) || (StatusCode resp >=? 400));
      [apply Hplain|].
    destruct (jsonDecode (Body resp)) as [keys|err]; [|apply Hplain].
    rewrite scanKeys_run.
    destruct (firstMatch kid keys) as [entry|]; [|apply Hplain].
    destruct (CertificateChain entry) as [|certString chain]; [apply Hplain|].
    destruct (ParseRSAPublicKeyFromPEM (pem certString)) as [pk|err];
      [|apply Hplain].
    exists [CacheRead kid; Flight kid; RoundTrip (keysRequest v);
            CacheWrite kid].
    split; [|exact H4]. unfold stored, atFetch, logged.
    cbn [snd world trace]. now rewrite <- !app_assoc.
Qed.

End VerifierTrace.

(** C6. With the audience accepted, the issuer check of the key-lookup
    callback passes exactly when the issuer of the claims equals the
    TenantURL with all its trailing slashes stripped and one slash
    appended; on a mismatch the callback fails, having done nothing
    else, with an error whose text shows the issuer found and the
    issuer expected. *)
Theorem C6_issuer_check
    (defaultHTTPClient : Client)
    (jsonDecode : string -> result (list Verifier.jwk))
    (ParseRSAPublicKeyFromPEM : string -> result PublicKey)
    (v : Verifier.t) (w : World) (token : jwt.Token Claims)
    (claims : Claims) :
  let r := run (Verifier.keyFunc defaultHTTPClient jsonDecode
                  ParseRSAPublicKeyFromPEM token) v w in
  let stripped := strings.TrimRight (Verifier.TenantURL v) "/" in
  let expected := stripped +:+ "/" in
  jwt.claims token = jwt.Custom claims ->
  Verifier.Resource v ∈ elements (Audience claims) ->
  (Issuer claims <> expected ->
   r = (Err (Verifier.issuerError (Issuer claims) expected), mkStore v w))
  /\ (Issuer claims = expected ->
      forall actual wanted,
        fst r <> Err (Verifier.issuerError actual wanted))
  /\ Error (Verifier.issuerError (Issuer claims) expected)
     = "bad token: issuer is '" +:+ Issuer claims
       +:+ "' when it should be '" +:+ expected +:+ "'"
  /\ (exists n, Verifier.TenantURL v = stripped +:+ strings.Repeat "/" n)
  /\ strings.HasSuffixByte stripped "/" = false.
Proof.
  intros r stripped expected Hclaims Haud. subst r.
  rewrite keyFunc_run, Hclaims.
  rewrite (proj1 (verifyAudience_spec v _) Haud).
  fold stripped. change (Verifier.expectedIssuer v) with expected.
  split; [|split; [|split; [reflexivity | apply TrimRight_slashes]]].
  - intros Hne. apply String.eqb_neq in Hne. now rewrite Hne.
  - intros Heq actual wanted. apply String.eqb_eq in Heq. rewrite Heq.
    destruct (jwt.Header token !! "kid") as [[| | |kid| |]|];
      try (cbn [fst]; intros [= H]; simpl in H; discriminate H).
    destruct (run _ v w) as [[key|err] s]; cbn [fst]; discriminate.
Qed.

Lemma C6_issuer_check_witness :
  run (Verifier.keyFunc (Fixture.respond 200 "" 0) Fixture.decodeKeys
         Fixture.parsePEM
         (Fixture.tokenFor [Fixture.svcB] "https://tenant.example.com"
            "key-1"))
      (Fixture.verifier 200) Fixture.start
  = (Err (Verifier.issuerError "https://tenant.example.com"
            "https://tenant.example.com/"),
     mkStore (Fixture.verifier 200) Fixture.start).
Proof.
  refine (proj1 (C6_issuer_check (Fixture.respond 200 "" 0)
                   Fixture.decodeKeys Fixture.parsePEM (Fixture.verifier 200)
                   Fixture.start
                   (Fixture.tokenFor [Fixture.svcB]
                      "https://tenant.example.com" "key-1")
                   (Fixture.claimsFor [Fixture.svcB]
                      "https://tenant.example.com") eq_refl _) _).
  - apply list_elem_of_singleton. reflexivity.
  - discriminate.
Defined.

(** C4. For a token string that parses, VerifyToken's key-lookup
    callback checks the audience first, then the issuer, then the
    presence of the kid header, then resolves the key, and the
    signature is checked only after all of them succeeded.  An excluded
    audience gives the audience error, which is not a signature error,
    whatever the signature; an issuer mismatch gives the issuer error
    with the store and the log untouched, so before any key-cache
    lookup or key-set request. *)
Theorem C4_checks_in_order
    (defaultHTTPClient : Client)
    (jsonDecode : string -> result (list Verifier.jwk))
    (ParseRSAPublicKeyFromPEM : string -> result PublicKey)
    (ParseUnverified : string -> result (jwt.Token Claims))
    (Verify : Z -> jwt.Token Claims -> PublicKey -> option error)
    (v : Verifier.t) (w : World) (tokenString : string)
    (token : jwt.Token Claims) (claims : Claims) :
  let VerifyToken :=
    Verifier.VerifyToken defaultHTTPClient jsonDecode
      ParseRSAPublicKeyFromPEM ParseUnverified Verify in
  let getKey :=
    Verifier.getKey defaultHTTPClient jsonDecode ParseRSAPublicKeyFromPEM in
  let expected := Verifier.expectedIssuer v in
  let unverifiable err :=
    ValidationError err jwt.ValidationErrorUnverifiable in
  ParseUnverified tokenString = Ok token ->
  jwt.claims token = jwt.Custom claims ->
  (Verifier.Resource v ∉ elements (Audience claims) ->
   run (VerifyToken tokenString) v w
   = (Err (unverifiable (Verifier.audienceError v)), mkStore v w))
  /\ (Verifier.Resource v ∈ elements (Audience claims) ->
      Issuer claims <> expected ->
      run (VerifyToken tokenString) v w
      = (Err (unverifiable (Verifier.issuerError (Issuer claims) expected)),
         mkStore v w))
  /\ (Verifier.Resource v ∈ elements (Audience claims) ->
      Issuer claims = expected ->
      (forall kid, jwt.Header token !! "kid" <> Some (json.Str kid)) ->
      run (VerifyToken tokenString) v w
      = (Err (unverifiable Verifier.kidError), mkStore v w))
  /\ (forall kid,
         Verifier.Resource v ∈ elements (Audience claims) ->
         Issuer claims = expected ->
         jwt.Header token !! "kid" = Some (json.Str kid) ->
         match run (getKey kid) v w with
         | (Err err, s) =>
             run (VerifyToken tokenString) v w
             = (Err (unverifiable
                       (errors.Wrap err "unable to get public key")), s)
             /\ exists es, trace (world s) = trace w ++ es
                           /\ SignatureCheck ∉ es
         | (Ok key, s) =>
             run (VerifyToken tokenString) v w
             = (match Verify (unix (world s)) token key with
                | Some vErr => Err vErr
                | None => Ok (mkToken (jwt.Raw token) claims None)
                end,
                mkStore (self s) (logged (world s) [SignatureCheck]))
         end)
  /\ (forall err,
         jwt.hasFlag (unverifiable err) jwt.ValidationErrorSignatureInvalid
         = false).
Proof.
  intros VerifyToken getKey expected unverifiable Hparse Hclaims.
  subst VerifyToken.
  rewrite (VerifyToken_run _ _ _ _ _ v w tokenString token claims Hparse
             Hclaims).
  rewrite keyFunc_run, Hclaims. fold expected.
  repeat split.
  - intros Hout. now rewrite (proj2 (verifyAudience_spec v _) Hout).
  - intros Hin Hne. rewrite (proj1 (verifyAudience_spec v _) Hin).
    apply String.eqb_neq in Hne. now rewrite Hne.
  - intros Hin Heq Hkid. rewrite (proj1 (verifyAudience_spec v _) Hin).
    apply String.eqb_eq in Heq. rewrite Heq.
    destruct (jwt.Header token !! "kid") as [[| | |kid| |]|];
      try reflexivity.
    now destruct (Hkid kid).
  - intros kid Hin Heq Hkid. rewrite (proj1 (verifyAudience_spec v _) Hin).
    apply String.eqb_eq in Heq. rewrite Heq, Hkid.
    pose proof (getKey_trace defaultHTTPClient jsonDecode
                  ParseRSAPublicKeyFromPEM v w kid) as Htrace.
    fold getKey in Htrace |- *.
    destruct (run (getKey kid) v w) as [[key|err] s].
    + cbv zeta. destruct (Verify _ token key); reflexivity.
    + split; [reflexivity | exact Htrace].
Qed.

Lemma C4_checks_in_order_witness :
  run (Verifier.VerifyToken (Fixture.respond 200 "" 0) Fixture.decodeKeys
         Fixture.parsePEM
         (Fixture.parseAs ["https://svc-c"] Fixture.goodIssuer)
         Fixture.accept "key-1")
      (Fixture.verifier 200) Fixture.start
  = (Err (ValidationError (Verifier.audienceError (Fixture.verifier 200))
            jwt.ValidationErrorUnverifiable),
     mkStore (Fixture.verifier 200) Fixture.start).
Proof.
  refine (proj1 (C4_checks_in_order (Fixture.respond 200 "" 0)
                   Fixture.decodeKeys Fixture.parsePEM
                   (Fixture.parseAs ["https://svc-c"] Fixture.goodIssuer)
                   Fixture.accept (Fixture.verifier 200) Fixture.start
                   "key-1"
                   (Fixture.tokenFor ["https://svc-c"] Fixture.goodIssuer
                      "key-1")
                   (Fixture.claimsFor ["https://svc-c"] Fixture.goodIssuer)
                   eq_refl eq_refl) _).
  cbn. rewrite list_elem_of_singleton. discriminate.
Defined.

(** The same token with the resource among its audiences and the
    expected issuer passes all checks, the key is fetched and the
    signature check comes last. *)
Example VerifyToken_accepts :
  run (Verifier.VerifyToken (Fixture.respond 200 "" 0) Fixture.decodeKeys
         Fixture.parsePEM
         (Fixture.parseAs ["https://svc-c"; Fixture.svcB] Fixture.goodIssuer)
         Fixture.accept "key-1")
      (Fixture.verifier 200) Fixture.start
  = (Ok (mkToken "key-1"
           (Fixture.claimsFor ["https://svc-c"; Fixture.svcB]
              Fixture.goodIssuer) None),
     mkStore
       (Verifier.withCache (Fixture.verifier 200)
          (Some {[ "key-1" :=
                     Verifier.mkKeyCache Fixture.signingKey (1001 + 86400 - 60) ]}))
       (mkWorld 1001
          [CacheRead "key-1"; Flight "key-1";
           RoundTrip (Verifier.keysRequest (Fixture.verifier 200));
           CacheWrite "key-1"; SignatureCheck])).
Proof. vm_compute. reflexivity. Qed.

(** ** The first matching key *)

Lemma firstMatch_None (kid : string) (keys : list Verifier.jwk) :
  Verifier.firstMatch kid keys = None <->
  forall entry, entry ∈ keys -> Verifier.KeyID entry <> kid.
Proof.
  unfold Verifier.firstMatch. induction keys as [|k keys IH]; simpl.
  - split; [|reflexivity]. intros _ entry H. inversion H.
  - destruct (String.eqb (Verifier.KeyID k) kid) eqn:Hk.
    + apply String.eqb_eq in Hk. split; [discriminate|].
      intros H. exfalso. apply (H k); [left | exact Hk].
    + apply String.eqb_neq in Hk. rewrite IH. split.
      * intros H entry Hin. apply elem_of_cons in Hin as [->|Hin];
          [exact Hk | now apply H].
      * intros H entry Hin. apply H. now right.
Qed.

Lemma firstMatch_Some (kid : string) (keys : list Verifier.jwk)
    (entry : Verifier.jwk) :
  Verifier.firstMatch kid keys = Some entry <->
  exists before after,
    keys = before ++ entry :: after /\ Verifier.KeyID entry = kid /\
    forall other, other ∈ before -> Verifier.KeyID other <> kid.
Proof.
  unfold Verifier.firstMatch. induction keys as [|k keys IH]; simpl.
  - split; [discriminate|]. intros (before & after & H & _).
    now destruct before.
  - destruct (String.eqb (Verifier.KeyID k) kid) eqn:Hk.
    + apply String.eqb_eq in Hk. split.
      * intros [= <-]. exists [], keys. repeat split; [exact Hk|].
        intros other H. inversion H.
      * intros (before & after & Hkeys & Hid & Hbefore).
        destruct before as [|b before]; simpl in Hkeys.
        -- now injection Hkeys as ->.
        -- injection Hkeys as -> _. exfalso.
           apply (Hbefore b); [left | exact Hk].
    + apply String.eqb_neq in Hk. rewrite IH. split.
      * intros (before & after & -> & Hid & Hbefore).
        exists (k :: before), after. repeat split; [exact Hid|].
        intros other Hin. apply elem_of_cons in Hin as [->|Hin];
          [exact Hk | now apply Hbefore].
      * intros (before & after & Hkeys & Hid & Hbefore).
        destruct before as [|b before]; simpl in Hkeys.
        -- injection Hkeys as -> _. contradiction.
        -- injection Hkeys as -> ->. exists before, after.
           repeat split; [exact Hid|]. intros other Hin.
           apply Hbefore. now right.
Qed.

(** C8. For a key-set response that was accepted and decoded, and a
    requested kid that is not cached: when no entry of the key list
    has that kid, key resolution fails with an error naming the kid;
    when the first entry with that kid has an empty x5c chain, it fails
    with the certificate-chain error; and it succeeds only with the
    public key parsed from the first certificate of the first entry
    with that kid. *)
Theorem C8_key_resolution
    (defaultHTTPClient : Client)
    (jsonDecode : string -> result (list Verifier.jwk))
    (ParseRSAPublicKeyFromPEM : string -> result PublicKey)
    (v : Verifier.t) (w : World) (kid : string)
    (resp : Response) (keys : list Verifier.jwk) :
  let r := fst (run (Verifier.getKey defaultHTTPClient jsonDecode
                       ParseRSAPublicKeyFromPEM kid) v w) in
  Verifier.miss v w kid ->
  outcome (Verifier.answer defaultHTTPClient v w kid) = Ok resp ->
  200 <= StatusCode resp < 400 ->
  jsonDecode (Body resp) = Ok keys ->
  ((forall entry, entry ∈ keys -> Verifier.KeyID entry <> kid) ->
   exists e, r = Err e /\ Error e = "no key for kid: " +:+ kid)
  /\ (forall entry,
         Verifier.firstMatch kid keys = Some entry ->
         Verifier.CertificateChain entry = [] ->
         exists e, r = Err e /\ Error e = "missing certificate chain")
  /\ (forall pk,
         r = Ok pk ->
         exists entry certString chain,
           Verifier.firstMatch kid keys = Some entry /\
           Verifier.CertificateChain entry = certString :: chain /\
           ParseRSAPublicKeyFromPEM (Verifier.pem certString) = Ok pk)
  /\ (forall entry certString chain pk,
         Verifier.firstMatch kid keys = Some entry ->
         Verifier.CertificateChain entry = certString :: chain ->
         ParseRSAPublicKeyFromPEM (Verifier.pem certString) = Ok pk ->
         r = Ok pk).
Proof.
  intros r Hmiss Hout Hstatus Hdecode. subst r.
  rewrite getKey_miss by assumption. rewrite fetchKey_run.
  fold (Verifier.answer defaultHTTPClient v w kid).
  rewrite Hout, (status_accepted _ Hstatus), Hdecode, scanKeys_run.
  split; [|split; [|split]].
  - intros Hnone. apply firstMatch_None in Hnone. rewrite Hnone.
    eexists. split; reflexivity.
  - intros entry Hfirst Hchain. rewrite Hfirst, Hchain.
    eexists. split; reflexivity.
  - intros pk.
    destruct (Verifier.firstMatch kid keys) as [entry|]; [|discriminate].
    destruct (Verifier.CertificateChain entry) as [|certString chain] eqn:Hc;
      [discriminate|].
    destruct (ParseRSAPublicKeyFromPEM (Verifier.pem certString))
      as [pk'|err] eqn:Hpk; [|discriminate].
    cbn [fst]. intros [= <-]. now exists entry, certString, chain.
  - intros entry certString chain pk Hfirst Hchain Hpk.
    now rewrite Hfirst, Hchain, Hpk.
Qed.

Lemma C8_key_resolution_witness :
  exists e,
    fst (run (Verifier.getKey (Fixture.respond 200 "key-1" 0)
                Fixture.decodeKeys Fixture.parsePEM "missing-kid")
           (Verifier.mk Fixture.svcB "https://tenant.example.com" None 60
              (Some ∅))
           Fixture.start)
    = Err e
    /\ Error e = "no key for kid: missing-kid".
Proof.
  refine (proj1 (C8_key_resolution (Fixture.respond 200 "key-1" 0)
                   Fixture.decodeKeys Fixture.parsePEM
                   (Verifier.mk Fixture.svcB "https://tenant.example.com"
                      None 60 (Some ∅))
                   Fixture.start "missing-kid" (mkResponse 200 "key-1")
                   [Verifier.mkJwk "other" []; Verifier.mkJwk "bare" [];
                    Verifier.mkJwk "key-1" ["MIIC"; "MIID"]]
                   eq_refl eq_refl _ eq_refl) _).
  - cbn. lia.
  - apply firstMatch_None. reflexivity.
Defined.

(** ** The audience list on the wire *)

Lemma stringElements_strings (l : list string) :
  json.stringElements (map json.Str l) = Ok l.
Proof.
  induction l as [|s l IH]; simpl; [reflexivity|]. now rewrite IH.
Qed.

(** What comes back from an array the encoder wrote. *)
Lemma stringElements_coerced (l : list string) :
  json.stringElements (map (fun s => json.Str (json.coerce s)) l)
  = Ok (map json.coerce l).
Proof.
  induction l as [|s l IH]; simpl; [reflexivity|]. now rewrite IH.
Qed.

(** Valid UTF-8 is written as it is. *)
Lemma coerceFrom_valid (s : string) (skip : nat) :
  utf8.validFrom s skip = true -> json.coerceFrom s skip = s.
Proof.
  revert skip. induction s as [|c s IH]; intros skip; [reflexivity|].
  cbn [utf8.validFrom json.coerceFrom]. destruct skip as [|k].
  - destruct (utf8.width (String c s)) as [|k]; [discriminate|].
    intros Hv. now rewrite IH.
  - intros Hv. now rewrite IH.
Qed.

Lemma coerceFrom_length (s : string) (skip : nat) :
  (String.length s <= String.length (json.coerceFrom s skip))%nat.
Proof.
  revert skip. induction s as [|c s IH]; intros skip; [reflexivity|].
  cbn [json.coerceFrom]. destruct skip as [|k].
  - destruct (utf8.width (String c s)) as [|k].
    + cbn [utf8.RuneError append String.length]. specialize (IH 0%nat). lia.
    + cbn [String.length]. specialize (IH k). lia.
  - cbn [String.length]. specialize (IH k). lia.
Qed.

(** A byte that is replaced makes the string longer. *)
Lemma coerceFrom_invalid (s : string) (skip : nat) :
  utf8.validFrom s skip = false ->
  (String.length s < String.length (json.coerceFrom s skip))%nat.
Proof.
  revert skip. induction s as [|c s IH]; intros skip; [discriminate|].
  cbn [utf8.validFrom json.coerceFrom]. destruct skip as [|k].
  - destruct (utf8.width (String c s)) as [|k].
    + intros _. cbn [utf8.RuneError append String.length].
      pose proof (coerceFrom_length s 0). lia.
    + intros Hv. cbn [String.length]. specialize (IH k Hv). lia.
  - intros Hv. cbn [String.length]. specialize (IH k Hv). lia.
Qed.

Lemma coerce_id (s : string) :
  json.coerce s = s <-> utf8.ValidString s = true.
Proof.
  unfold json.coerce, utf8.ValidString. split.
  - intros Hsame. destruct (utf8.validFrom s 0) eqn:Hv; [reflexivity|].
    apply coerceFrom_invalid in Hv. rewrite Hsame in Hv. lia.
  - apply coerceFrom_valid.
Qed.

Lemma coerce_all_id (l : list string) :
  map json.coerce l = l <-> Forall (fun s => utf8.ValidString s = true) l.
Proof.
  induction l as [|s l IH]; cbn [map].
  - split; [constructor | reflexivity].
  - split.
    + intros [= Hs Hl]. constructor; [now apply coerce_id | now apply IH].
    + intros H. inversion H as [|? ? Hs Hl]; subst.
      apply coerce_id in Hs. apply IH in Hl. now rewrite Hs, Hl.
Qed.

(** C5, as amended.  MarshalJSON on a list of exactly one audience
    gives a bare JSON string, which holds the audience as the encoder
    writes it: with U+FFFD in the place of every byte at which no valid
    UTF-8 encoding starts.  UnmarshalJSON on a bare JSON string gives
    the list of that one string.  A list of two or more audiences is
    encoded as the JSON array of its strings so written, from which
    UnmarshalJSON gives the list of those strings; that is the
    original list exactly when all its audiences are valid UTF-8. *)
Theorem C5_audience_list_json :
  (forall s : string,
      MarshalJSON (Some [s]) = Ok (json.Text (json.Str (json.coerce s))))
  /\ (forall s : string,
         UnmarshalJSON (json.Text (json.Str s)) = Ok (Some [s]))
  /\ (forall l : list string,
         (2 <= length l)%nat ->
         MarshalJSON (Some l)
         = Ok (json.Text
                 (json.Array (map (fun s => json.Str (json.coerce s)) l)))
         /\ (forall data,
                MarshalJSON (Some l) = Ok data ->
                UnmarshalJSON data = Ok (Some (map json.coerce l)))
         /\ (Forall (fun s => utf8.ValidString s = true) l ->
             forall data,
               MarshalJSON (Some l) = Ok data ->
               UnmarshalJSON data = Ok (Some l))
         /\ (map json.coerce l = l
             <-> Forall (fun s => utf8.ValidString s = true) l)).
Proof.
  split; [reflexivity|]. split; [reflexivity|].
  intros l Hlen.
  assert (MarshalJSON (Some l)
          = Ok (json.Text
                  (json.Array (map (fun s => json.Str (json.coerce s)) l))))
    as Hm.
  { destruct l as [|a [|b l]]; simpl in Hlen; try lia. reflexivity. }
  assert (forall data,
             MarshalJSON (Some l) = Ok data ->
             UnmarshalJSON data = Ok (Some (map json.coerce l))) as Hback.
  { intros data Hdata. rewrite Hm in Hdata. injection Hdata as <-.
    destruct l as [|a [|b l]]; simpl in Hlen; try lia.
    unfold UnmarshalJSON. cbn -[json.stringElements json.coerce].
    change (json.Str (json.coerce a) :: json.Str (json.coerce b)
            :: map (fun s => json.Str (json.coerce s)) l)
      with (map (fun s => json.Str (json.coerce s)) (a :: b :: l)).
    now rewrite stringElements_coerced. }
  split; [exact Hm|]. split; [exact Hback|]. split; [|apply coerce_all_id].
  intros Hvalid data Hdata. rewrite (Hback data Hdata).
  now rewrite (proj2 (coerce_all_id l) Hvalid).
Qed.

Lemma C5_audience_list_json_witness :
  MarshalJSON (Some ["https://svc-a"; "https://svc-b"])
  = Ok (json.Text (json.Array [json.Str "https://svc-a";
                               json.Str "https://svc-b"]))
  /\ UnmarshalJSON
       (json.Text (json.Array [json.Str "https://svc-a";
                               json.Str "https://svc-b"]))
     = Ok (Some ["https://svc-a"; "https://svc-b"]).
Proof.
  destruct C5_audience_list_json as (_ & _ & Harray).
  destruct (Harray ["https://svc-a"; "https://svc-b"])
    as (Hm & _ & Hu & _).
  - cbn. lia.
  - split; [exact Hm|]. apply Hu; [|exact Hm].
    repeat constructor.
Defined.

(** A list of two audiences the first of which is the single byte FF,
    which is no UTF-8: what is decoded from its encoding has U+FFFD for
    that audience, and is not the list that was encoded. *)
Lemma C5_invalid_utf8_comes_back_changed :
  let l := [String (ascii_of_N 255) EmptyString; "a"] in
  exists data,
    MarshalJSON (Some l) = Ok data
    /\ UnmarshalJSON data = Ok (Some [utf8.RuneError; "a"])
    /\ UnmarshalJSON data <> Ok (Some l).
Proof.
  intros l. eexists. split; [reflexivity|].
  split; [vm_compute; reflexivity | vm_compute; discriminate].
Qed.

(** ** Goroutines: one call at a time *)

Section OneCall.

Import Concurrent.

Variable defaultHTTPClient : Client.
Variable jsonMarshal : gmap string string -> string.
Variable jsonDecode : string -> result Granter.accessTokenResponse.

Abbreviation GetToken :=
  (Granter.GetToken defaultHTTPClient jsonMarshal jsonDecode).
Abbreviation fetchToken :=
  (Granter.fetchToken defaultHTTPClient jsonMarshal jsonDecode).
Abbreviation step := (step defaultHTTPClient jsonMarshal jsonDecode).
Abbreviation next := (next defaultHTTPClient jsonMarshal jsonDecode).
Abbreviation exec := (exec defaultHTTPClient jsonMarshal jsonDecode).
Abbreviation request := (request defaultHTTPClient jsonMarshal).
Abbreviation receive := (receive jsonDecode).

(** The first part ends with the outcome of a round trip or with the
    error the producer returns. *)
Lemma request_points (key : string) (s : Store Granter.t) :
  (exists r s', request key s = (Responded r, s'))
  \/ (exists r, request key s = (Returning r, s)).
Proof.
  unfold Concurrent.request.
  destruct (String.eqb (Granter.ClientID (self s)) ""
            || String.eqb (Granter.ClientSecret (self s)) "");
    [right; eauto|].
  destruct (String.eqb (Granter.TenantURL (self s)) ""); [right; eauto|].
  destruct (Do _ _ s) as [r s']. left; eauto.
Qed.

(** The two parts of the producer, one after the other, are the
    producer. *)
Lemma request_receive (key : string) (s : Store Granter.t) :
  fetchToken key s =
  match request key s with
  | (Responded r, s') => receive key r s'
  | (Returning r, s') => (r, s')
  | (_, s') => (Err (errors.New ""), s')
  end.
Proof.
  unfold Granter.fetchToken, Concurrent.request, Concurrent.receive.
  unfold_M.
  destruct (String.eqb (Granter.ClientID (self s)) ""
            || String.eqb (Granter.ClientSecret (self s)) "");
    [reflexivity|].
  destruct (String.eqb (Granter.TenantURL (self s)) ""); [reflexivity|].
  unfold Post, Granter.client, Granter.tokenRequest.
  destruct (Do _ _ s) as [[resp|err] s']; [|reflexivity].
  destruct ((StatusCode resp <? 200) || (StatusCode resp >=? 400));
    [reflexivity|].
  destruct (jsonDecode (Body resp)) as [atr|err]; [|reflexivity].
  destruct (Granter.writeToken _ _ _ _) as [[] s2]. reflexivity.
Qed.

(** [GetToken] cut at the points where it synchronises. *)
Lemma GetToken_points (g : Granter.t) (w : World) (key : string) :
  run (GetToken key) g w =
  if String.eqb key "" then
    (Err (errors.New "resource cannot be empty"), mkStore g w)
  else
    let '((token, ok), s) := Granter.readToken key (mkStore g w) in
    if ok : bool then (Ok token, s)
    else let '(_, s0) := emit (Flight key) s in fetchToken key s0.
Proof.
  unfold run, Granter.GetToken.
  destruct (String.eqb key ""); [reflexivity|].
  unfold mbind at 1, M_bind at 1.
  destruct (Granter.readToken key _) as [[token [|]] s]; [reflexivity|].
  unfold singleflight.Do. unfold mbind, M_bind.
  destruct (emit (Flight key) s) as [[] s0].
  destruct (Granter.fetchToken _ _ _ key s0) as [[token'|err] s1];
    reflexivity.
Qed.

(** A goroutine alone goes through [GetToken] in at most five steps
    and ends where the sequential reading of the code ends. *)
Lemma single_call (g : Granter.t) (w : World) (key : string) :
  exec (initial g w (calls key 1)) (replicate 5 (Run 0))
  = mkConfig (snd (run (GetToken key) g w)) ∅
      [mkThread key (Done (fst (run (GetToken key) g w)))].
Proof.
  rewrite GetToken_points.
  unfold initial, calls, Concurrent.exec.
  cbn [replicate fold_left Concurrent.next].
  unfold Concurrent.step at 5.
  cbn [threads lookup list_lookup resource point store flights].
  destruct (String.eqb key "") eqn:Hkey; [reflexivity|].
  destruct (Granter.readToken key _) as [[token [|]] s]; [reflexivity|].
  unfold move. cbn [threads flights insert list_insert].
  unfold Concurrent.step at 4.
  cbn [threads lookup list_lookup resource point store flights].
  destruct (decide (key ∈ ∅)) as [Hin|_]; [now apply not_elem_of_empty in Hin|].
  destruct (emit (Flight key) s) as [[] s0].
  cbn [insert list_insert].
  unfold Concurrent.step at 3.
  cbn [threads lookup list_lookup resource point store flights].
  rewrite request_receive.
  assert (({[key]} ∪ ∅) ∖ {[key]} = (∅ : gset string)) as Hflights
    by now rewrite union_empty_r_L, difference_diag_L.
  destruct (request_points key s0) as [(r & s1 & Hreq)|(r & Hreq)];
    rewrite Hreq; unfold move; cbn [threads flights insert list_insert].
  - unfold Concurrent.step at 2.
    cbn [threads lookup list_lookup resource point store flights].
    destruct (receive key r s1) as [r' s2].
    unfold move. cbn [threads flights insert list_insert].
    unfold Concurrent.step.
    cbn [threads lookup list_lookup resource point store flights fmap
           list_fmap insert list_insert fst snd].
    now rewrite Hflights.
  - unfold Concurrent.step at 2.
    cbn [threads lookup list_lookup resource point store flights fmap
           list_fmap insert list_insert].
    rewrite Hflights. unfold Concurrent.step.
    cbn [threads lookup list_lookup resource point fst snd]. reflexivity.
Qed.

End OneCall.

(** ** Goroutines: one flight per key *)

Section Flights.

Import Concurrent.

Lemma deliver_resource (key : string) (r : result string) (th : Thread) :
  resource (deliver key r th) = resource th.
Proof.
  unfold deliver.
  now destruct (waits (point th) && String.eqb (resource th) key).
Qed.

Lemma deliver_leads (key : string) (r : result string) (th : Thread) :
  leads (point (deliver key r th)) = leads (point th).
Proof.
  unfold deliver. destruct (point th) eqn:Hp; cbn; rewrite ?Hp; try reflexivity.
  destruct (String.eqb (resource th) key); cbn; now rewrite ?Hp.
Qed.

Lemma deliver_leader (key : string) (r : result string) (th : Thread) :
  leads (point th) = true -> deliver key r th = th.
Proof. unfold deliver. now destruct (point th). Qed.

Lemma deliver_waits (key : string) (r : result string) (th : Thread) :
  waits (point (deliver key r th)) = true ->
  waits (point th) = true /\ resource th <> key.
Proof.
  unfold deliver. destruct (waits (point th)) eqn:Hw; cbn.
  - destruct (String.eqb (resource th) key) eqn:Hk; cbn; [discriminate|].
    apply String.eqb_neq in Hk. now rewrite Hw.
  - now rewrite Hw.
Qed.

Lemma deliver_waiting (key : string) (r : result string) :
  deliver key r (mkThread key Waiting) = mkThread key (Done r).
Proof. unfold deliver. cbn. now rewrite String.eqb_refl. Qed.

(** A step that leaves the flights alone and does not change whether
    the goroutine leads keeps the invariant. *)
Lemma inv_move (c : Config) (i : nat) (th : Thread) (s : Store Granter.t)
    (p' : pc) :
  oneFlightPerKey c ->
  threads c !! i = Some th ->
  leads p' = leads (point th) ->
  (waits p' = true -> resource th ∈ flights c) ->
  oneFlightPerKey (move c i (resource th) s p').
Proof.
  intros (Huniq & Hin & Hled & Hwait) Hi Hleads Hwaits.
  assert (forall j th',
             threads (move c i (resource th) s p') !! j = Some th' ->
             exists tho, threads c !! j = Some tho
                         /\ resource tho = resource th'
                         /\ leads (point tho) = leads (point th')
                         /\ (waits (point th') = true ->
                             resource th' ∈ flights c)) as Hold.
  { intros j th' Hj. cbn [move threads] in Hj.
    apply list_lookup_insert_Some in Hj as [(<- & <- & _)|(Hne & Hj)].
    - exists th. cbn. now repeat split.
    - exists th'. repeat split; [exact Hj|]. now apply (Hwait j). }
  split; [|split; [|split]].
  - intros j1 j2 th1 th2 H1 H2 Hl1 Hl2 Hres.
    destruct (Hold _ _ H1) as (o1 & Ho1 & Hr1 & Hp1 & _).
    destruct (Hold _ _ H2) as (o2 & Ho2 & Hr2 & Hp2 & _).
    apply (Huniq j1 j2 o1 o2); congruence.
  - intros j th' Hj Hl. destruct (Hold _ _ Hj) as (o & Ho & Hr & Hp & _).
    cbn [move flights]. rewrite <- Hr. apply (Hin j o); congruence.
  - intros key Hkey. cbn [move flights] in Hkey.
    destruct (Hled key Hkey) as (j & o & Ho & Hl & Hr).
    destruct (decide (i = j)) as [<-|Hne].
    + exists i, (mkThread (resource th) p'). cbn [move threads].
      rewrite list_lookup_insert_eq by (now apply lookup_lt_Some in Hi).
      assert (o = th) as -> by congruence.
      repeat split; cbn; congruence.
    + exists j, o. cbn [move threads].
      now rewrite list_lookup_insert_ne.
  - intros j th' Hj Hw. destruct (Hold _ _ Hj) as (_ & _ & _ & _ & H).
    now apply H.
Qed.

(** A goroutine that finds no flight for its key registers one. *)
Lemma inv_lead (c : Config) (i : nat) (th : Thread) (s : Store Granter.t) :
  oneFlightPerKey c ->
  threads c !! i = Some th ->
  leads (point th) = false ->
  resource th ∉ flights c ->
  oneFlightPerKey
    (mkConfig s ({[resource th]} ∪ flights c)
       (<[i := mkThread (resource th) Leading]> (threads c))).
Proof.
  intros (Huniq & Hin & Hled & Hwait) Hi Hnot Hfree.
  split; [|split; [|split]]; cbn [threads flights].
  - intros j1 j2 th1 th2 H1 H2 Hl1 Hl2 Hres.
    apply list_lookup_insert_Some in H1 as [(<- & <- & _)|(Hne1 & H1)];
      apply list_lookup_insert_Some in H2 as [(<- & <- & _)|(Hne2 & H2)].
    + reflexivity.
    + exfalso. apply Hfree. cbn in Hres. rewrite Hres. now apply (Hin j2).
    + exfalso. apply Hfree. cbn in Hres. rewrite <- Hres. now apply (Hin j1).
    + now apply (Huniq j1 j2 th1 th2).
  - intros j th' Hj Hl.
    apply list_lookup_insert_Some in Hj as [(<- & <- & _)|(Hne & Hj)].
    + apply elem_of_union_l. now apply elem_of_singleton.
    + apply elem_of_union_r. now apply (Hin j).
  - intros key Hkey. apply elem_of_union in Hkey as [Hkey|Hkey].
    + apply elem_of_singleton in Hkey as ->.
      exists i, (mkThread (resource th) Leading).
      rewrite list_lookup_insert_eq by (now apply lookup_lt_Some in Hi).
      now repeat split.
    + destruct (Hled key Hkey) as (j & o & Ho & Hl & Hr).
      exists j, o. rewrite list_lookup_insert_ne; [now repeat split|].
      intros <-. congruence.
  - intros j th' Hj Hw.
    apply list_lookup_insert_Some in Hj as [(<- & <- & _)|(Hne & Hj)];
      [discriminate|].
    apply elem_of_union_r. now apply (Hwait j).
Qed.

(** The leader leaves the coalescer: its flight is cleared and those
    who waited for it have its outcome. *)
Lemma inv_release (c : Config) (i : nat) (th : Thread) (r : result string) :
  oneFlightPerKey c ->
  threads c !! i = Some th ->
  leads (point th) = true ->
  oneFlightPerKey
    (mkConfig (store c) (flights c ∖ {[resource th]})
       (<[i := mkThread (resource th) (Done r)]>
          (deliver (resource th) r <$> threads c))).
Proof.
  intros (Huniq & Hin & Hled & Hwait) Hi Hlead.
  assert (forall j th',
             <[i := mkThread (resource th) (Done r)]>
               (deliver (resource th) r <$> threads c) !! j = Some th' ->
             leads (point th') = true \/ waits (point th') = true ->
             i <> j /\ exists o, threads c !! j = Some o
                                 /\ th' = deliver (resource th) r o) as Hold.
  { intros j th' Hj Hlw.
    apply list_lookup_insert_Some in Hj as [(<- & <- & _)|(Hne & Hj)].
    - cbn in Hlw. destruct Hlw; discriminate.
    - split; [exact Hne|]. rewrite list_lookup_fmap in Hj.
      destruct (threads c !! j) as [o|]; [|discriminate].
      exists o. cbn in Hj. split; congruence. }
  split; [|split; [|split]]; cbn [threads flights].
  - intros j1 j2 th1 th2 H1 H2 Hl1 Hl2 Hres.
    destruct (Hold _ _ H1 (or_introl Hl1)) as (_ & o1 & Ho1 & ->).
    destruct (Hold _ _ H2 (or_introl Hl2)) as (_ & o2 & Ho2 & ->).
    rewrite deliver_leads in Hl1, Hl2. rewrite !deliver_resource in Hres.
    now apply (Huniq j1 j2 o1 o2).
  - intros j th' Hj Hl.
    destruct (Hold _ _ Hj (or_introl Hl)) as (Hne & o & Ho & ->).
    rewrite deliver_leads in Hl. rewrite deliver_resource.
    apply elem_of_difference. split; [now apply (Hin j)|].
    rewrite elem_of_singleton. intros Hsame.
    apply Hne. now apply (Huniq i j th o).
  - intros key Hkey. apply elem_of_difference in Hkey as [Hkey Hother].
    rewrite elem_of_singleton in Hother.
    destruct (Hled key Hkey) as (j & o & Ho & Hl & Hr).
    exists j, o. rewrite list_lookup_insert_ne by (intros <-; congruence).
    rewrite list_lookup_fmap, Ho. cbn.
    now rewrite (deliver_leader _ _ _ Hl).
  - intros j th' Hj Hw.
    destruct (Hold _ _ Hj (or_intror Hw)) as (Hne & o & Ho & ->).
    apply deliver_waits in Hw as [Hw Hother]. rewrite deliver_resource.
    apply elem_of_difference. split; [now apply (Hwait j)|].
    now rewrite elem_of_singleton.
Qed.

End Flights.

(** ** Goroutines: any schedule *)

Section Schedules.

Import Concurrent.

Variable defaultHTTPClient : Client.
Variable jsonMarshal : gmap string string -> string.
Variable jsonDecode : string -> result Granter.accessTokenResponse.

Abbreviation step := (step defaultHTTPClient jsonMarshal jsonDecode).
Abbreviation next := (next defaultHTTPClient jsonMarshal jsonDecode).
Abbreviation exec := (exec defaultHTTPClient jsonMarshal jsonDecode).
Abbreviation request := (request defaultHTTPClient jsonMarshal).
Abbreviation receive := (receive jsonDecode).
Abbreviation flightPhase := (flightPhase jsonMarshal).

Lemma inv_step (c : Config) (i : nat) :
  oneFlightPerKey c -> oneFlightPerKey (step c i).
Proof.
  intros Hinv. unfold Concurrent.step.
  destruct (threads c !! i) as [th|] eqn:Hi; [|exact Hinv].
  destruct (point th) eqn:Hp.
  - destruct (String.eqb (resource th) "").
    + apply inv_move; rewrite ?Hp; try assumption; try reflexivity.
      discriminate.
    + destruct (Granter.readToken _ _) as [[token ok] s].
      apply inv_move; rewrite ?Hp; try assumption; destruct ok;
        try reflexivity; discriminate.
  - destruct (decide (resource th ∈ flights c)) as [Hin|Hout].
    + apply inv_move; rewrite ?Hp; try assumption; try reflexivity.
      intros _. exact Hin.
    + destruct (emit _ _) as [[] s].
      apply inv_lead; rewrite ?Hp; try assumption; reflexivity.
  - destruct (request_points defaultHTTPClient jsonMarshal (resource th)
                (store c)) as [(r & s' & Hreq)|(r & Hreq)];
      rewrite Hreq; apply inv_move; rewrite ?Hp; try assumption;
      try reflexivity; discriminate.
  - destruct (receive _ _ _) as [r' s].
    apply inv_move; rewrite ?Hp; try assumption; try reflexivity.
    discriminate.
  - apply inv_release; rewrite ?Hp; try assumption; reflexivity.
  - exact Hinv.
  - exact Hinv.
Qed.

Lemma inv_next (c : Config) (l : Label) :
  oneFlightPerKey c -> oneFlightPerKey (next c l).
Proof. destruct l as [i|seconds]; [apply inv_step | trivial]. Qed.

Lemma inv_exec (schedule : list Label) (c : Config) :
  oneFlightPerKey c -> oneFlightPerKey (exec c schedule).
Proof.
  revert c. induction schedule as [|l schedule IH]; intros c Hinv;
    [exact Hinv|].
  apply IH. now apply inv_next.
Qed.

(** Before any goroutine has entered the coalescer there is no flight. *)
Lemma inv_initial (g : Granter.t) (w : World) (ths : list Thread) :
  (forall j th, ths !! j = Some th ->
                leads (point th) = false /\ waits (point th) = false) ->
  oneFlightPerKey (initial g w ths).
Proof.
  intros Hths. unfold initial. split; [|split; [|split]]; cbn.
  - intros i j thi thj Hi _ Hl. destruct (Hths i thi Hi). congruence.
  - intros i th Hi Hl. destruct (Hths i th Hi). congruence.
  - intros key Hkey. now apply not_elem_of_empty in Hkey.
  - intros i th Hi Hw. destruct (Hths i th Hi). congruence.
Qed.

Lemma calls_lookup (key : string) (n j : nat) (th : Thread) :
  calls key n !! j = Some th -> th = mkThread key Called.
Proof. unfold calls. intros H. now apply lookup_replicate in H as [-> _]. Qed.

(** Whether a goroutine that missed the cache fetches or waits is
    decided by the goroutines with the same key alone. *)
Lemma lead_or_wait (c : Config) (i : nat) (key : string) :
  oneFlightPerKey c ->
  threads c !! i = Some (mkThread key Missed) ->
  ((forall j th, threads c !! j = Some th -> leads (point th) = true ->
                 resource th <> key) ->
   threads (step c i) !! i = Some (mkThread key Leading))
  /\ ((exists j th, threads c !! j = Some th /\ leads (point th) = true
                    /\ resource th = key) ->
      threads (step c i) !! i = Some (mkThread key Waiting)).
Proof.
  intros (_ & Hin & Hled & _) Hi.
  pose proof (lookup_lt_Some _ _ _ Hi) as Hlen.
  unfold Concurrent.step. rewrite Hi. cbn [resource point].
  split.
  - intros Hnone. destruct (decide (key ∈ flights c)) as [Hkey|Hkey].
    + destruct (Hled key Hkey) as (j & th & Hj & Hl & Hr).
      now destruct (Hnone j th Hj Hl).
    + destruct (emit _ _) as [[] s]. cbn [threads].
      now apply list_lookup_insert_eq.
  - intros (j & th & Hj & Hl & Hr).
    destruct (decide (key ∈ flights c)) as [Hkey|Hkey].
    + cbn [move threads]. now apply list_lookup_insert_eq.
    + exfalso. apply Hkey. rewrite <- Hr. now apply (Hin j).
Qed.

End Schedules.

(** ** Goroutines: a flight that all have joined *)

Section AllJoined.

Import Concurrent.

Variable defaultHTTPClient : Client.
Variable jsonMarshal : gmap string string -> string.
Variable jsonDecode : string -> result Granter.accessTokenResponse.

Abbreviation step := (step defaultHTTPClient jsonMarshal jsonDecode).
Abbreviation next := (next defaultHTTPClient jsonMarshal jsonDecode).
Abbreviation exec := (exec defaultHTTPClient jsonMarshal jsonDecode).
Abbreviation request := (request defaultHTTPClient jsonMarshal).
Abbreviation receive := (receive jsonDecode).
Abbreviation flightPhase := (flightPhase jsonMarshal).

(** Reading the response sends nothing. *)
Lemma receive_sent (key : string) (r : result Response) (s : Store Granter.t) :
  requests (trace (world (snd (receive key r s))))
  = requests (trace (world s)).
Proof.
  unfold Concurrent.receive. destruct r as [resp|err]; [|reflexivity].
  destruct ((StatusCode resp <? 200) || (StatusCode resp >=? 400));
    [reflexivity|].
  destruct (jsonDecode (Body resp)) as [atr|err]; [|reflexivity].
  unfold Unix.
  pose proof (writeToken_run (self s) (world s) key (Granter.AccessToken atr)
                (Int64.add (Int64.wrap (clock (world s)))
                   (Granter.ExpiresIn atr))) as Hw.
  unfold run in Hw. destruct s as [g w]. cbn [self world] in *.
  rewrite Hw. cbn [snd world]. unfold logged. cbn [trace].
  rewrite requests_app. cbn. apply app_nil_r.
Qed.

(** With its configuration in place the producer sends its request. *)
Lemma request_sent (key : string) (s : Store Granter.t) :
  Granter.configured (self s) ->
  exists r s',
    request key s = (Responded r, s')
    /\ requests (trace (world s'))
       = requests (trace (world s))
         ++ [Granter.tokenRequest jsonMarshal (self s) key].
Proof.
  intros (Hid & Hsecret & Htenant). unfold Concurrent.request.
  rewrite (eqb_empty_false _ Hid), (eqb_empty_false _ Hsecret),
    (eqb_empty_false _ Htenant). cbn [orb].
  unfold Do. eexists _, _. split; [reflexivity|].
  cbn [world trace]. now rewrite requests_app.
Qed.

(** Who waits stays where it is. *)
Lemma step_waiting (c : Config) (key : string) (leader i : nat) (p : pc) :
  joined key leader p c -> i <> leader -> step c i = c.
Proof.
  intros (_ & Hothers) Hne. unfold Concurrent.step.
  destruct (threads c !! i) as [th|] eqn:Hi; [|reflexivity].
  now rewrite (Hothers i th Hi Hne).
Qed.

Lemma joined_moved (c : Config) (key : string) (leader : nat) (p p' : pc)
    (s : Store Granter.t) :
  joined key leader p c -> joined key leader p' (move c leader key s p').
Proof.
  intros (Hleader & Hothers). split; cbn [move threads].
  - apply list_lookup_insert_eq. now apply lookup_lt_Some in Hleader.
  - intros j th Hj Hne. rewrite list_lookup_insert_ne in Hj by congruence.
    now apply (Hothers j).
Qed.

Lemma step_done (c : Config) (r : result string) (i : nat) :
  returned r c -> step c i = c.
Proof.
  intros Hret. unfold Concurrent.step.
  destruct (threads c !! i) as [th|] eqn:Hi; [|reflexivity].
  now rewrite (Hret i th Hi).
Qed.

(** The phases of the flight follow one another under every step. *)
Lemma phase_next (key : string) (leader : nat) (before : list Request)
    (req : Request) (c : Config) (l : Label) :
  flightPhase key leader before req c ->
  flightPhase key leader before req (next c l).
Proof.
  intros Hphase. destruct l as [i|seconds]; [|exact Hphase].
  cbn [Concurrent.next].
  destruct Hphase as [(Hj & Hsent & Hconf & Hreq)
                     |[(r & Hj & Hsent)|[(r & Hj & Hsent)|(r & Hret & Hsent)]]].
  - destruct (decide (i = leader)) as [->|Hne].
    + right; left. unfold Concurrent.step.
      rewrite (proj1 Hj). cbn [resource point].
      destruct (request_sent key (store c) Hconf) as (r & s' & Hr & Hs).
      rewrite Hr. exists r. split; [now apply (joined_moved c key leader Leading)|].
      unfold sent in *. cbn [move store]. now rewrite Hs, Hsent, Hreq.
    + left. now rewrite (step_waiting c key leader i Leading).
  - destruct (decide (i = leader)) as [->|Hne].
    + right; right; left. unfold Concurrent.step.
      rewrite (proj1 Hj). cbn [resource point].
      pose proof (receive_sent key r (store c)) as Hs.
      destruct (receive key r (store c)) as [r' s]. exists r'.
      split; [now apply (joined_moved c key leader (Responded r))|].
      unfold sent in *. cbn [move store snd] in *. now rewrite Hs.
    + right; left. exists r.
      now rewrite (step_waiting c key leader i (Responded r)).
  - destruct (decide (i = leader)) as [->|Hne].
    + right; right; right. unfold Concurrent.step.
      rewrite (proj1 Hj). cbn [resource point]. exists r.
      split; [|exact Hsent]. intros j th Hth. cbn [threads] in Hth.
      apply list_lookup_insert_Some in Hth as [(_ & <- & _)|(Hne & Hth)];
        [reflexivity|].
      rewrite list_lookup_fmap in Hth.
      destruct (threads c !! j) as [o|] eqn:Ho; [|discriminate].
      injection Hth as <-.
      rewrite (proj2 Hj j o Ho) by congruence.
      now rewrite deliver_waiting.
    + right; right; left. exists r.
      now rewrite (step_waiting c key leader i (Returning r)).
  - right; right; right. exists r. now rewrite (step_done c r).
Qed.

Lemma phase_exec (key : string) (leader : nat) (before : list Request)
    (req : Request) (schedule : list Label) (c : Config) :
  flightPhase key leader before req c ->
  flightPhase key leader before req (exec c schedule).
Proof.
  revert c. induction schedule as [|l schedule IH]; intros c Hphase;
    [exact Hphase|].
  apply IH. now apply phase_next.
Qed.

(** Under every schedule, a flight that all goroutines have joined
    sends one request at most, and once all have returned it has sent
    exactly one and all have the same outcome. *)
Lemma joined_flight (c : Config) (key : string) (leader : nat)
    (schedule : list Label) :
  joined key leader Leading c ->
  Granter.configured (self (store c)) ->
  let req := Granter.tokenRequest jsonMarshal (self (store c)) key in
  let c' := exec c schedule in
  (sent c' = sent c \/ sent c' = sent c ++ [req])
  /\ (finished c' ->
      exists r, returned r c' /\ sent c' = sent c ++ [req]).
Proof.
  intros Hj Hconf req c'.
  assert (flightPhase key leader (sent c) req c') as Hphase.
  { apply phase_exec. left.
    split; [exact Hj|]. split; [reflexivity|].
    split; [exact Hconf | reflexivity]. }
  destruct Hphase as [(Hj' & Hsent & _)
                     |[(r & Hj' & Hsent)|[(r & Hj' & Hsent)|(r & Hret & Hsent)]]].
  - split; [now left|]. intros Hfin.
    destruct (Hfin leader _ (proj1 Hj')) as (r & Hr). discriminate.
  - split; [now right|]. intros Hfin.
    destruct (Hfin leader _ (proj1 Hj')) as (r' & Hr). discriminate.
  - split; [now right|]. intros Hfin.
    destruct (Hfin leader _ (proj1 Hj')) as (r' & Hr). discriminate.
  - split; [now right|]. intros _. now exists r.
Qed.

(** The steps of the leader are the steps of the flight. *)
Lemma flightAt_next (key : string) (leader : nat) (before : list Request)
    (req : Request) (n : nat) (c : Config) (l : Label) :
  flightAt jsonMarshal key leader before req n c ->
  flightAt jsonMarshal key leader before req (n + runs leader [l]) (next c l).
Proof.
  intros Hat. destruct l as [i|seconds].
  2:{ cbn [runs]. rewrite Nat.add_0_r.
      destruct n as [|[|[|n]]]; exact Hat. }
  cbn [runs Concurrent.next]. rewrite Nat.add_0_r.
  destruct (decide (leader = i)) as [<-|Hne].
  - rewrite Nat.add_1_r. destruct n as [|[|[|n]]]; cbn [flightAt] in *.
    + destruct Hat as (Hj & Hsent & Hconf & Hreq).
      unfold Concurrent.step. rewrite (proj1 Hj). cbn [resource point].
      destruct (request_sent key (store c) Hconf) as (r & s' & Hr & Hs).
      rewrite Hr. exists r.
      split; [now apply (joined_moved c key leader Leading)|].
      unfold sent in *. cbn [move store]. now rewrite Hs, Hsent, Hreq.
    + destruct Hat as (r & Hj & Hsent).
      unfold Concurrent.step. rewrite (proj1 Hj). cbn [resource point].
      pose proof (receive_sent key r (store c)) as Hs.
      destruct (receive key r (store c)) as [r' s]. exists r'.
      split; [now apply (joined_moved c key leader (Responded r))|].
      unfold sent in *. cbn [move store snd] in *. now rewrite Hs.
    + destruct Hat as (r & Hj & Hsent).
      unfold Concurrent.step. rewrite (proj1 Hj). cbn [resource point].
      exists r. split; [|exact Hsent]. intros j th Hth. cbn [threads] in Hth.
      apply list_lookup_insert_Some in Hth as [(_ & <- & _)|(Hne & Hth)];
        [reflexivity|].
      rewrite list_lookup_fmap in Hth.
      destruct (threads c !! j) as [o|] eqn:Ho; [|discriminate].
      injection Hth as <-.
      rewrite (proj2 Hj j o Ho) by congruence.
      now rewrite deliver_waiting.
    + destruct Hat as (r & Hret & Hsent). exists r.
      now rewrite (step_done c r).
  - rewrite Nat.add_0_r. destruct n as [|[|[|n]]]; cbn [flightAt] in *.
    + destruct Hat as (Hj & Hrest).
      now rewrite (step_waiting c key leader i Leading).
    + destruct Hat as (r & Hj & Hsent). exists r.
      now rewrite (step_waiting c key leader i (Responded r)).
    + destruct Hat as (r & Hj & Hsent). exists r.
      now rewrite (step_waiting c key leader i (Returning r)).
    + destruct Hat as (r & Hret & Hsent). exists r.
      now rewrite (step_done c r).
Qed.

Lemma flightAt_exec (key : string) (leader : nat) (before : list Request)
    (req : Request) (schedule : list Label) (n : nat) (c : Config) :
  flightAt jsonMarshal key leader before req n c ->
  flightAt jsonMarshal key leader before req (n + runs leader schedule)
    (exec c schedule).
Proof.
  revert n c. induction schedule as [|l schedule IH]; intros n c Hat.
  - cbn [runs]. now rewrite Nat.add_0_r.
  - replace (n + runs leader (l :: schedule))%nat
      with ((n + runs leader [l]) + runs leader schedule)%nat.
    + apply IH. now apply flightAt_next.
    + destruct l as [i|seconds]; cbn [runs]; lia.
Qed.

(** A flight that all goroutines have joined is over as soon as the
    schedule has given its leader three steps, and not before: then,
    and only then, every goroutine has returned, all with the same
    outcome, and one request has been sent. *)
Lemma joined_flight_ends (c : Config) (key : string) (leader : nat)
    (schedule : list Label) :
  joined key leader Leading c ->
  Granter.configured (self (store c)) ->
  let req := Granter.tokenRequest jsonMarshal (self (store c)) key in
  let c' := exec c schedule in
  ((3 <= runs leader schedule)%nat ->
   exists r, returned r c' /\ sent c' = sent c ++ [req])
  /\ (finished c' -> (3 <= runs leader schedule)%nat).
Proof.
  intros Hj Hconf req c'.
  assert (flightAt jsonMarshal key leader (sent c) req
            (0 + runs leader schedule) c') as Hat.
  { apply flightAt_exec. cbn [flightAt].
    split; [exact Hj|]. split; [reflexivity|].
    split; [exact Hconf | reflexivity]. }
  cbn [Nat.add] in Hat. split.
  - intros Hruns.
    destruct (runs leader schedule) as [|[|[|n]]]; try lia. exact Hat.
  - intros Hfin.
    destruct (runs leader schedule) as [|[|[|n]]]; cbn [flightAt] in Hat;
      try lia.
    + destruct Hat as (Hj' & _).
      destruct (Hfin leader _ (proj1 Hj')) as (r & Hr). discriminate.
    + destruct Hat as (r & Hj' & _).
      destruct (Hfin leader _ (proj1 Hj')) as (r' & Hr). discriminate.
    + destruct Hat as (r & Hj' & _).
      destruct (Hfin leader _ (proj1 Hj')) as (r' & Hr). discriminate.
Qed.

End AllJoined.

(** ** Goroutines: from the calls to the flight *)

Section Entering.

Import Concurrent.

Variable defaultHTTPClient : Client.
Variable jsonMarshal : gmap string string -> string.
Variable jsonDecode : string -> result Granter.accessTokenResponse.

Abbreviation step := (step defaultHTTPClient jsonMarshal jsonDecode).
Abbreviation next := (next defaultHTTPClient jsonMarshal jsonDecode).
Abbreviation exec := (exec defaultHTTPClient jsonMarshal jsonDecode).

Lemma exec_app (c : Config) (first rest : list Label) :
  exec c (first ++ rest) = exec (exec c first) rest.
Proof. apply fold_left_app. Qed.

Lemma step_length (c : Config) (i : nat) :
  length (threads (step c i)) = length (threads c).
Proof.
  unfold Concurrent.step.
  destruct (threads c !! i) as [th|]; [|reflexivity].
  destruct (point th); try reflexivity.
  - destruct (String.eqb (resource th) "");
      [cbn [move threads]; apply length_insert|].
    destruct (Granter.readToken _ _) as [[token ok] s].
    cbn [move threads]. apply length_insert.
  - destruct (decide (resource th ∈ flights c));
      [cbn [move threads]; apply length_insert|].
    destruct (emit _ _) as [[] s]. cbn [threads]. apply length_insert.
  - destruct (Concurrent.request _ _ _ _) as [p s].
    cbn [move threads]. apply length_insert.
  - destruct (Concurrent.receive _ _ _ _) as [r' s].
    cbn [move threads]. apply length_insert.
  - cbn [threads]. now rewrite length_insert, length_fmap.
Qed.

Lemma exec_length (schedule : list Label) (c : Config) :
  length (threads (exec c schedule)) = length (threads c).
Proof.
  revert c. induction schedule as [|l schedule IH]; intros c; [reflexivity|].
  cbn [Concurrent.exec fold_left]. fold (exec (next c l) schedule).
  rewrite IH. destruct l as [i|seconds]; [apply step_length | reflexivity].
Qed.

Lemma replicate_app_cons {A} (k : nat) (a : A) (l : list A) :
  replicate k a ++ a :: l = replicate (S k) a ++ l.
Proof. induction k as [|k IH]; cbn; [reflexivity|]. now rewrite IH. Qed.

Lemma entering_lookup (before : list Thread) (k m : nat) (a b : Thread) :
  (before ++ replicate k a ++ replicate (S m) b) !! (length before + k)%nat
  = Some b.
Proof.
  rewrite lookup_app_r by lia.
  replace (length before + k - length before)%nat with k by lia.
  rewrite lookup_app_r by (rewrite length_replicate; lia).
  rewrite length_replicate. now replace (k - k)%nat with 0%nat by lia.
Qed.

Lemma entering_insert (before : list Thread) (k m : nat) (a b : Thread) :
  <[(length before + k)%nat := a]>
    (before ++ replicate k a ++ replicate (S m) b)
  = before ++ replicate (S k) a ++ replicate m b.
Proof.
  rewrite insert_app_r_alt by lia.
  replace (length before + k - length before)%nat with k by lia.
  rewrite insert_app_r_alt by (rewrite length_replicate; lia).
  rewrite length_replicate. replace (k - k)%nat with 0%nat by lia.
  cbn [replicate insert list_insert]. now rewrite replicate_app_cons.
Qed.

Lemma miss_same_clock (g : Granter.t) (w w' : World) (key : string) :
  clock w' = clock w -> Granter.miss g w key -> Granter.miss g w' key.
Proof.
  unfold Granter.miss. rewrite !readToken_run. unfold unix.
  now intros ->.
Qed.

Variable g : Granter.t.
Variable w : World.
Variable key : string.
Hypothesis Hkey : key <> "".
Hypothesis Hmiss : Granter.miss g w key.

(** Each goroutine reads the cache and finds nothing. *)
Lemma read_all (m k : nat) (c : Config) :
  entering g w ∅ [] k m key Missed Called c ->
  entering g w ∅ [] (k + m) 0 key Missed Called
    (exec c (map Run (seq k m))).
Proof.
  revert k c. induction m as [|m IH]; intros k c Hc.
  - cbn. now rewrite Nat.add_0_r.
  - cbn [seq map Concurrent.exec fold_left Concurrent.next].
    fold (exec (step c k) (map Run (seq (S k) m))).
    replace (k + S m)%nat with (S k + m)%nat by lia. apply IH.
    destruct Hc as (Hfl & Hself & Hclock & Hsent & Hths).
    unfold Concurrent.step.
    pose proof (entering_lookup [] k m (mkThread key Missed)
                  (mkThread key Called)) as Hk.
    cbn [length Nat.add app] in Hk. rewrite Hths. cbn [app]. rewrite Hk.
    cbn [resource point]. rewrite (eqb_empty_false _ Hkey).
    destruct (store c) as [g' w'] eqn:Hstore. cbn [self world] in *. subst g'.
    pose proof (readToken_run g w' key) as Hrun. unfold run in Hrun.
    rewrite Hrun.
    pose proof (miss_same_clock g w w' key Hclock Hmiss) as Hmiss'.
    unfold Granter.miss in Hmiss'. rewrite readToken_run in Hmiss'.
    cbn [fst snd] in Hmiss'.
    destruct (match Granter.cache g with
              | Some c0 =>
                  match c0 !! key with
                  | Some tc =>
                      if Granter.expiration tc >=? unix w'
                      then (Granter.jwt tc, true) else ("", false)
                  | None => ("", false)
                  end
              | None => ("", false)
              end) as [token ok].
    cbn [snd] in Hmiss'. subst ok.
    split; [exact Hfl|]. split; [reflexivity|]. split; [exact Hclock|].
    split.
    + unfold sent in *. cbn [move store world logged trace].
      rewrite Hstore in Hsent. cbn [world] in Hsent.
      rewrite requests_app. cbn. now rewrite app_nil_r.
    + cbn [move threads]. rewrite Hths. cbn [app].
      pose proof (entering_insert [] k m (mkThread key Missed)
                    (mkThread key Called)) as Hins.
      cbn [length Nat.add app] in Hins. exact Hins.
Qed.

(** Behind a leader each goroutine that missed the cache waits. *)
Lemma wait_all (m k : nat) (c : Config) :
  entering g w {[key]} [mkThread key Leading] k m key Waiting Missed c ->
  entering g w {[key]} [mkThread key Leading] (k + m) 0 key Waiting Missed
    (exec c (map Run (seq (S k) m))).
Proof.
  revert k c. induction m as [|m IH]; intros k c Hc.
  - cbn. now rewrite Nat.add_0_r.
  - cbn [seq map Concurrent.exec fold_left Concurrent.next].
    fold (exec (step c (S k)) (map Run (seq (S (S k)) m))).
    replace (k + S m)%nat with (S k + m)%nat by lia. apply IH.
    destruct Hc as (Hfl & Hself & Hclock & Hsent & Hths).
    unfold Concurrent.step.
    pose proof (entering_lookup [mkThread key Leading] k m
                  (mkThread key Waiting) (mkThread key Missed)) as Hk.
    cbn [length Nat.add] in Hk. rewrite Hths, Hk.
    cbn [resource point]. rewrite Hfl.
    destruct (decide (key ∈ ({[key]} : gset string))) as [_|Hout];
      [|exfalso; apply Hout; now apply elem_of_singleton].
    split; [exact Hfl|]. split; [exact Hself|]. split; [exact Hclock|].
    split; [exact Hsent|].
    cbn [move threads]. rewrite Hths.
    pose proof (entering_insert [mkThread key Leading] k m
                  (mkThread key Waiting) (mkThread key Missed)) as Hins.
    cbn [length Nat.add] in Hins. exact Hins.
Qed.

(** After the schedule [enter] the first goroutine leads and the others
    wait for it, with nothing sent yet. *)
Lemma entered (n : nat) :
  let c := exec (initial g w (calls key (S n))) (enter (S n)) in
  joined key 0 Leading c
  /\ self (store c) = g
  /\ sent c = requests (trace w).
Proof.
  intros c. subst c. unfold enter. rewrite exec_app.
  pose proof (read_all (S n) 0 (initial g w (calls key (S n)))) as Hread.
  cbn [Nat.add] in Hread.
  set (c1 := exec (initial g w (calls key (S n))) (map Run (seq 0 (S n))))
    in *.
  destruct Hread as (Hfl & Hself & Hclock & Hsent & Hths).
  { unfold initial, calls. repeat split. }
  clearbody c1. cbn [app replicate] in Hths. rewrite app_nil_r in Hths.
  cbn [seq map Concurrent.exec fold_left Concurrent.next].
  fold (exec (step c1 0) (map Run (seq 1 n))).
  pose proof (wait_all n 0 (step c1 0)) as Hwait.
  cbn [Nat.add] in Hwait.
  destruct Hwait as (Hfl2 & Hself2 & Hclock2 & Hsent2 & Hths2).
  { unfold Concurrent.step. rewrite Hths. cbn [replicate lookup list_lookup].
    cbn [resource point]. rewrite Hfl.
    destruct (decide (key ∈ (∅ : gset string))) as [Hin|_];
      [now apply not_elem_of_empty in Hin|].
    unfold emit. split; [cbn [flights]; apply union_empty_r_L|].
    split; [exact Hself|]. split; [exact Hclock|]. split.
    - unfold sent in *. cbn [store world trace].
      rewrite requests_app. cbn. now rewrite app_nil_r.
    - reflexivity. }
  split; [|split; [exact Hself2 | exact Hsent2]].
  rewrite app_nil_r in Hths2. split.
  - rewrite Hths2. reflexivity.
  - intros j th Hj Hne. rewrite Hths2 in Hj.
    destruct j as [|j]; [congruence|]. cbn in Hj.
    now apply lookup_replicate in Hj as [-> _].
Qed.

End Entering.




(** When the second goroutine enters the coalescer while the first is
    fetching, one request is sent and both receive its token. *)
Example joiner_shares :
  let c :=
    Concurrent.exec (Fixture.respond 500 "" 0) Fixture.jsonMarshal
      Fixture.decodeToken
      (Concurrent.initial Fixture.racing Fixture.start
         (Concurrent.calls Fixture.svcB 2))
      Fixture.joiner in
  Concurrent.threads c
  = [Concurrent.mkThread Fixture.svcB (Concurrent.Done (Ok "tok1"));
     Concurrent.mkThread Fixture.svcB (Concurrent.Done (Ok "tok1"))]
  /\ length (Concurrent.sent c) = 1%nat.
Proof. split; vm_compute; reflexivity. Qed.

(** A token without a key id in its header is refused after the
    audience and the issuer were accepted, and nothing is looked up. *)
Example VerifyToken_without_kid :
  run (Verifier.VerifyToken (Fixture.respond 200 "" 0) Fixture.decodeKeys
         Fixture.parsePEM
         (Fixture.parseWithoutKid [Fixture.svcB] Fixture.goodIssuer)
         Fixture.accept "key-1")
      (Fixture.verifier 200) Fixture.start
  = (Err (ValidationError Verifier.kidError jwt.ValidationErrorUnverifiable),
     mkStore (Fixture.verifier 200) Fixture.start).
Proof. vm_compute. reflexivity. Qed.

(** ** Resetting the caches *)

(** After [ResetCache] the next read of the token cache finds nothing,
    whatever the cache held. *)
Lemma Granter_reset_then_miss (g : Granter.t) (w w' : World)
    (resource : string) :
  let g' := self (snd (run Granter.ResetCache g w)) in
  Granter.cache g' = None /\ Granter.miss g' w' resource.
Proof.
  split; [reflexivity|]. unfold Granter.miss. now rewrite readToken_run.
Qed.

(** The same for the key cache. *)
Lemma Verifier_reset_then_miss (v : Verifier.t) (w w' : World) (kid : string) :
  let v' := self (snd (run Verifier.ResetCache v w)) in
  Verifier.cache v' = None /\ Verifier.miss v' w' kid.
Proof.
  split; [reflexivity|]. unfold Verifier.miss. now rewrite readPublicKey_run.
Qed.

(** * Further properties of the package *)

(** ** The token cache as a store with expiry *)

Lemma tokenEntry_read (g : Granter.t) (w : World) (resource : string) :
  fst (run (Granter.readToken resource) g w)
  = match tokenEntry g resource with
    | Some tc =>
        if Granter.expiration tc >=? unix w then (Granter.jwt tc, true)
        else ("", false)
    | None => ("", false)
    end.
Proof.
  rewrite readToken_run. unfold tokenEntry. cbn [fst].
  destruct (Granter.cache g) as [c|]; reflexivity.
Qed.

Lemma tokenEntry_written (g : Granter.t) (w : World)
    (resource token other : string) (exp : Z) :
  tokenEntry (self (snd (run (Granter.writeToken resource token exp) g w)))
    other
  = if decide (resource = other) then
      Some (Granter.mkCachedToken token
              (Int64.sub exp (Granter.ExpirationMargin g)))
    else tokenEntry g other.
Proof.
  rewrite writeToken_run. unfold tokenEntry. cbn.
  rewrite lookup_insert. destruct (decide (resource = other)); [reflexivity|].
  destruct (Granter.cache g); [reflexivity | apply lookup_empty].
Qed.

(** X1. A token written for a resource with expiration [exp] is what
    the next read of that resource returns, at every instant up to and
    including [exp - ExpirationMargin] (in 64-bit arithmetic), and is
    not returned after it; the write replaces whatever was cached for
    the resource. *)
Theorem X1_writeToken_then_readToken (g : Granter.t) (w w' : World)
    (resource token : string) (exp : Z) :
  let g' := self (snd (run (Granter.writeToken resource token exp) g w)) in
  let stored := Int64.sub exp (Granter.ExpirationMargin g) in
  fst (run (Granter.readToken resource) g' w')
  = (if stored >=? unix w' then (token, true) else ("", false))
  /\ sameSettings g g'.
Proof.
  intros g' stored. split.
  - rewrite tokenEntry_read. subst g'. rewrite tokenEntry_written.
    now destruct (decide (resource = resource)).
  - subst g'. rewrite writeToken_run. now repeat split.
Qed.

(** X2. Writing a token for one resource changes nothing for another:
    a read of the other resource answers as it did before the write,
    also when the write is the one that creates the map. *)
Theorem X2_writeToken_other_resource (g : Granter.t) (w w' : World)
    (resource token other : string) (exp : Z) :
  other <> resource ->
  let g' := self (snd (run (Granter.writeToken resource token exp) g w)) in
  fst (run (Granter.readToken other) g' w')
  = fst (run (Granter.readToken other) g w').
Proof.
  intros Hne g'. rewrite !tokenEntry_read. subst g'.
  rewrite tokenEntry_written.
  destruct (decide (resource = other)); [congruence | reflexivity].
Qed.

Lemma X2_writeToken_other_resource_witness :
  fst (run (Granter.readToken Fixture.svcB)
         (self (snd (run (Granter.writeToken "https://svc-c" "tok9" 5000)
                       (Fixture.holding 2000) Fixture.start)))
         Fixture.start)
  = ("tok1", true).
Proof.
  rewrite (X2_writeToken_other_resource (Fixture.holding 2000) Fixture.start
             Fixture.start "https://svc-c" "tok9" Fixture.svcB 5000).
  - vm_compute. reflexivity.
  - discriminate.
Defined.

(** ** Every way through GetToken *)

Section GetTokenOutcomes.

Variable defaultHTTPClient : Client.
Variable jsonMarshal : gmap string string -> string.
Variable jsonDecode : string -> result Granter.accessTokenResponse.

Abbreviation GetToken :=
  (Granter.GetToken defaultHTTPClient jsonMarshal jsonDecode).
Abbreviation fetchToken :=
  (Granter.fetchToken defaultHTTPClient jsonMarshal jsonDecode).
Abbreviation answer := (Granter.answer defaultHTTPClient jsonMarshal).
Abbreviation tokenRequest := (Granter.tokenRequest jsonMarshal).

(** Without its configuration the producer returns before it sends
    anything. *)
Lemma fetchToken_unconfigured (g : Granter.t) (w : World) (resource : string) :
  ~ Granter.configured g ->
  run (fetchToken resource) g w
  = (Err (errors.New
            (if String.eqb (Granter.ClientID g) ""
                || String.eqb (Granter.ClientSecret g) ""
             then "ClientID and ClientSecret cannot be empty"
             else "TenantURL cannot be empty")),
     mkStore g w).
Proof.
  intros Hnot. unfold Granter.fetchToken. unfold_M.
  destruct (String.eqb (Granter.ClientID g) "") eqn:Hid; [reflexivity|].
  destruct (String.eqb (Granter.ClientSecret g) "") eqn:Hsecret;
    [reflexivity|].
  destruct (String.eqb (Granter.TenantURL g) "") eqn:Htenant; [reflexivity|].
  exfalso. apply Hnot. apply String.eqb_neq in Hid, Hsecret, Htenant.
  now repeat split.
Qed.

Lemma configured_dec (g : Granter.t) :
  Granter.configured g \/ ~ Granter.configured g.
Proof.
  unfold Granter.configured.
  destruct (decide (Granter.ClientID g = "")); [right; tauto|].
  destruct (decide (Granter.ClientSecret g = "")); [right; tauto|].
  destruct (decide (Granter.TenantURL g = "")); [right; tauto|].
  left. tauto.
Qed.

(** The world after the round trip of a call started in [w]. *)
Lemma GetToken_outcomes (g : Granter.t) (w : World) (resource : string) :
  let x := answer g w resource in
  let w1 := mkWorld (clock w + latency x)
              (trace (atFetch w resource)
               ++ [RoundTrip (tokenRequest g resource)]) in
  (resource = "" /\
   run (GetToken resource) g w
   = (Err (errors.New "resource cannot be empty"), mkStore g w))
  \/ (exists tc,
         resource <> "" /\ tokenEntry g resource = Some tc /\
         unix w <= Granter.expiration tc /\
         run (GetToken resource) g w
         = (Ok (Granter.jwt tc), mkStore g (logged w [CacheRead resource])))
  \/ (exists e,
         resource <> "" /\ Granter.miss g w resource /\
         ~ Granter.configured g /\
         run (GetToken resource) g w
         = (Err e, mkStore g (atFetch w resource)))
  \/ (exists e,
         resource <> "" /\ Granter.miss g w resource /\
         Granter.configured g /\
         run (GetToken resource) g w = (Err e, mkStore g w1))
  \/ (exists resp atr,
         resource <> "" /\ Granter.miss g w resource /\
         Granter.configured g /\
         outcome x = Ok resp /\ 200 <= StatusCode resp < 400 /\
         jsonDecode (Body resp) = Ok atr /\
         run (GetToken resource) g w
         = (Ok (Granter.AccessToken atr),
            mkStore
              (Granter.withCache g
                 (Some (<[resource :=
                            Granter.mkCachedToken (Granter.AccessToken atr)
                              (Int64.sub
                                 (Int64.add (unix w1) (Granter.ExpiresIn atr))
                                 (Granter.ExpirationMargin g))]>
                          (default ∅ (Granter.cache g)))))
              (logged w1 [CacheWrite resource]))).
Proof.
  intros x w1.
  destruct (decide (resource = "")) as [->|Hres]; [left; now split|].
  right.
  destruct (fst (run (Granter.readToken resource) g w)) as [token ok] eqn:Hread.
  destruct ok.
  - left. destruct (readToken_found g w resource token Hread)
      as (c & tc & Hc & Hentry & <- & Hfresh).
    exists tc. repeat split; try assumption.
    + unfold tokenEntry. now rewrite Hc.
    + now apply (GetToken_hit _ _ _ g w resource c tc).
  - right.
    assert (Granter.miss g w resource) as Hmiss
      by (unfold Granter.miss; now rewrite Hread).
    rewrite (GetToken_miss _ _ _ g w resource Hres Hmiss).
    destruct (configured_dec g) as [Hconf|Hnot].
    + right.
      rewrite (fetchToken_run _ _ _ g (atFetch w resource) resource Hconf).
      fold (answer g w resource). fold x.
      change (mkWorld (clock (atFetch w resource) + latency x)
                (trace (atFetch w resource)
                 ++ [RoundTrip (tokenRequest g resource)])) with w1.
      destruct (outcome x) as [resp|err] eqn:Hout;
        [|left; eexists; split; [exact Hres|]; split; [exact Hmiss|];
          split; [exact Hconf | reflexivity]].
      destruct ((StatusCode resp <? 200) || (StatusCode resp >=? 400))
        eqn:Hstatus;
        [left; eexists; split; [exact Hres|]; split; [exact Hmiss|];
         split; [exact Hconf | reflexivity]|].
      destruct (jsonDecode (Body resp)) as [atr|err] eqn:Hdecode;
        [|left; eexists; split; [exact Hres|]; split; [exact Hmiss|];
          split; [exact Hconf | reflexivity]].
      right. exists resp, atr. apply orb_false_iff in Hstatus as [H1 H2].
      split; [exact Hres|]. split; [exact Hmiss|]. split; [exact Hconf|].
      split; [reflexivity|]. split; [lia|]. split; [exact Hdecode|].
      reflexivity.
    + left. rewrite (fetchToken_unconfigured g _ resource Hnot).
      eexists. split; [exact Hres|]. split; [exact Hmiss|].
      split; [exact Hnot | reflexivity].
Qed.

End GetTokenOutcomes.

Section GetTokenProperties.

Variable defaultHTTPClient : Client.
Variable jsonMarshal : gmap string string -> string.
Variable jsonDecode : string -> result Granter.accessTokenResponse.

Abbreviation GetToken :=
  (Granter.GetToken defaultHTTPClient jsonMarshal jsonDecode).
Abbreviation tokenRequest := (Granter.tokenRequest jsonMarshal).

Lemma sentBetween_logged (w : World) (es : list Event) (reqs : list Request) :
  requests es = reqs -> sentBetween w (logged w es) reqs.
Proof.
  intros <-. unfold sentBetween, logged. cbn [trace]. apply requests_app.
Qed.

(** What [GetToken] leaves of the granter and sends, in every case. *)
Lemma GetToken_effects (g : Granter.t) (w : World) (resource : string) :
  let r := fst (run (GetToken resource) g w) in
  let s := snd (run (GetToken resource) g w) in
  sameSettings g (self s)
  /\ (forall other, other <> resource ->
                    tokenEntry (self s) other = tokenEntry g other)
  /\ (forall e, r = Err e -> Granter.cache (self s) = Granter.cache g)
  /\ (forall token,
         r = Ok token ->
         exists tc, tokenEntry (self s) resource = Some tc
                    /\ Granter.jwt tc = token)
  /\ ((sentBetween w (world s) [] /\
       (forall token, r = Ok token ->
                      Granter.cache (self s) = Granter.cache g))
      \/ sentBetween w (world s) [tokenRequest g resource]).
Proof.
  intros r s. subst r s.
  destruct (GetToken_outcomes defaultHTTPClient jsonMarshal jsonDecode g w
              resource)
    as [(-> & ->)|[(tc & Hres & Hentry & Hfresh & ->)
       |[(e & Hres & Hmiss & Hnot & ->)|[(e & Hres & Hmiss & Hconf & ->)
       |(resp & atr & Hres & Hmiss & Hconf & Hout & Hstatus & Hdecode & ->)]]]];
    cbn [fst snd self world].
  - split; [now repeat split|]. split; [reflexivity|]. split; [reflexivity|].
    split; [discriminate|]. left. split; [|reflexivity].
    unfold sentBetween. now rewrite app_nil_r.
  - split; [now repeat split|]. split; [reflexivity|]. split; [reflexivity|].
    split; [intros token [= <-]; now exists tc|].
    left. split; [now apply sentBetween_logged | reflexivity].
  - split; [now repeat split|]. split; [reflexivity|]. split; [reflexivity|].
    split; [discriminate|]. left. split; [|discriminate].
    unfold atFetch. now apply sentBetween_logged.
  - split; [now repeat split|]. split; [reflexivity|]. split; [reflexivity|].
    split; [discriminate|]. right.
    unfold sentBetween. cbn [trace]. now rewrite requests_app, requests_atFetch.
  - split; [now repeat split|]. split.
    { intros other Hother. unfold tokenEntry. cbn.
      rewrite lookup_insert_ne by congruence.
      destruct (Granter.cache g); [reflexivity | apply lookup_empty]. }
    split; [discriminate|]. split.
    { intros token [= <-]. eexists.
      split; [unfold tokenEntry; cbn; apply lookup_insert_eq | reflexivity]. }
    right. unfold sentBetween, logged. cbn [trace].
    rewrite !requests_app, requests_atFetch. cbn. now rewrite app_nil_r.
Qed.

(** X3. On a cache miss a granter without ClientID or ClientSecret, or
    without TenantURL, fails with the error that names what is missing
    (the credentials first), sends no request and leaves the cache as
    it is: the cache was read and the coalescer entered, nothing
    else. *)
Theorem X3_GetToken_missing_configuration
    (g : Granter.t) (w : World) (resource : string) :
  resource <> "" ->
  Granter.miss g w resource ->
  ~ Granter.configured g ->
  exists e,
    run (GetToken resource) g w = (Err e, mkStore g (atFetch w resource))
    /\ Error e
       = (if String.eqb (Granter.ClientID g) ""
             || String.eqb (Granter.ClientSecret g) ""
          then "ClientID and ClientSecret cannot be empty"
          else "TenantURL cannot be empty")
    /\ requests (trace (atFetch w resource)) = requests (trace w).
Proof.
  intros Hres Hmiss Hnot.
  rewrite (GetToken_miss _ _ _ g w resource Hres Hmiss).
  rewrite (fetchToken_unconfigured _ _ _ g _ resource Hnot).
  eexists. split; [reflexivity|]. split; [reflexivity|].
  apply requests_atFetch.
Qed.

(** X4. Whatever happens, GetToken(resource) changes nothing of the
    granter but the cache entry of that resource: the settings and the
    entries of all other resources stay, a failed call leaves the whole
    cache as it was, and a call that returns a token leaves that token
    cached under the resource.  It sends the token request once or not
    at all. *)
Theorem X4_GetToken_touches_one_entry
    (g : Granter.t) (w : World) (resource : string) :
  let r := fst (run (GetToken resource) g w) in
  let s := snd (run (GetToken resource) g w) in
  sameSettings g (self s)
  /\ (forall other, other <> resource ->
                    tokenEntry (self s) other = tokenEntry g other)
  /\ (forall e, r = Err e -> Granter.cache (self s) = Granter.cache g)
  /\ (forall token,
         r = Ok token ->
         exists tc, tokenEntry (self s) resource = Some tc
                    /\ Granter.jwt tc = token)
  /\ (sentBetween w (world s) []
      \/ sentBetween w (world s) [tokenRequest g resource]).
Proof.
  intros r s.
  destruct (GetToken_effects g w resource) as (H1 & H2 & H3 & H4 & H5).
  repeat (split; [assumption|]).
  destruct H5 as [[H5 _]|H5]; [now left | now right].
Qed.

(** X5. No call of GetToken ever caches a token under the empty
    resource: a cache without an entry for the empty string has none
    after any call. *)
Theorem X5_empty_resource_never_cached
    (g : Granter.t) (w : World) (resource : string) :
  tokenEntry g "" = None ->
  tokenEntry (self (snd (run (GetToken resource) g w))) "" = None.
Proof.
  intros Hnone.
  destruct (GetToken_effects g w resource) as (_ & Hother & Herr & _).
  destruct (decide (resource = "")) as [->|Hres].
  - destruct (GetToken_outcomes defaultHTTPClient jsonMarshal jsonDecode g w
                "") as [(_ & ->)|[(tc & Hne & _)|[(e & Hne & _)
                       |[(e & Hne & _)|(resp & atr & Hne & _)]]]];
      try congruence.
    exact Hnone.
  - rewrite Hother by congruence. exact Hnone.
Qed.

(** X6. After ResetCache the next GetToken for a resource sends the
    token request, whatever the cache held before, be it a token for
    that resource that had not expired. *)
Theorem X6_ResetCache_then_GetToken
    (g : Granter.t) (w : World) (resource : string) :
  resource <> "" ->
  Granter.configured g ->
  let s := snd (run (_ ← Granter.ResetCache; GetToken resource) g w) in
  sentBetween w (world s) [tokenRequest g resource].
Proof.
  intros Hres Hconf s. subst s.
  set (g0 := Granter.withCache g None). set (w0 := logged w [CacheReset]).
  assert (snd (run (_ ← Granter.ResetCache; GetToken resource) g w)
          = snd (run (GetToken resource) g0 w0)) as -> by reflexivity.
  assert (Granter.miss g0 w0 resource) as Hmiss
    by (unfold Granter.miss; now rewrite readToken_run).
  assert (requests (trace w0) = requests (trace w)) as Hw0.
  { unfold w0, logged. cbn [trace]. rewrite requests_app. cbn.
    apply app_nil_r. }
  unfold sentBetween.
  destruct (GetToken_outcomes defaultHTTPClient jsonMarshal jsonDecode g0 w0
              resource)
    as [(-> & _)|[(tc & _ & Hentry & _)|[(e & _ & _ & Hnot & _)
       |[(e & _ & _ & _ & ->)
       |(resp & atr & _ & _ & _ & _ & _ & _ & ->)]]]];
    try congruence; try discriminate; try (now destruct Hnot).
  - cbn [snd world trace]. now rewrite requests_app, requests_atFetch, Hw0.
  - cbn [snd world trace logged].
    rewrite !requests_app, requests_atFetch, Hw0. cbn. now rewrite app_nil_r.
Qed.

End GetTokenProperties.

Lemma X3_GetToken_missing_configuration_witness :
  exists e,
    run (Granter.GetToken (Fixture.respond 200 "tok1" 0) Fixture.jsonMarshal
           Fixture.decodeToken Fixture.svcB)
        (Fixture.holding 500) Fixture.start
    = (Err e, mkStore (Fixture.holding 500) (atFetch Fixture.start Fixture.svcB))
    /\ Error e = "ClientID and ClientSecret cannot be empty".
Proof.
  destruct (X3_GetToken_missing_configuration (Fixture.respond 200 "tok1" 0)
              Fixture.jsonMarshal Fixture.decodeToken (Fixture.holding 500)
              Fixture.start Fixture.svcB) as (e & Hrun & Herror & _).
  - discriminate.
  - reflexivity.
  - intros (Hid & _). now apply Hid.
  - exists e. split; [exact Hrun | exact Herror].
Defined.

Lemma X5_empty_resource_never_cached_witness :
  tokenEntry
    (self (snd (run (Granter.GetToken (Fixture.respond 500 "" 0)
                       Fixture.jsonMarshal Fixture.decodeToken Fixture.svcB)
                  (Fixture.granter 200) Fixture.start)))
    "" = None.
Proof.
  apply (X5_empty_resource_never_cached (Fixture.respond 500 "" 0)
           Fixture.jsonMarshal Fixture.decodeToken (Fixture.granter 200)
           Fixture.start Fixture.svcB).
  reflexivity.
Defined.

Lemma X6_ResetCache_then_GetToken_witness :
  let g := Granter.withCache (Fixture.granter 200)
             (Granter.cache (Fixture.holding 2000)) in
  fst (run (Granter.readToken Fixture.svcB) g Fixture.start) = ("tok1", true)
  /\ sentBetween Fixture.start
       (world (snd (run (_ ← Granter.ResetCache;
                         Granter.GetToken (Fixture.respond 500 "" 0)
                           Fixture.jsonMarshal Fixture.decodeToken
                           Fixture.svcB)
                      g Fixture.start)))
       [Granter.tokenRequest Fixture.jsonMarshal g Fixture.svcB].
Proof.
  intros g. split; [vm_compute; reflexivity|].
  apply (X6_ResetCache_then_GetToken (Fixture.respond 500 "" 0)
           Fixture.jsonMarshal Fixture.decodeToken g Fixture.start
           Fixture.svcB).
  - discriminate.
  - repeat split; discriminate.
Defined.

(** ** Trailing slashes of the tenant URL *)

Lemma Repeat_in_cutset (c : ascii) (n : nat) (x : ascii) :
  In x (list_ascii_of_string (strings.Repeat c n)) -> x = c.
Proof.
  induction n as [|n IH]; simpl; [intros []|]. intros [<-|H]; auto.
Qed.

Lemma TrimRight_app (s u cutset : string) :
  (forall c, In c (list_ascii_of_string u) -> strings.contains cutset c = true) ->
  strings.TrimRight (s +:+ u) cutset = strings.TrimRight s cutset.
Proof.
  intros Hu. induction s as [|c s IH]; simpl.
  - now apply TrimRight_empty_iff.
  - now rewrite IH.
Qed.

Lemma TrimRight_more_slashes (s : string) (n : nat) :
  strings.TrimRight (s +:+ strings.Repeat "/" n) "/" = strings.TrimRight s "/".
Proof.
  apply TrimRight_app. intros c Hc.
  apply Repeat_in_cutset in Hc as ->. reflexivity.
Qed.

(** ** The key cache as a store with expiry *)

Lemma keyEntry_read (v : Verifier.t) (w : World) (kid : string) :
  fst (run (Verifier.readPublicKey kid) v w)
  = match keyEntry v kid with
    | Some entry =>
        if Verifier.expiration entry >? unix w then Some (Verifier.key entry)
        else None
    | None => None
    end.
Proof.
  rewrite readPublicKey_run. unfold keyEntry. cbn [fst].
  destruct (Verifier.cache v) as [c|]; reflexivity.
Qed.

Lemma keyEntry_written (v : Verifier.t) (w : World) (kid other : string)
    (pk : PublicKey) :
  keyEntry (self (snd (run (Verifier.writePublicKey kid pk) v w))) other
  = if decide (kid = other) then
      Some (Verifier.mkKeyCache pk
              (Int64.sub (Int64.add (unix w) 86400)
                 (Verifier.ExpirationMargin v)))
    else keyEntry v other.
Proof.
  rewrite writePublicKey_run. unfold keyEntry. cbn.
  rewrite lookup_insert. destruct (decide (kid = other)); [reflexivity|].
  destruct (Verifier.cache v); [reflexivity | apply lookup_empty].
Qed.

(** X9. A public key written for a kid at instant [t] is what a read
    of that kid returns at every instant before
    [t + 86400 - ExpirationMargin] (in 64-bit arithmetic) and at no
    instant from then on; reads of other kids answer as before the
    write. *)
Theorem X9_writePublicKey_then_readPublicKey
    (v : Verifier.t) (w w' : World) (kid : string) (pk : PublicKey) :
  let v' := self (snd (run (Verifier.writePublicKey kid pk) v w)) in
  let stored :=
    Int64.sub (Int64.add (unix w) 86400) (Verifier.ExpirationMargin v) in
  fst (run (Verifier.readPublicKey kid) v' w')
  = (if stored >? unix w' then Some pk else None)
  /\ (forall other,
         other <> kid ->
         fst (run (Verifier.readPublicKey other) v' w')
         = fst (run (Verifier.readPublicKey other) v w'))
  /\ sameVerifierSettings v v'.
Proof.
  intros v' stored. subst v'. split; [|split].
  - rewrite keyEntry_read, keyEntry_written.
    now destruct (decide (kid = kid)).
  - intros other Hother. rewrite !keyEntry_read, keyEntry_written.
    destruct (decide (kid = other)); [congruence | reflexivity].
  - rewrite writePublicKey_run. now repeat split.
Qed.

(** X10. A margin that eats up the whole lifetime turns the cache off.
    A key written with an ExpirationMargin of 86400 seconds or more is
    not returned by any read at the instant of the write or later, and
    a token written with a margin greater than its remaining lifetime
    is not returned by any read at the instant of the write or
    later. *)
Theorem X10_margin_disables_cache
    (v : Verifier.t) (g : Granter.t) (w w' : World)
    (kid resource token : string) (pk : PublicKey) (expiresIn : Z) :
  unix w <= unix w' ->
  86400 <= Verifier.ExpirationMargin v ->
  Int64.in_range (unix w + 86400) ->
  Int64.in_range (unix w + 86400 - Verifier.ExpirationMargin v) ->
  expiresIn < Granter.ExpirationMargin g ->
  Int64.in_range (unix w + expiresIn - Granter.ExpirationMargin g) ->
  fst (run (Verifier.readPublicKey kid)
         (self (snd (run (Verifier.writePublicKey kid pk) v w))) w')
  = None
  /\ fst (run (Granter.readToken resource)
            (self (snd (run (Granter.writeToken resource token
                               (unix w + expiresIn)) g w))) w')
     = ("", false).
Proof.
  intros Hlater Hmargin Hadd Hsub Hshort Htoken. split.
  - rewrite keyEntry_read, keyEntry_written.
    destruct (decide (kid = kid)); [|congruence].
    cbn [Verifier.expiration Verifier.key].
    rewrite add_exact, sub_exact by assumption.
    assert ((unix w + 86400 - Verifier.ExpirationMargin v >? unix w') = false)
      as -> by lia.
    reflexivity.
  - rewrite tokenEntry_read, tokenEntry_written.
    destruct (decide (resource = resource)); [|congruence].
    cbn [Granter.expiration Granter.jwt]. rewrite sub_exact by assumption.
    assert ((unix w + expiresIn - Granter.ExpirationMargin g >=? unix w')
            = false) as -> by lia.
    reflexivity.
Qed.

Lemma X10_margin_disables_cache_witness :
  fst (run (Verifier.readPublicKey "key-1")
         (self (snd (run (Verifier.writePublicKey "key-1" Fixture.signingKey)
                       (Verifier.mk Fixture.svcB "https://tenant.example.com"
                          None 86400 None)
                       Fixture.start)))
         Fixture.start)
  = None
  /\ fst (run (Granter.readToken Fixture.svcB)
            (self (snd (run (Granter.writeToken Fixture.svcB "tok1"
                               (unix Fixture.start + 30))
                          (Fixture.granter 200) Fixture.start)))
            Fixture.start)
     = ("", false).
Proof.
  apply (X10_margin_disables_cache
           (Verifier.mk Fixture.svcB "https://tenant.example.com" None 86400
              None)
           (Fixture.granter 200) Fixture.start Fixture.start "key-1"
           Fixture.svcB "tok1" Fixture.signingKey 30);
    vm_compute; try discriminate; split; discriminate.
Defined.

(** ** Every way through getKey *)

Section GetKeyOutcomes.

Variable defaultHTTPClient : Client.
Variable jsonDecode : string -> result (list Verifier.jwk).
Variable ParseRSAPublicKeyFromPEM : string -> result PublicKey.

Abbreviation getKey :=
  (Verifier.getKey defaultHTTPClient jsonDecode ParseRSAPublicKeyFromPEM).
Abbreviation answer := (Verifier.answer defaultHTTPClient).

Lemma getKey_outcomes (v : Verifier.t) (w : World) (kid : string) :
  let x := answer v w kid in
  let w1 := mkWorld (clock w + latency x)
              (trace (atFetch w kid) ++ [RoundTrip (Verifier.keysRequest v)]) in
  (exists entry,
      keyEntry v kid = Some entry /\ unix w < Verifier.expiration entry /\
      run (getKey kid) v w
      = (Ok (Verifier.key entry), mkStore v (logged w [CacheRead kid])))
  \/ (exists e,
         Verifier.miss v w kid /\
         run (getKey kid) v w = (Err e, mkStore v w1))
  \/ (exists resp keys entry certString chain pk,
         Verifier.miss v w kid /\
         outcome x = Ok resp /\ 200 <= StatusCode resp < 400 /\
         jsonDecode (Body resp) = Ok keys /\
         Verifier.firstMatch kid keys = Some entry /\
         Verifier.CertificateChain entry = certString :: chain /\
         ParseRSAPublicKeyFromPEM (Verifier.pem certString) = Ok pk /\
         run (getKey kid) v w = (Ok pk, Verifier.stored v w1 kid pk)).
Proof.
  intros x w1.
  destruct (fst (run (Verifier.readPublicKey kid) v w)) as [pk|] eqn:Hread.
  - left. destruct (readPublicKey_found v w kid pk Hread)
      as (c & entry & Hc & Hentry & <- & Hfresh).
    exists entry. split; [unfold keyEntry; now rewrite Hc|].
    split; [exact Hfresh|]. now apply getKey_hit.
  - right. rewrite (getKey_miss _ _ _ v w kid Hread). rewrite fetchKey_run.
    fold (answer v w kid). fold x.
    change (mkWorld (clock (atFetch w kid) + latency x)
              (trace (atFetch w kid) ++ [RoundTrip (Verifier.keysRequest v)]))
      with w1.
    destruct (outcome x) as [resp|err] eqn:Hout;
      [|left; eexists; split; [exact Hread | reflexivity]].
    destruct ((StatusCode resp <? 200) || (StatusCode resp >=? 400))
      eqn:Hstatus; [left; eexists; split; [exact Hread | reflexivity]|].
    destruct (jsonDecode (Body resp)) as [keys|err] eqn:Hdecode;
      [|left; eexists; split; [exact Hread | reflexivity]].
    rewrite scanKeys_run.
    destruct (Verifier.firstMatch kid keys) as [entry|] eqn:Hfirst;
      [|left; eexists; split; [exact Hread | reflexivity]].
    destruct (Verifier.CertificateChain entry) as [|certString chain]
      eqn:Hchain; [left; eexists; split; [exact Hread | reflexivity]|].
    destruct (ParseRSAPublicKeyFromPEM (Verifier.pem certString))
      as [pk|err] eqn:Hpk;
      [|left; eexists; split; [exact Hread | reflexivity]].
    right. exists resp, keys, entry, certString, chain, pk.
    apply orb_false_iff in Hstatus as [H1 H2].
    split; [exact Hread|]. split; [reflexivity|]. split; [lia|].
    repeat (split; [assumption|]). reflexivity.
Qed.

(** What [getKey] leaves of the verifier and sends, in every case. *)
Lemma getKey_effects (v : Verifier.t) (w : World) (kid : string) :
  let r := fst (run (getKey kid) v w) in
  let s := snd (run (getKey kid) v w) in
  sameVerifierSettings v (self s)
  /\ (forall other, other <> kid ->
                    keyEntry (self s) other = keyEntry v other)
  /\ (forall e, r = Err e -> Verifier.cache (self s) = Verifier.cache v)
  /\ (forall pk,
         r = Ok pk ->
         exists entry, keyEntry (self s) kid = Some entry
                       /\ Verifier.key entry = pk)
  /\ (sentBetween w (world s) []
      \/ sentBetween w (world s) [Verifier.keysRequest v]).
Proof.
  intros r s. subst r s.
  destruct (getKey_outcomes v w kid)
    as [(entry & Hentry & Hfresh & ->)|[(e & Hmiss & ->)
       |(resp & keys & entry & certString & chain & pk & Hmiss & _ & _ & _
         & _ & _ & _ & ->)]];
    cbn [fst snd self world Verifier.stored].
  - split; [now repeat split|]. split; [reflexivity|]. split; [reflexivity|].
    split; [intros pk [= <-]; now exists entry|].
    left. now apply sentBetween_logged.
  - split; [now repeat split|]. split; [reflexivity|]. split; [reflexivity|].
    split; [discriminate|]. right.
    unfold sentBetween. cbn [trace]. now rewrite requests_app, requests_atFetch.
  - split; [now repeat split|]. split.
    { intros other Hother. unfold keyEntry. cbn.
      rewrite lookup_insert_ne by congruence.
      destruct (Verifier.cache v); [reflexivity | apply lookup_empty]. }
    split; [discriminate|]. split.
    { intros pk' [= <-]. eexists.
      split; [unfold keyEntry; cbn; apply lookup_insert_eq | reflexivity]. }
    right. unfold sentBetween, logged. cbn [trace].
    rewrite !requests_app, requests_atFetch. cbn. now rewrite app_nil_r.
Qed.

(** X11. Whatever happens, getKey(kid) changes nothing of the verifier
    but the cache entry of that kid: the settings and the entries of
    all other kids stay, a failed resolution leaves the whole cache as
    it was, and a resolution that returns a key leaves that key cached
    under the kid.  It sends the key-set request once or not at
    all. *)
Theorem X11_getKey_touches_one_entry
    (v : Verifier.t) (w : World) (kid : string) :
  let r := fst (run (getKey kid) v w) in
  let s := snd (run (getKey kid) v w) in
  sameVerifierSettings v (self s)
  /\ (forall other, other <> kid ->
                    keyEntry (self s) other = keyEntry v other)
  /\ (forall e, r = Err e -> Verifier.cache (self s) = Verifier.cache v)
  /\ (forall pk,
         r = Ok pk ->
         exists entry, keyEntry (self s) kid = Some entry
                       /\ Verifier.key entry = pk)
  /\ (sentBetween w (world s) []
      \/ sentBetween w (world s) [Verifier.keysRequest v]).
Proof. apply getKey_effects. Qed.

(** X12. A key resolved by a request read at instant [now] is served
    from the cache, without a request, by every later resolution of
    the same kid whose clock reads less than
    [now + 86400 - ExpirationMargin]; a resolution whose clock reads
    that or more sends the key-set request again. *)
Theorem X12_key_cached_for_a_day
    (v : Verifier.t) (w w2 : World) (kid : string) (pk : PublicKey) :
  let x := answer v w kid in
  let now := Int64.wrap (clock w + latency x) in
  let s1 := snd (run (getKey kid) v w) in
  let lifetime := 86400 - Verifier.ExpirationMargin v in
  Verifier.miss v w kid ->
  fst (run (getKey kid) v w) = Ok pk ->
  Int64.in_range (now + 86400) ->
  Int64.in_range (now + lifetime) ->
  (unix w2 < now + lifetime ->
   run (getKey kid) (self s1) w2
   = (Ok pk, mkStore (self s1) (logged w2 [CacheRead kid])))
  /\ (now + lifetime <= unix w2 ->
      sentBetween w2 (world (snd (run (getKey kid) (self s1) w2)))
        [Verifier.keysRequest v]).
Proof.
  intros x now s1 lifetime Hmiss Hok Hadd Hsub. subst s1.
  destruct (getKey_outcomes v w kid)
    as [(entry & Hentry & Hfresh & Hrun)|[(e & _ & Hrun)
       |(resp & keys & entry & certString & chain & pk' & _ & _ & _ & _
         & _ & _ & _ & Hrun)]]; rewrite Hrun in Hok |- *; cbn [fst snd] in *.
  - exfalso. unfold Verifier.miss in Hmiss. rewrite keyEntry_read, Hentry in Hmiss.
    assert ((Verifier.expiration entry >? unix w) = true) as Hgt by lia.
    rewrite Hgt in Hmiss. discriminate.
  - discriminate.
  - injection Hok as ->. unfold Verifier.stored. cbn [self].
    set (v1 := Verifier.withCache v _).
    assert (keyEntry v1 kid
            = Some (Verifier.mkKeyCache pk (now + lifetime))) as Hentry.
    { unfold keyEntry, v1. cbn. rewrite lookup_insert_eq. do 2 f_equal.
      unfold unix. cbn [clock atFetch logged]. fold x. fold now.
      rewrite add_exact, sub_exact; unfold lifetime in *;
        try assumption; try lia.
      replace (now + 86400 - Verifier.ExpirationMargin v)
        with (now + (86400 - Verifier.ExpirationMargin v)) by lia.
      exact Hsub. }
    split.
    + intros Hearly. apply getKey_hit. rewrite keyEntry_read, Hentry.
      cbn [Verifier.expiration Verifier.key].
      assert ((now + lifetime >? unix w2) = true) as -> by lia. reflexivity.
    + intros Hlate.
      assert (Verifier.miss v1 w2 kid) as Hmiss2.
      { unfold Verifier.miss. rewrite keyEntry_read, Hentry.
        cbn [Verifier.expiration].
        assert ((now + lifetime >? unix w2) = false) as -> by lia.
        reflexivity. }
      destruct (getKey_outcomes v1 w2 kid)
        as [(entry2 & Hentry2 & Hfresh2 & _)|[(e & _ & ->)
           |(resp2 & keys2 & entry2 & cert2 & chain2 & pk2 & _ & _ & _ & _
             & _ & _ & _ & ->)]].
      * exfalso. rewrite Hentry in Hentry2. injection Hentry2 as <-.
        cbn [Verifier.expiration] in Hfresh2. lia.
      * unfold sentBetween. cbn [snd world trace].
        now rewrite requests_app, requests_atFetch.
      * unfold sentBetween, Verifier.stored, logged. cbn [snd world trace].
        rewrite !requests_app, requests_atFetch. cbn. now rewrite app_nil_r.
Qed.

End GetKeyOutcomes.

Lemma X12_key_cached_for_a_day_witness :
  let getKey :=
    Verifier.getKey (Fixture.respond 500 "" 0) Fixture.decodeKeys
      Fixture.parsePEM "key-1" in
  let v1 := self (snd (run getKey (Fixture.verifier 200) Fixture.start)) in
  run getKey v1 (mkWorld 5000 [])
  = (Ok Fixture.signingKey,
     mkStore v1 (logged (mkWorld 5000 []) [CacheRead "key-1"])).
Proof.
  intros getKey v1.
  refine (proj1 (X12_key_cached_for_a_day (Fixture.respond 500 "" 0)
                   Fixture.decodeKeys Fixture.parsePEM (Fixture.verifier 200)
                   Fixture.start (mkWorld 5000 []) "key-1" Fixture.signingKey
                   _ _ _ _) _).
  - reflexivity.
  - reflexivity.
  - vm_compute. split; discriminate.
  - vm_compute. split; discriminate.
  - vm_compute. reflexivity.
Defined.

(** ** What a verified token has passed *)

Section VerifyTokenProperties.

Variable defaultHTTPClient : Client.
Variable jsonDecode : string -> result (list Verifier.jwk).
Variable ParseRSAPublicKeyFromPEM : string -> result PublicKey.
Variable ParseUnverified : string -> result (jwt.Token Claims).
Variable Verify : Z -> jwt.Token Claims -> PublicKey -> option error.

Abbreviation getKey :=
  (Verifier.getKey defaultHTTPClient jsonDecode ParseRSAPublicKeyFromPEM).
Abbreviation keyFunc :=
  (Verifier.keyFunc defaultHTTPClient jsonDecode ParseRSAPublicKeyFromPEM).
Abbreviation VerifyToken :=
  (Verifier.VerifyToken defaultHTTPClient jsonDecode ParseRSAPublicKeyFromPEM
     ParseUnverified Verify).

Lemma verifyAudience_None (v : Verifier.t) (audiences : list string) :
  Verifier.verifyAudience v audiences = None ->
  Verifier.Resource v ∈ audiences.
Proof.
  intros Hnone. destruct (decide (Verifier.Resource v ∈ audiences)) as [|Hout];
    [assumption|].
  rewrite (proj2 (verifyAudience_spec v audiences) Hout) in Hnone.
  discriminate.
Qed.

(** A token string that does not parse is refused as it is. *)
Lemma VerifyToken_unparsed (v : Verifier.t) (w : World) (tokenString : string)
    (err : error) :
  ParseUnverified tokenString = Err err ->
  run (VerifyToken tokenString) v w = (Err err, mkStore v w).
Proof.
  intros Hparse. unfold Verifier.VerifyToken, jwt.ParseWithClaims.
  now rewrite Hparse.
Qed.

(** X13. VerifyToken returns a token only if the string parsed into
    claims of the package, the audiences of the claims include the
    verifier's Resource, the issuer is the tenant URL with exactly one
    trailing slash, the header names a kid for which a key was
    resolved, and the parser accepted the claims and the signature
    under that key; the token returned carries the raw string and
    those claims. *)
Theorem X13_VerifyToken_sound
    (v : Verifier.t) (w : World) (tokenString : string) (tok : Token) :
  fst (run (VerifyToken tokenString) v w) = Ok tok ->
  exists token claims kid key s,
    ParseUnverified tokenString = Ok token
    /\ jwt.claims token = jwt.Custom claims
    /\ Verifier.Resource v ∈ elements (Audience claims)
    /\ Issuer claims = Verifier.expectedIssuer v
    /\ jwt.Header token !! "kid" = Some (json.Str kid)
    /\ run (getKey kid) v w = (Ok key, s)
    /\ Verify (unix (world s)) token key = None
    /\ tok = mkToken (jwt.Raw token) claims None.
Proof.
  intros Hok.
  destruct (ParseUnverified tokenString) as [token|err] eqn:Hparse;
    [|now rewrite (VerifyToken_unparsed v w tokenString err Hparse) in Hok].
  destruct (jwt.claims token) as [claims|m] eqn:Hclaims.
  - rewrite (VerifyToken_run _ _ _ _ _ v w tokenString token claims Hparse
               Hclaims) in Hok.
    rewrite keyFunc_run, Hclaims in Hok.
    destruct (Verifier.verifyAudience v (elements (Audience claims)))
      eqn:Haud; [destruct e; discriminate|].
    destruct (String.eqb (Issuer claims) (Verifier.expectedIssuer v))
      eqn:Hiss; [|discriminate].
    destruct (jwt.Header token !! "kid") as [[| | |kid| |]|] eqn:Hkid;
      try discriminate.
    destruct (run (getKey kid) v w) as [[key|err] s] eqn:Hkey;
      [|discriminate].
    cbv zeta in Hok.
    destruct (Verify (unix (world s)) token key) eqn:Hverify;
      [discriminate|].
    injection Hok as <-.
    exists token, claims, kid, key, s.
    repeat split; try assumption; try reflexivity.
    + now apply verifyAudience_None.
    + now apply String.eqb_eq.
  - exfalso. unfold Verifier.VerifyToken, jwt.ParseWithClaims, run in Hok.
    rewrite Hparse in Hok. unfold mbind at 1, M_bind at 1 in Hok.
    unfold mbind at 1, M_bind at 1 in Hok.
    unfold Verifier.keyFunc in Hok. rewrite Hclaims in Hok. discriminate.
Qed.

(** X14. With a key for the token's kid in the cache that has not
    expired, a token that passes the audience and issuer checks is
    verified without any request: the cache is read, the signature is
    checked under the cached key, and the verifier is left as it
    was. *)
Theorem X14_VerifyToken_with_cached_key
    (v : Verifier.t) (w : World) (tokenString kid : string)
    (token : jwt.Token Claims) (claims : Claims) (entry : Verifier.keyCache) :
  ParseUnverified tokenString = Ok token ->
  jwt.claims token = jwt.Custom claims ->
  Verifier.Resource v ∈ elements (Audience claims) ->
  Issuer claims = Verifier.expectedIssuer v ->
  jwt.Header token !! "kid" = Some (json.Str kid) ->
  keyEntry v kid = Some entry ->
  unix w < Verifier.expiration entry ->
  run (VerifyToken tokenString) v w
  = (match Verify (unix w) token (Verifier.key entry) with
     | Some vErr => Err vErr
     | None => Ok (mkToken (jwt.Raw token) claims None)
     end,
     mkStore v (logged w [CacheRead kid; SignatureCheck])).
Proof.
  intros Hparse Hclaims Haud Hiss Hkid Hentry Hfresh.
  rewrite (VerifyToken_run _ _ _ _ _ v w tokenString token claims Hparse
             Hclaims).
  rewrite keyFunc_run, Hclaims.
  rewrite (proj1 (verifyAudience_spec v _) Haud).
  apply String.eqb_eq in Hiss. rewrite Hiss, Hkid.
  rewrite (getKey_hit _ _ _ v w kid (Verifier.key entry)).
  - cbv zeta. cbn [self world]. unfold unix, logged. cbn [clock trace].
    rewrite <- app_assoc. cbn [app].
    destruct (Verify _ token (Verifier.key entry)); reflexivity.
  - rewrite keyEntry_read, Hentry.
    assert ((Verifier.expiration entry >? unix w) = true) as -> by lia.
    reflexivity.
Qed.

End VerifyTokenProperties.

Lemma X13_VerifyToken_sound_witness :
  exists token claims kid key s,
    Fixture.parseAs ["https://svc-c"; Fixture.svcB] Fixture.goodIssuer "key-1"
    = Ok token
    /\ jwt.claims token = jwt.Custom claims
    /\ Verifier.Resource (Fixture.verifier 200) ∈ elements (Audience claims)
    /\ Issuer claims = Verifier.expectedIssuer (Fixture.verifier 200)
    /\ jwt.Header token !! "kid" = Some (json.Str kid)
    /\ run (Verifier.getKey (Fixture.respond 200 "" 0) Fixture.decodeKeys
              Fixture.parsePEM kid)
           (Fixture.verifier 200) Fixture.start
       = (Ok key, s)
    /\ Fixture.accept (unix (world s)) token key = None
    /\ mkToken "key-1"
         (Fixture.claimsFor ["https://svc-c"; Fixture.svcB] Fixture.goodIssuer)
         None
       = mkToken (jwt.Raw token) claims None.
Proof.
  apply (X13_VerifyToken_sound (Fixture.respond 200 "" 0) Fixture.decodeKeys
           Fixture.parsePEM
           (Fixture.parseAs ["https://svc-c"; Fixture.svcB] Fixture.goodIssuer)
           Fixture.accept (Fixture.verifier 200) Fixture.start "key-1").
  vm_compute. reflexivity.
Defined.

Lemma X14_VerifyToken_with_cached_key_witness :
  let v := Verifier.withCache (Fixture.verifier 500)
             (Some {[ "key-1" :=
                        Verifier.mkKeyCache Fixture.signingKey 2000 ]}) in
  run (Verifier.VerifyToken (Fixture.respond 500 "" 0) Fixture.decodeKeys
         Fixture.parsePEM (Fixture.parseAs [Fixture.svcB] Fixture.goodIssuer)
         Fixture.accept "key-1")
      v Fixture.start
  = (Ok (mkToken "key-1" (Fixture.claimsFor [Fixture.svcB] Fixture.goodIssuer)
           None),
     mkStore v (logged Fixture.start [CacheRead "key-1"; SignatureCheck])).
Proof.
  intros v.
  apply (X14_VerifyToken_with_cached_key (Fixture.respond 500 "" 0)
           Fixture.decodeKeys Fixture.parsePEM
           (Fixture.parseAs [Fixture.svcB] Fixture.goodIssuer) Fixture.accept
           v Fixture.start "key-1" "key-1"
           (Fixture.tokenFor [Fixture.svcB] Fixture.goodIssuer "key-1")
           (Fixture.claimsFor [Fixture.svcB] Fixture.goodIssuer)
           (Verifier.mkKeyCache Fixture.signingKey 2000)).
  - reflexivity.
  - reflexivity.
  - apply list_elem_of_singleton. reflexivity.
  - reflexivity.
  - reflexivity.
  - reflexivity.
  - vm_compute. reflexivity.
Defined.

(** ** The untyped claims are computed once *)

Lemma copyClaims_id (parsed : gmap string json.Value) :
  copyClaims parsed = parsed.
Proof.
  unfold copyClaims.
  apply (map_fold_weak_ind (fun r m => r = m)); [reflexivity|].
  now intros i x m r _ ->.
Qed.

(** X15. RawClaims parses the raw string at most once per token: once
    a call has succeeded, every later call on the token returns the
    same map and leaves the token as it is, whatever parsing the raw
    string would give then.  A call that fails leaves the token as it
    was, so that the next call parses again.  The raw string and the
    typed claims of the token never change, and the map returned the
    first time is the map of the parsed claims. *)
Theorem X15_RawClaims_computed_once
    (parse parse' : string -> result (gmap string json.Value)) (t : Token) :
  let r := fst (RawClaims parse t) in
  let t' := snd (RawClaims parse t) in
  Raw t' = Raw t /\ claims t' = claims t
  /\ (forall m, r = Ok m -> RawClaims parse' t' = (Ok m, t'))
  /\ (forall e, r = Err e -> t' = t)
  /\ (rawClaims t = None -> r = parse (Raw t)).
Proof.
  intros r t'. subst r t'. unfold RawClaims.
  destruct (rawClaims t) as [m0|] eqn:Hraw.
  - cbn. rewrite Hraw. repeat split; try discriminate.
    now intros m [= <-].
  - destruct (parse (Raw t)) as [parsed|err]; cbn.
    + repeat split; try discriminate.
      * now intros m [= <-].
      * intros _. now rewrite copyClaims_id.
    + rewrite Hraw. repeat split. discriminate.
Qed.

(** ** The audience list on the wire, all cases *)

(** X16. Decoding what MarshalJSON writes gives, for every list that
    is not nil, the empty list and the list of one audience included,
    the list of the audiences as the encoder writes them, with U+FFFD
    for every byte that is not part of valid UTF-8; so a list of valid
    UTF-8 strings comes back as it was.  The nil list is written as
    [null], and [null] decodes to the list of one empty audience. *)
Theorem X16_audience_list_round_trip :
  (forall l : list string,
      exists data,
        MarshalJSON (Some l) = Ok data
        /\ UnmarshalJSON data = Ok (Some (map json.coerce l))
        /\ (Forall (fun s => utf8.ValidString s = true) l ->
            UnmarshalJSON data = Ok (Some l)))
  /\ MarshalJSON None = Ok (json.Text json.Null)
  /\ UnmarshalJSON (json.Text json.Null) = Ok (Some [""]).
Proof.
  split; [|split; reflexivity].
  intros l.
  assert (exists data,
             MarshalJSON (Some l) = Ok data
             /\ UnmarshalJSON data = Ok (Some (map json.coerce l)))
    as (data & Hm & Hu).
  { destruct l as [|a [|b l]].
    - eexists. split; reflexivity.
    - eexists. split; reflexivity.
    - eexists. split; [reflexivity|].
      unfold UnmarshalJSON. cbn -[json.stringElements json.coerce].
      change (json.Str (json.coerce a) :: json.Str (json.coerce b)
              :: map (fun s => json.Str (json.coerce s)) l)
        with (map (fun s => json.Str (json.coerce s)) (a :: b :: l)).
      now rewrite stringElements_coerced. }
  exists data. split; [exact Hm|]. split; [exact Hu|].
  intros Hvalid. rewrite Hu. now rewrite (proj2 (coerce_all_id l) Hvalid).
Qed.

Lemma X16_audience_list_round_trip_witness :
  exists data,
    MarshalJSON (Some ["https://svc-a"]) = Ok data
    /\ UnmarshalJSON data = Ok (Some ["https://svc-a"]).
Proof.
  destruct X16_audience_list_round_trip as (Hround & _).
  destruct (Hround ["https://svc-a"]) as (data & Hm & _ & Hvalid).
  exists data. split; [exact Hm|]. apply Hvalid. repeat constructor.
Defined.

(** The arrays that decode into strings are those of strings and
    nulls, a null giving the empty string. *)
Lemma stringElements_Ok (l : list json.Value) (ss : list string) :
  json.stringElements l = Ok ss <->
  Forall2 (fun v s => v = json.Str s \/ (v = json.Null /\ s = "")) l ss.
Proof.
  revert ss. induction l as [|v l IH]; intros ss; simpl.
  - split.
    + intros [= <-]. constructor.
    + intros H. now inversion H.
  - split.
    + intros H. destruct v; try discriminate;
        destruct (json.stringElements l) as [ss'|] eqn:Hl; try discriminate;
        injection H as <-; constructor; auto; now apply IH.
    + intros H. inversion H as [|v' s l' ss' Hv Hrest]; subst.
      apply IH in Hrest. destruct Hv as [->|[-> ->]]; now rewrite Hrest.
Qed.

(** X17. UnmarshalJSON accepts exactly three kinds of document: [null],
    which gives the list of one empty audience; a string, which gives
    the list of that string; and an array of strings and nulls, which
    gives its elements in order, a null counting as the empty string.
    Every other document is refused with the error of the attempt to
    decode it as an array of strings, and text that is not JSON with
    the complaint of the scanner. *)
Theorem X17_UnmarshalJSON_accepts
    (data : json.bytes) (al : AudienceList) :
  (UnmarshalJSON data = Ok al <->
   (data = json.Text json.Null /\ al = Some [""])
   \/ (exists s, data = json.Text (json.Str s) /\ al = Some [s])
   \/ (exists l ss,
          data = json.Text (json.Array l) /\ al = Some ss /\
          Forall2 (fun v s => v = json.Str s \/ (v = json.Null /\ s = ""))
            l ss))
  /\ (forall v,
         data = json.Text v ->
         (exists b, v = json.Bool b) \/ (exists n, v = json.Number n)
         \/ (exists m, v = json.Object m) ->
         UnmarshalJSON data
         = Err (json.UnmarshalTypeError (json.kind v) "[]string"))
  /\ (forall complaint,
         data = json.Malformed complaint ->
         UnmarshalJSON data = Err (errorString complaint)).
Proof.
  split; [|split].
  - split.
    + destruct data as [v|complaint]; [|discriminate].
      destruct v; try discriminate.
      * intros [= <-]. now left.
      * intros [= <-]. right; left. now exists s.
      * unfold UnmarshalJSON. cbn -[json.stringElements].
        destruct (json.stringElements elements0) as [ss|] eqn:Hl;
          [|discriminate].
        intros [= <-]. right; right. exists elements0, ss.
        repeat split. now apply stringElements_Ok.
    + intros [(-> & ->)|[(s & -> & ->)|(l & ss & -> & -> & H)]];
        try reflexivity.
      apply stringElements_Ok in H.
      unfold UnmarshalJSON. cbn -[json.stringElements]. now rewrite H.
  - intros v -> [(b & ->)|[(n & ->)|(m & ->)]]; reflexivity.
  - now intros complaint ->.
Qed.

(** ** Requests that carry the token *)

Lemma Values_Add (h : http.Header) (key value other : string) :
  http.Values (http.Add h key value) other
  = if decide (key = other) then http.Values h key ++ [value]
    else http.Values h other.
Proof.
  unfold http.Values, http.Add, http.Header in *. rewrite lookup_insert.
  now destruct (decide (key = other)).
Qed.

(** The first value of a key stays the first when another is added. *)
Lemma Get_Add_kept (h : http.Header) (key value first : string)
    (rest : list string) :
  http.Values h key = first :: rest ->
  http.Get (http.Add h key value) key = first.
Proof.
  intros Hvalues. unfold http.Get. rewrite Values_Add.
  destruct (decide (key = key)); [|congruence]. now rewrite Hvalues.
Qed.

Ltac unfold_NewRequestFunc := unfold NewRequestFunc, run in *.

Section AdapterProperties.

Variable defaultHTTPClient : Client.
Variable jsonMarshal : gmap string string -> string.
Variable jsonDecode : string -> result Granter.accessTokenResponse.
Variable Reader : Type.

Abbreviation GetToken :=
  (Granter.GetToken defaultHTTPClient jsonMarshal jsonDecode).
Abbreviation NewRequestFunc :=
  (NewRequestFunc defaultHTTPClient jsonMarshal jsonDecode Reader).
Abbreviation NewRoundTripper :=
  (NewRoundTripper defaultHTTPClient jsonMarshal jsonDecode Reader).

(** X18. The request function gets the token before it builds the
    request: whatever http.NewRequest makes of the method and the URL,
    the granter and the world are left as GetToken leaves them, and a
    failure of GetToken is returned as it is.  A request that is
    returned is the one http.NewRequest built, with
    ["Bearer " + token] added as the last Authorization value, the
    token being the one cached for the resource, and with every other
    header as it was. *)
Theorem X18_NewRequestFunc
    (NewRequest : string -> string -> Reader -> result (http.Request Reader))
    (g : Granter.t) (w : World) (resource method url : string)
    (body : Reader) :
  let r := fst (run (NewRequestFunc NewRequest resource method url body) g w) in
  let s := snd (run (NewRequestFunc NewRequest resource method url body) g w) in
  s = snd (run (GetToken resource) g w)
  /\ (forall e, fst (run (GetToken resource) g w) = Err e -> r = Err e)
  /\ (forall req,
         r = Ok req ->
         exists tc r0,
           tokenEntry (self s) resource = Some tc
           /\ NewRequest method url body = Ok r0
           /\ http.Method req = http.Method r0
           /\ http.URL req = http.URL r0
           /\ http.Body req = http.Body r0
           /\ http.Values (http.Headers req) "Authorization"
              = http.Values (http.Headers r0) "Authorization"
                ++ ["Bearer " +:+ Granter.jwt tc]
           /\ forall key,
                key <> "Authorization" ->
                http.Values (http.Headers req) key
                = http.Values (http.Headers r0) key).
Proof.
  intros r s. subst r s.
  destruct (GetToken_effects defaultHTTPClient jsonMarshal jsonDecode g w
              resource) as (_ & _ & _ & Hcached & _).
  unfold_NewRequestFunc.
  unfold mbind, M_bind.
  destruct (GetToken resource (mkStore g w)) as [[token|err] s1];
    cbn [fst snd] in *.
  - destruct (NewRequest method url body) as [r0|err] eqn:Hnew;
      cbn [fst snd mret M_ret].
    + split; [reflexivity|]. split; [discriminate|].
      intros req [= <-]. destruct (Hcached token eq_refl) as (tc & Htc & <-).
      exists tc, r0. split; [exact Htc|]. split; [reflexivity|].
      split; [reflexivity|]. split; [reflexivity|]. split; [reflexivity|].
      cbn [http.Headers http.withHeaders]. split.
      * rewrite Values_Add.
        now destruct (decide ("Authorization" = "Authorization")).
      * intros key Hkey. rewrite Values_Add.
        destruct (decide ("Authorization" = key)); congruence.
    + split; [reflexivity|]. split; discriminate.
  - split; [reflexivity|]. split; [now intros e [= <-]|discriminate].
Qed.

(** X19. A round tripper cannot be made for a nil granter.  The one
    made for a granter gets the token first: when that fails the error
    is returned and the wrapped transport is not run, the request
    staying as it came; otherwise the transport, the default one if
    none was given, is run after GetToken on the request with
    ["Bearer " + token] added behind the Authorization values the
    request already had, and that is the request the caller is left
    with, so that a request sent a second time carries both tokens
    and shows the older one first. *)
Theorem X19_NewRoundTripper
    (DefaultTransport : http.Request Reader -> M Granter.t (result Response))
    (original : option (http.Request Reader -> M Granter.t (result Response)))
    (g : Granter.t) (w : World) (resource : string)
    (request : http.Request Reader) :
  NewRoundTripper DefaultTransport nil resource original
  = Panics "granter cannot be nil"
  /\ exists RoundTrip,
       NewRoundTripper DefaultTransport this resource original
       = Returns RoundTrip
       /\ (forall e,
              fst (run (GetToken resource) g w) = Err e ->
              run (RoundTrip request) g w
              = ((Err e, request), snd (run (GetToken resource) g w)))
       /\ (forall token,
              fst (run (GetToken resource) g w) = Ok token ->
              let s1 := snd (run (GetToken resource) g w) in
              let sent :=
                http.withHeaders request
                  (http.Add (http.Headers request) "Authorization"
                     ("Bearer " +:+ token)) in
              let transport := default DefaultTransport original in
              run (RoundTrip request) g w
              = ((fst (transport sent s1), sent), snd (transport sent s1))
              /\ http.Values (http.Headers sent) "Authorization"
                 = http.Values (http.Headers request) "Authorization"
                   ++ ["Bearer " +:+ token]
              /\ (forall first rest,
                     http.Values (http.Headers request) "Authorization"
                     = first :: rest ->
                     http.Get (http.Headers sent) "Authorization" = first)).
Proof.
  split; [reflexivity|]. eexists. split; [reflexivity|].
  unfold run, mbind, M_bind. split.
  - intros e He.
    destruct (GetToken resource (mkStore g w)) as [[token|err] s1];
      cbn [fst snd] in *; [discriminate|]. now injection He as ->.
  - intros token Htoken.
    destruct (GetToken resource (mkStore g w)) as [[token'|err] s1];
      cbn [fst snd] in *; [|discriminate]. injection Htoken as ->.
    split; [|split].
    + destruct original as [rt|]; unfold default, from_option, id;
        [destruct (rt _ s1) | destruct (DefaultTransport _ s1)];
        reflexivity.
    + cbn [http.Headers http.withHeaders]. rewrite Values_Add.
      now destruct (decide ("Authorization" = "Authorization")).
    + intros first rest Hvalues.
      cbn [http.Headers http.withHeaders].
      now apply (Get_Add_kept _ _ _ _ rest).
Qed.

End AdapterProperties.

(** ** Replacing and splitting *)

Lemma append_assoc (a b c : string) : (a +:+ b) +:+ c = a +:+ (b +:+ c).
Proof. induction a as [|x a IH]; simpl; [reflexivity | now rewrite IH]. Qed.

Lemma append_empty_r (a : string) : a +:+ "" = a.
Proof. induction a as [|x a IH]; simpl; [reflexivity | now rewrite IH]. Qed.

Lemma HasPrefix_append (p b : string) : strings.HasPrefix (p +:+ b) p = true.
Proof.
  induction p as [|x p IH]; simpl; [reflexivity|].
  now rewrite Ascii.eqb_refl, IH.
Qed.

Lemma HasPrefix_true (s p : string) :
  strings.HasPrefix s p = true -> exists b, s = p +:+ b.
Proof.
  revert s. induction p as [|x p IH]; intros s; simpl.
  - intros _. now exists s.
  - destruct s as [|c s]; [discriminate|]. intros H.
    apply andb_true_iff in H as [Hc Hp]. apply Ascii.eqb_eq in Hc as ->.
    destruct (IH s Hp) as (b & ->). now exists b.
Qed.

Lemma replace_none_left (s old new : string) :
  strings.replace s old new 0 0 = s.
Proof. induction s as [|c s IH]; simpl; [reflexivity | now rewrite IH]. Qed.

Lemma replace_skip (a b old new : string) (n : Z) :
  strings.replace (a +:+ b) old new n (String.length a)
  = strings.replace b old new n 0.
Proof. induction a as [|x a IH]; simpl; [reflexivity | exact IH]. Qed.

(** An occurrence at the very beginning is the one replaced. *)
Lemma Replace_at_start (old new b : string) :
  old <> "" -> strings.Replace (old +:+ b) old new 1 = new +:+ b.
Proof.
  intros Hold. destruct old as [|o old]; [congruence|].
  unfold strings.Replace.
  change (String o old +:+ b) with (String o (old +:+ b)).
  cbn [strings.replace]. change (1 =? 0) with false. cbn [orb].
  change (String o (old +:+ b)) with (String o old +:+ b).
  rewrite HasPrefix_append. cbn [negb String.length pred].
  change (1 - 1) with 0. now rewrite replace_skip, replace_none_left.
Qed.

Lemma occurs_false (sub : string) (c : ascii) (s : string) :
  occurs sub (String c s) = false ->
  strings.HasPrefix (String c s) sub = false /\ occurs sub s = false.
Proof. cbn [occurs]. intros H. now apply orb_false_iff in H. Qed.

(** Without an occurrence nothing is replaced. *)
Lemma Replace_absent (s old new : string) (n : Z) :
  occurs old s = false -> strings.Replace s old new n = s.
Proof.
  unfold strings.Replace. destruct old as [|o old]; [reflexivity|].
  set (old0 := String o old).
  induction s as [|c s IH]; intros Hocc; [reflexivity|].
  apply occurs_false in Hocc as [Hhere Hrest].
  cbn [strings.replace]. rewrite Hhere. cbn [negb].
  rewrite orb_true_r. now rewrite IH.
Qed.

Lemma split_space (c : ascii) (s cur : string) :
  strings.split (String c s) " " 0 cur
  = if Ascii.eqb c " " then cur :: strings.split s " " 0 ""
    else strings.split s " " 0 (cur +:+ String c "").
Proof.
  cbn [strings.split strings.HasPrefix String.length pred].
  now rewrite andb_true_r.
Qed.

Lemma split_not_nil (s cur : string) : strings.split s " " 0 cur <> [].
Proof.
  revert cur. induction s as [|c s IH]; intros cur; [discriminate|].
  rewrite split_space. destruct (Ascii.eqb c " "); [discriminate | apply IH].
Qed.

Lemma Join_cons (e : string) (l : list string) (sep : string) :
  l <> [] -> strings.Join (e :: l) sep = e +:+ sep +:+ strings.Join l sep.
Proof. destruct l; [congruence | reflexivity]. Qed.

(** The pieces put together again are the string. *)
Lemma Join_split (s cur : string) :
  strings.Join (strings.split s " " 0 cur) " " = cur +:+ s.
Proof.
  revert cur. induction s as [|c s IH]; intros cur.
  - cbn. now rewrite append_empty_r.
  - rewrite split_space. destruct (Ascii.eqb c " ") eqn:Hc.
    + apply Ascii.eqb_eq in Hc as ->.
      rewrite Join_cons by apply split_not_nil. now rewrite IH.
    + rewrite IH. now rewrite append_assoc.
Qed.

Lemma spaceFree_snoc (cur : string) (c : ascii) :
  spaceFree cur -> Ascii.eqb c " " = false ->
  spaceFree (cur +:+ String c "").
Proof.
  unfold spaceFree. intros Hcur Hc.
  induction cur as [|x cur IH]; cbn [strings.contains append] in *.
  - rewrite Ascii.eqb_sym. now rewrite Hc.
  - destruct (Ascii.eqb " " x); [discriminate | now apply IH].
Qed.

(** No piece has a space in it. *)
Lemma split_spaceFree (s cur : string) :
  spaceFree cur -> Forall spaceFree (strings.split s " " 0 cur).
Proof.
  revert cur. induction s as [|c s IH]; intros cur Hcur.
  - now repeat constructor.
  - rewrite split_space. destruct (Ascii.eqb c " ") eqn:Hc.
    + constructor; [exact Hcur|]. now apply IH.
    + apply IH. now apply spaceFree_snoc.
Qed.

(** Words without spaces joined by spaces are split into the very
    words. *)
Lemma split_Join (e : string) (l : list string) (cur : string) :
  spaceFree e -> Forall spaceFree l ->
  strings.split (strings.Join (e :: l) " ") " " 0 cur = (cur +:+ e) :: l.
Proof.
  intros He Hl. revert e He cur. induction Hl as [|e' l He' Hl IH];
    intros e He cur.
  - cbn [strings.Join]. revert cur.
    induction e as [|c e IHe]; intros cur.
    + cbn. now rewrite append_empty_r.
    + unfold spaceFree in He. cbn [strings.contains] in He.
      destruct (Ascii.eqb " " c) eqn:Hc; [discriminate|].
      rewrite split_space, Ascii.eqb_sym, Hc.
      rewrite IHe by exact He. now rewrite append_assoc.
  - rewrite Join_cons by discriminate. revert cur.
    induction e as [|c e IHe]; intros cur.
    + cbn [append]. rewrite split_space.
      rewrite Ascii.eqb_refl. rewrite (IH e' He' "").
      now rewrite append_empty_r.
    + unfold spaceFree in He. cbn [strings.contains] in He.
      destruct (Ascii.eqb " " c) eqn:Hc; [discriminate|].
      cbn [append]. rewrite split_space, Ascii.eqb_sym, Hc.
      rewrite IHe by exact He. now rewrite append_assoc.
Qed.

Lemma contains_In (haystack : list string) (needle : string) :
  contains haystack needle = true <-> needle ∈ haystack.
Proof.
  induction haystack as [|hay l IH]; simpl.
  - split; [discriminate | intros H; inversion H].
  - destruct (String.eqb hay needle) eqn:Hh.
    + apply String.eqb_eq in Hh as ->. split; [intros _; left | reflexivity].
    + apply String.eqb_neq in Hh. rewrite IH, elem_of_cons.
      split; [now right | intros [->|H]; [congruence | exact H]].
Qed.

Lemma HasPrefix_longer (x y p : string) :
  (String.length p <= String.length x)%nat ->
  strings.HasPrefix (x +:+ y) p = strings.HasPrefix x p.
Proof.
  revert x. induction p as [|c p IH]; intros x Hlen; [reflexivity|].
  destruct x as [|a x]; cbn [String.length] in Hlen; [lia|].
  cbn [append strings.HasPrefix]. rewrite IH by lia. reflexivity.
Qed.

Lemma length_append (a b : string) :
  String.length (a +:+ b) = (String.length a + String.length b)%nat.
Proof. induction a as [|x a IH]; simpl; [reflexivity | now rewrite IH]. Qed.

(** The first occurrence, wherever it is, is the one replaced. *)
Lemma Replace_first (a old new b : string) (o : ascii) (stem : string) :
  old = stem +:+ String o "" ->
  occurs old (a +:+ stem) = false ->
  strings.Replace (a +:+ old +:+ b) old new 1 = a +:+ new +:+ b.
Proof.
  intros Hold Hocc.
  assert (old <> "") as Hne by (subst old; destruct stem; discriminate).
  induction a as [|c a IH].
  - cbn [append]. now apply Replace_at_start.
  - cbn [append] in *. apply occurs_false in Hocc as [Hhere Hrest].
    specialize (IH Hrest).
    unfold strings.Replace in *. destruct old as [|o' old'] eqn:Hold';
      [congruence|].
    rewrite <- Hold' in *. cbn [strings.replace].
    assert (strings.HasPrefix (String c (a +:+ old +:+ b)) old = false)
      as ->.
    { replace (String c (a +:+ old +:+ b))
        with (String c (a +:+ stem) +:+ (String o "" +:+ b)).
      - rewrite HasPrefix_longer; [exact Hhere|].
        rewrite Hold. cbn [String.length].
        rewrite !length_append. cbn [String.length]. lia.
      - cbn [append]. f_equal. rewrite Hold, !append_assoc. reflexivity. }
    cbn [negb]. rewrite orb_true_r. now rewrite IH.
Qed.

(** ** Who is let through *)

Lemma grants_contains (granted scope : string) :
  contains (strings.Split granted " ") scope = true <-> grants granted scope.
Proof.
  rewrite contains_In. unfold strings.Split. split.
  - intros Hin. apply list_elem_of_split in Hin as (before & after & Hsplit).
    exists before, after. rewrite <- Hsplit. split.
    + now rewrite Join_split.
    + now apply split_spaceFree.
  - intros (before & after & -> & Hfree).
    destruct (before ++ scope :: after) as [|e l] eqn:Hl;
      [now destruct before|].
    inversion Hfree as [|? ? He Hl']; subst.
    rewrite (split_Join e l "" He Hl'). cbn [append].
    rewrite <- Hl. apply elem_of_app. right. left.
Qed.

Lemma grants_spaceFree (granted scope : string) :
  grants granted scope -> spaceFree scope.
Proof.
  intros (before & after & _ & Hfree).
  apply Forall_app in Hfree as [_ Hfree]. now inversion Hfree.
Qed.

Ltac unfold_WithScope := unfold WithScope.

Section ScopeProperties.

Variable T : Type.
Variable Reader : Type.
Variable ResponseWriter : Type.
Variable WriteHeader : ResponseWriter -> Z -> M T unit.
Variable VerifyToken : string -> M T (result Token).

Abbreviation WithScope :=
  (WithScope T Reader ResponseWriter WriteHeader VerifyToken).

(** X21. WithScope hands the request to the next handler exactly when
    the token verifies and the required scope is one of the words of
    the token's Scope, the words being what single spaces separate.
    A token that does not verify is answered 401 and a token without
    the scope 403, the next handler not being run; a required scope
    that has a space in it is granted by no token. *)
Theorem X21_WithScope_lets_through
    (next : Handler T Reader ResponseWriter) (scope : string)
    (w : ResponseWriter) (r : http.Request Reader) (s0 : Store T) :
  let token :=
    strings.Replace (http.Get (http.Headers r) "Authorization")
      "Bearer " "" 1 in
  let v := fst (VerifyToken token s0) in
  let s1 := snd (VerifyToken token s0) in
  (forall e, v = Err e ->
             WithScope next scope w r s0 = WriteHeader w 401 s1)
  /\ (forall t,
         v = Ok t ->
         (grants (Scope (claims t)) scope ->
          WithScope next scope w r s0 = next w r s1)
         /\ (~ grants (Scope (claims t)) scope ->
             WithScope next scope w r s0 = WriteHeader w 403 s1)
         /\ (strings.contains scope " "%char = true ->
             WithScope next scope w r s0 = WriteHeader w 403 s1)).
Proof.
  intros token v s1. subst v s1. unfold_WithScope.
  fold token. unfold mbind, M_bind.
  destruct (VerifyToken token s0) as [[t|err] s1]; cbn [fst snd].
  - split; [discriminate|]. intros t' [= <-].
    destruct (contains (strings.Split (Scope (claims t)) " ") scope)
      eqn:Hc; cbn [negb].
    + apply grants_contains in Hc. split; [reflexivity|]. split.
      * intros Hnot. now destruct Hnot.
      * intros Hspace. apply grants_spaceFree in Hc.
        unfold spaceFree in Hc. congruence.
    + split; [|split; reflexivity].
      intros Hgr. apply grants_contains in Hgr. congruence.
  - split; [reflexivity | discriminate].
Qed.

(** X20. The token WithScope has verified is the Authorization
    header with its first ["Bearer "] taken out, wherever that stands:
    for a header ["Bearer " + t] the handler answers as the
    verification of [t] decides; for a header in which ["Bearer "]
    first occurs after some text [a], as that of [a] followed by the
    rest decides; and for a header without ["Bearer "], as that of the
    whole header decides, so that a token sent without the scheme is
    verified all the same. *)
Theorem X20_bearer_prefix
    (next : Handler T Reader ResponseWriter) (scope : string)
    (w : ResponseWriter) (r : http.Request Reader) (s0 : Store T) :
  let header := http.Get (http.Headers r) "Authorization" in
  let decided (token : string) :=
    let (v, s1) := VerifyToken token s0 in
    match v with
    | Err _ => WriteHeader w 401 s1
    | Ok t =>
        if contains (strings.Split (Scope (claims t)) " ") scope
        then next w r s1
        else WriteHeader w 403 s1
    end in
  (forall t,
      header = "Bearer " +:+ t ->
      WithScope next scope w r s0 = decided t)
  /\ (forall a t,
         header = a +:+ "Bearer " +:+ t ->
         occurs "Bearer " (a +:+ "Bearer") = false ->
         WithScope next scope w r s0 = decided (a +:+ t))
  /\ (occurs "Bearer " header = false ->
      WithScope next scope w r s0 = decided header).
Proof.
  intros header decided.
  assert (forall token,
             strings.Replace header "Bearer " "" 1 = token ->
             WithScope next scope w r s0 = decided token) as Hdecided.
  { intros token Htoken. unfold_WithScope. fold header. rewrite Htoken.
    unfold decided, mbind, M_bind.
    destruct (VerifyToken token s0) as [[t|err] s1]; [|reflexivity].
    now destruct (contains (strings.Split (Scope (claims t)) " ") scope). }
  split; [|split].
  - intros t ->. apply Hdecided.
    apply (Replace_at_start "Bearer " "" t). discriminate.
  - intros a t -> Hocc. apply Hdecided.
    now apply (Replace_first a "Bearer " "" t " "%char "Bearer").
  - intros Hocc. apply Hdecided. now apply Replace_absent.
Qed.

End ScopeProperties.

Lemma X20_bearer_prefix_witness :
  let WriteHeader := fun (_ : unit) (status : Z) (s : Store (list string)) =>
                       (tt, mkStore (self s ++ [fmt.d status]) (world s)) in
  let VerifyToken := fun (tokenString : string) (s : Store (list string)) =>
                       (Err (errorString "no such token"),
                        mkStore (self s ++ [tokenString]) (world s)) in
  let next := fun (_ : unit) (_ : http.Request unit)
                  (s : Store (list string)) => (tt, s) in
  let r := http.mkRequest "GET" "/things"
             {[ "Authorization" := ["abc.def.ghi"] ]} tt in
  WithScope (list string) unit unit WriteHeader VerifyToken next "read:things"
    tt r (mkStore [] Fixture.start)
  = (tt, mkStore ["abc.def.ghi"; "401"] Fixture.start).
Proof.
  intros WriteHeader VerifyToken next r.
  destruct (X20_bearer_prefix (list string) unit unit WriteHeader VerifyToken
              next "read:things" tt r (mkStore [] Fixture.start))
    as (_ & _ & Hwhole).
  rewrite Hwhole; reflexivity.
Defined.

Lemma X21_WithScope_lets_through_witness :
  let WriteHeader := fun (_ : unit) (status : Z) (s : Store (list Z)) =>
                       (tt, mkStore (self s ++ [status]) (world s)) in
  let VerifyToken := fun (tokenString : string) (s : Store (list Z)) =>
                       (Ok (mkToken tokenString
                              (Fixture.claimsFor [Fixture.svcB]
                                 Fixture.goodIssuer) None), s) in
  let next := fun (_ : unit) (_ : http.Request unit) (s : Store (list Z)) =>
                (tt, mkStore (self s ++ [200]) (world s)) in
  let r := http.mkRequest "GET" "/things"
             {[ "Authorization" := ["Bearer abc"] ]} tt in
  WithScope (list Z) unit unit WriteHeader VerifyToken next "read:things" tt r
    (mkStore [] Fixture.start)
  = (tt, mkStore [200] Fixture.start)
  /\ WithScope (list Z) unit unit WriteHeader VerifyToken next "read things"
       tt r (mkStore [] Fixture.start)
     = (tt, mkStore [403] Fixture.start).
Proof.
  intros WriteHeader VerifyToken next r.
  destruct (X21_WithScope_lets_through (list Z) unit unit WriteHeader
              VerifyToken next "read:things" tt r (mkStore [] Fixture.start))
    as (_ & Hok).
  destruct (X21_WithScope_lets_through (list Z) unit unit WriteHeader
              VerifyToken next "read things" tt r (mkStore [] Fixture.start))
    as (_ & Hspace).
  split.
  - refine (proj1 (Hok _ eq_refl) _).
    exists [], []. split; [reflexivity|]. repeat constructor.
  - refine (proj2 (proj2 (Hspace _ eq_refl)) _). reflexivity.
Defined.

Lemma X4_GetToken_touches_one_entry_witness :
  tokenEntry
    (self (snd (run (Granter.GetToken (Fixture.respond 500 "" 0)
                       Fixture.jsonMarshal Fixture.decodeToken "https://svc-c")
                  (Fixture.holding 2000) Fixture.start)))
    Fixture.svcB
  = tokenEntry (Fixture.holding 2000) Fixture.svcB.
Proof.
  destruct (X4_GetToken_touches_one_entry (Fixture.respond 500 "" 0)
              Fixture.jsonMarshal Fixture.decodeToken (Fixture.holding 2000)
              Fixture.start "https://svc-c") as (_ & Hother & _).
  apply Hother. discriminate.
Defined.

Lemma X9_writePublicKey_then_readPublicKey_witness :
  let v := Verifier.withCache (Fixture.verifier 200)
             (Some {[ "key-0" :=
                        Verifier.mkKeyCache (mkPublicKey 77 3) 2000 ]}) in
  fst (run (Verifier.readPublicKey "key-0")
         (self (snd (run (Verifier.writePublicKey "key-1" Fixture.signingKey)
                       v Fixture.start)))
         Fixture.start)
  = fst (run (Verifier.readPublicKey "key-0") v Fixture.start).
Proof.
  intros v.
  destruct (X9_writePublicKey_then_readPublicKey v Fixture.start
              Fixture.start "key-1" Fixture.signingKey) as (_ & Hother & _).
  apply Hother. discriminate.
Defined.

Lemma X11_getKey_touches_one_entry_witness :
  let v := Verifier.withCache (Fixture.verifier 200)
             (Some {[ "key-0" :=
                        Verifier.mkKeyCache (mkPublicKey 77 3) 2000 ]}) in
  keyEntry
    (self (snd (run (Verifier.getKey (Fixture.respond 500 "" 0)
                       Fixture.decodeKeys Fixture.parsePEM "key-1")
                  v Fixture.start)))
    "key-0"
  = keyEntry v "key-0".
Proof.
  intros v.
  destruct (X11_getKey_touches_one_entry (Fixture.respond 500 "" 0)
              Fixture.decodeKeys Fixture.parsePEM v Fixture.start "key-1")
    as (_ & Hother & _).
  apply Hother. discriminate.
Defined.

Lemma X15_RawClaims_computed_once_witness :
  let parse := fun _ : string =>
                 Ok ({[ "sub" := json.Str "client-a" ]}
                     : gmap string json.Value) in
  let parse' := fun _ : string =>
                  (Err (errorString "token contains an invalid number of segments")
                   : result (gmap string json.Value)) in
  let t := mkToken "raw" (Fixture.claimsFor [Fixture.svcB] Fixture.goodIssuer)
             None in
  RawClaims parse' (snd (RawClaims parse t))
  = (Ok {[ "sub" := json.Str "client-a" ]}, snd (RawClaims parse t)).
Proof.
  intros parse parse' t.
  destruct (X15_RawClaims_computed_once parse parse' t) as (_ & _ & Hmemo & _).
  apply Hmemo. vm_compute. reflexivity.
Defined.

Lemma X17_UnmarshalJSON_accepts_witness :
  UnmarshalJSON (json.Text (json.Number "5"))
  = Err (json.UnmarshalTypeError "number" "[]string")
  /\ UnmarshalJSON
       (json.Text (json.Array [json.Str "https://svc-a"; json.Null]))
     = Ok (Some ["https://svc-a"; ""]).
Proof.
  split.
  - destruct (X17_UnmarshalJSON_accepts (json.Text (json.Number "5")) None)
      as (_ & Hrefused & _).
    apply (Hrefused (json.Number "5") eq_refl). right; left. now exists "5".
  - destruct (X17_UnmarshalJSON_accepts
                (json.Text (json.Array [json.Str "https://svc-a"; json.Null]))
                (Some ["https://svc-a"; ""])) as (Hiff & _).
    apply Hiff. right; right. eexists _, _. split; [reflexivity|].
    split; [reflexivity|].
    constructor; [now left|]. constructor; [now right|]. constructor.
Defined.

Lemma X18_NewRequestFunc_witness :
  let NewRequest := fun (method url : string) (body : unit) =>
                      Ok (http.mkRequest method url
                            {[ "Accept" := ["application/json"] ]} body) in
  exists req,
    fst (run (NewRequestFunc (Fixture.respond 500 "" 0) Fixture.jsonMarshal
                Fixture.decodeToken unit NewRequest Fixture.svcB "GET"
                "https://svc-b/things" tt)
           (Fixture.granter 200) Fixture.start)
    = Ok req
    /\ http.Values (http.Headers req) "Authorization" = ["Bearer tok1"]
    /\ http.Values (http.Headers req) "Accept" = ["application/json"].
Proof.
  intros NewRequest.
  destruct (X18_NewRequestFunc (Fixture.respond 500 "" 0) Fixture.jsonMarshal
              Fixture.decodeToken unit NewRequest (Fixture.granter 200)
              Fixture.start Fixture.svcB "GET" "https://svc-b/things" tt)
    as (_ & _ & Hreq).
  eexists. split; [vm_compute; reflexivity|].
  edestruct Hreq as (tc & r0 & Htc & Hr0 & _ & _ & _ & Hauth & Hother);
    [vm_compute; reflexivity|].
  split; vm_compute; reflexivity.
Defined.

Lemma X19_NewRoundTripper_witness :
  let transport := fun (request : http.Request unit) (s : Store Granter.t) =>
                     (Ok (mkResponse 204 ""), s) in
  let request := http.mkRequest "GET" "https://svc-b/things"
                   {[ "Authorization" := ["Bearer old"] ]} tt in
  exists RoundTrip,
    NewRoundTripper (Fixture.respond 500 "" 0) Fixture.jsonMarshal
      Fixture.decodeToken unit transport this Fixture.svcB None
    = Returns RoundTrip
    /\ http.Get
         (http.Headers
            (snd (fst (run (RoundTrip request) (Fixture.granter 200)
                         Fixture.start))))
         "Authorization"
       = "Bearer old".
Proof.
  intros transport request.
  destruct (X19_NewRoundTripper (Fixture.respond 500 "" 0) Fixture.jsonMarshal
              Fixture.decodeToken unit transport None (Fixture.granter 200)
              Fixture.start Fixture.svcB request)
    as (_ & RoundTrip & Hbuilt & _ & Hok).
  exists RoundTrip. split; [exact Hbuilt|].
  destruct (Hok "tok1") as (Hrun & _ & Hfirst); [vm_compute; reflexivity|].
  rewrite Hrun. cbn [fst snd].
  apply (Hfirst "Bearer old" []). reflexivity.
Defined.

(** ** The proxy handler *)

Section ProxyProperties.

Variable Reader : Type.
Variable URL : Type.
Variable Parse : string -> result URL.
Variable URLString : URL -> string.
Variable NewRequest :
  string -> string -> Reader -> result (http.Request Reader).
Variable CanonicalMIMEHeaderKey : string -> string.
Variable upstream : http.Request Reader -> result Response.

Abbreviation proxyHandler :=
  (main.proxyHandler Reader URL Parse URLString NewRequest
     CanonicalMIMEHeaderKey upstream).


End ProxyProperties.

(** ** The headers the proxy passes on *)

Lemma Values_Set (h : http.Header) (key value other : string) :
  http.Values (http.Set' h key value) other
  = if decide (key = other) then [value] else http.Values h other.
Proof.
  unfold http.Values, http.Set', http.Header in *. rewrite lookup_insert.
  now destruct (decide (key = other)).
Qed.

(** Adding values under one key appends them there, in order. *)
Lemma Values_Add_all (values : list string) (h : http.Header)
    (key other : string) :
  http.Values (fold_left (fun h v => http.Add h key v) values h) other
  = if decide (key = other) then http.Values h other ++ values
    else http.Values h other.
Proof.
  revert h. induction values as [|v values IH]; intros h; cbn [fold_left].
  - destruct (decide (key = other)); [now rewrite app_nil_r | reflexivity].
  - rewrite IH, Values_Add. destruct (decide (key = other)) as [->|];
      [now rewrite <- app_assoc | reflexivity].
Qed.

Section CopyHeader.

Variable CanonicalMIMEHeaderKey : string -> string.

Abbreviation copyHeader := (main.copyHeader CanonicalMIMEHeaderKey).

(** With keys in canonical form, no two the same, the loop appends the
    values of each key to those the target has. *)
Lemma copyHeader_Values (ranged : list (string * list string))
    (h : http.Header) (key : string) :
  NoDup ranged.*1 ->
  (forall k, k ∈ ranged.*1 -> CanonicalMIMEHeaderKey k = k) ->
  http.Values (copyHeader ranged h) key
  = http.Values h key
    ++ http.Values (list_to_map ranged) key.
Proof.
  revert h. induction ranged as [|[k values] ranged IH]; intros h Hnodup Hcanon.
  - unfold main.copyHeader. cbn [fold_left list_to_map foldr].
    unfold http.Values at 3. unfold http.Header.
    rewrite lookup_empty. cbn [default from_option id]. now rewrite app_nil_r.
  - cbn [fmap list_fmap fst] in Hnodup. apply NoDup_cons in Hnodup as [Hk Hnodup].
    unfold main.copyHeader. cbn [fold_left].
    fold (copyHeader ranged
            (fold_left (fun h v => http.Add h (CanonicalMIMEHeaderKey k) v)
               values h)).
    rewrite IH; [|exact Hnodup|].
    2:{ intros k' Hk'. apply Hcanon. cbn. now right. }
    rewrite Values_Add_all, (Hcanon k) by (cbn; left).
    cbn [list_to_map foldr fst snd uncurry].
    replace (http.Values (<[k:=values]> (list_to_map ranged)) key)
      with (if decide (k = key) then values
            else http.Values (list_to_map ranged) key).
    2:{ unfold http.Values, http.Header in *.
        rewrite lookup_insert. now destruct (decide (k = key)). }
    destruct (decide (k = key)) as [->|Hne]; [|reflexivity].
    replace (http.Values (list_to_map ranged) key) with ([] : list string).
    + now rewrite app_nil_r.
    + unfold http.Values, http.Header.
      now rewrite (not_elem_of_list_to_map_1 _ _ Hk).
Qed.

End CopyHeader.

Section ForwardedHeaders.

Variable Reader : Type.
Variable URL : Type.
Variable Parse : string -> result URL.
Variable URLString : URL -> string.
Variable NewRequest :
  string -> string -> Reader -> result (http.Request Reader).
Variable CanonicalMIMEHeaderKey : string -> string.
Variable upstream : http.Request Reader -> result Response.

Abbreviation proxyHandler :=
  (main.proxyHandler Reader URL Parse URLString NewRequest
     CanonicalMIMEHeaderKey upstream).

(** X23. When the proxy URL parses and the request can be made, the
    handler sends one request, the one [http.NewRequest] made of the
    incoming method, the configured URL and the incoming body, with
    these headers: for every key the values the new request had, then
    the values of the incoming request in their order, except that
    [Host] starts with the incoming host alone and [X-Forwarded-For]
    with the remote address alone.  So the first X-Forwarded-For value
    the upstream sees is the remote address, whatever the client sent
    under that key, and the request sent does not depend on the order
    in which the loop meets the incoming headers.  The keys of the
    incoming request are taken to be in canonical form, as those of a
    request read by the server are. *)
Theorem X23_proxyHandler_forwards_headers
    (h : main.handler) (ranged : list (string * list string))
    (r : main.Request Reader) (url : URL) (proxyReq : http.Request Reader) :
  Parse (main.optionProxyURL h) = Ok url ->
  NewRequest (main.Method r) (URLString url) (main.Body r) = Ok proxyReq ->
  ranged ≡ₚ map_to_list (main.Header r) ->
  (forall key, is_Some (main.Header r !! key) ->
               CanonicalMIMEHeaderKey key = key) ->
  CanonicalMIMEHeaderKey "Host" = "Host" ->
  CanonicalMIMEHeaderKey "X-Forwarded-For" = "X-Forwarded-For" ->
  exists req,
    main.sent (main.calls (proxyHandler h ranged r)) = [req]
    /\ http.Method req = http.Method proxyReq
    /\ http.URL req = http.URL proxyReq
    /\ http.Body req = http.Body proxyReq
    /\ (forall key,
           http.Values (http.Headers req) key
           = (if decide (key = "Host") then [main.Host r]
              else if decide (key = "X-Forwarded-For")
                   then [main.RemoteAddr r]
                   else http.Values (http.Headers proxyReq) key)
             ++ http.Values (main.Header r) key)
    /\ http.Get (http.Headers req) "Host" = main.Host r
    /\ http.Get (http.Headers req) "X-Forwarded-For" = main.RemoteAddr r.
Proof.
  intros Hparse Hnew Hranged Hcanon Hhost Hxff.
  assert (NoDup ranged.*1) as Hnodup.
  { rewrite Hranged. apply NoDup_fst_map_to_list. }
  assert ((list_to_map ranged : gmap string (list string)) = main.Header r)
    as Hmap.
  { transitivity (list_to_map (map_to_list (main.Header r))
                  : gmap string (list string)).
    - now apply list_to_map_proper.
    - apply list_to_map_to_list. }
  assert (forall k, k ∈ ranged.*1 -> CanonicalMIMEHeaderKey k = k) as Hkeys.
  { intros k Hk. apply Hcanon. rewrite <- Hmap.
    apply list_elem_of_fmap in Hk as ([k' values] & -> & Hin).
    exists values. now apply elem_of_list_to_map_1. }
  set (header :=
         main.copyHeader CanonicalMIMEHeaderKey ranged
           (http.Set' (http.Set' (http.Headers proxyReq) "Host" (main.Host r))
              "X-Forwarded-For" (main.RemoteAddr r))).
  assert (forall key,
             http.Values header key
             = (if decide (key = "Host") then [main.Host r]
                else if decide (key = "X-Forwarded-For")
                     then [main.RemoteAddr r]
                     else http.Values (http.Headers proxyReq) key)
               ++ http.Values (main.Header r) key) as Hvalues.
  { intros key. unfold header.
    rewrite (copyHeader_Values _ _ _ key Hnodup Hkeys).
    change (http.Values (list_to_map ranged) key)
      with (http.Values (list_to_map ranged : gmap string (list string)) key).
    rewrite Hmap, !Values_Set.
    destruct (decide ("X-Forwarded-For" = key)) as [<-|Hne1].
    - reflexivity.
    - destruct (decide ("Host" = key)) as [<-|Hne2].
      + reflexivity.
      + destruct (decide (key = "Host")); [congruence|].
        destruct (decide (key = "X-Forwarded-For")); [congruence|].
        reflexivity. }
  exists (http.withHeaders proxyReq header).
  split.
  { unfold main.calls, main.proxyHandler, main.sendError, run.
    rewrite Hparse, Hnew, Hhost, Hxff. cbv zeta. fold header.
    destruct (upstream (http.withHeaders proxyReq header)) as [resp|err];
      [destruct ((StatusCode resp <? 200) || (StatusCode resp >=? 300))|];
      unfold mbind, M_bind, main.call; reflexivity. }
  split; [reflexivity|]. split; [reflexivity|]. split; [reflexivity|].
  split; [exact Hvalues|].
  unfold http.Get. cbn [http.Headers http.withHeaders].
  rewrite !Hvalues. split; reflexivity.
Qed.

End ForwardedHeaders.

(** ** The status the middleware records *)

Section WriterProperties.

Variable T H C : Type.

(** Whatever a handler does behind a pointer to a [logResponseWriter],
    it leaves the [logResponseWriter] as it found it. *)
Lemma logResponseWriter_kept (p : mw.Program T H C)
    (cell : mw.logResponseWriter.t T H C) (s : Store T) :
  fst (snd (mw.ServeHTTP mw.logResponseWriter.methods p (cell, s))) = cell.
Proof.
  revert s.
  induction p as [|v|k IH|status k IH|b k IH|k IH|k IH|k IH|X m k IH];
    intros s; cbn [mw.ServeHTTP]; try reflexivity; try apply IH;
    unfold mw.andThen;
    cbn [mw.callHeader mw.callWriteHeader mw.callWrite mw.callFlush
         mw.callCloseNotify mw.elsewhere mw.logResponseWriter.methods
         mw.logResponseWriter.byValue].
  - unfold mw.logResponseWriter.Header.
    destruct (mw.Header (mw.logResponseWriter.w cell) s) as [[h|v] s'];
      [apply IH | reflexivity].
  - unfold mw.logResponseWriter.WriteHeader.
    cbn [mw.logResponseWriter.w].
    destruct (mw.WriteHeader (mw.logResponseWriter.w cell) status s)
      as [[[]|v] s']; [apply IH | reflexivity].
  - unfold mw.logResponseWriter.Write.
    destruct (mw.Write (mw.logResponseWriter.w cell) b s) as [[n|v] s'];
      [apply IH | reflexivity].
  - unfold mw.logResponseWriter.Flush.
    destruct (mw.asserted "http.Flusher"
                (mw.Flusher (mw.logResponseWriter.w cell)) s)
      as [[[]|v] s']; [apply IH | reflexivity].
  - unfold mw.logResponseWriter.CloseNotify.
    destruct (mw.asserted "http.CloseNotifier"
                (mw.CloseNotifier (mw.logResponseWriter.w cell)) s)
      as [[c|v] s']; [apply IH | reflexivity].
  - destruct (m s) as [[x|v] s']; [apply IH | reflexivity].
Qed.

Lemma prometheusResponseWriter_kept (p : mw.Program T H C)
    (cell : mw.prometheusResponseWriter.t T H C) (s : Store T) :
  fst (snd (mw.ServeHTTP mw.prometheusResponseWriter.methods p (cell, s)))
  = cell.
Proof.
  revert s.
  induction p as [|v|k IH|status k IH|b k IH|k IH|k IH|k IH|X m k IH];
    intros s; cbn [mw.ServeHTTP]; try reflexivity; try apply IH;
    unfold mw.andThen;
    cbn [mw.callHeader mw.callWriteHeader mw.callWrite mw.callFlush
         mw.callCloseNotify mw.elsewhere mw.prometheusResponseWriter.methods
         mw.prometheusResponseWriter.byValue].
  - unfold mw.prometheusResponseWriter.Header.
    destruct (mw.Header (mw.prometheusResponseWriter.w cell) s)
      as [[h|v] s']; [apply IH | reflexivity].
  - unfold mw.prometheusResponseWriter.WriteHeader.
    cbn [mw.prometheusResponseWriter.w].
    destruct (mw.WriteHeader (mw.prometheusResponseWriter.w cell) status s)
      as [[[]|v] s']; [apply IH | reflexivity].
  - unfold mw.prometheusResponseWriter.Write.
    destruct (mw.Write (mw.prometheusResponseWriter.w cell) b s)
      as [[n|v] s']; [apply IH | reflexivity].
  - unfold mw.prometheusResponseWriter.Flush.
    destruct (mw.asserted "http.Flusher"
                (mw.Flusher (mw.prometheusResponseWriter.w cell)) s)
      as [[[]|v] s']; [apply IH | reflexivity].
  - unfold mw.prometheusResponseWriter.CloseNotify.
    destruct (mw.asserted "http.CloseNotifier"
                (mw.CloseNotifier (mw.prometheusResponseWriter.w cell)) s)
      as [[c|v] s']; [apply IH | reflexivity].
  - destruct (m s) as [[x|v] s']; [apply IH | reflexivity].
Qed.

Variable Request : Type.
Variable Method : Request -> string.
Variable RequestURI : Request -> string.
Variable Path : Request -> string.
Variable Any : Type.
Variable requestID : Request -> Any.
Variable Time : Type.
Variable Duration : Type.
Variable Now : M T Time.
Variable Since : Time -> M T Duration.

(** X24. The status WithLog logs is 200 whatever the handler does:
    whatever statuses it writes, whatever it finds out about the type
    of the writer it was given, whatever else it does.  The methods of
    logResponseWriter have value receivers, so the status WriteHeader
    records is recorded in a copy: a call of WriteHeader through the
    pointer passes the status on to the underlying writer and leaves
    the logResponseWriter as it was.  When the handler returns, the one
    record logged carries the status 200 beside the method, the URI,
    the request id and the duration; a handler that panics is not
    logged. *)
Theorem X24_WithLog_logs_200
    (next : Request -> mw.Program T H C)
    (l : mw.Logger T Any Duration)
    (w : mw.ResponseWriter T H C) (r : Request) (s : Store T) :
  mw.WithLog T H C Request Method RequestURI Any requestID Time Duration
    Now Since next l w r s
  = (let (start, s1) := Now s in
     let '(served, (_, s2)) :=
       mw.ServeHTTP mw.logResponseWriter.methods (next r)
         (mw.logResponseWriter.mk w 200, s1) in
     match served with
     | Panics v => (Panics v, s2)
     | Returns _ =>
         let (dur, s3) := Since start s2 in
         let (_, s4) :=
           l [mw.Str "level"; mw.Str "info";
              mw.Str "msg"; mw.Str "incoming request";
              mw.Str "requestId"; mw.Val (requestID r);
              mw.Str "method"; mw.Str (Method r);
              mw.Str "uri"; mw.Str (RequestURI r);
              mw.Str "status"; mw.Int 200;
              mw.Str "dur"; mw.Dur dur] s3 in
         (Returns tt, s4)
     end)
  /\ forall (status : Z) (cell : mw.logResponseWriter.t T H C)
            (s' : Store T),
       mw.callWriteHeader mw.logResponseWriter.methods status (cell, s')
       = let (res, s'') :=
           mw.WriteHeader (mw.logResponseWriter.w cell) status s' in
         (res, (cell, s'')).
Proof.
  split.
  - unfold mw.WithLog. destruct (Now s) as [start s1].
    pose proof (logResponseWriter_kept (next r)
                  (mw.logResponseWriter.mk w StatusOK) s1) as Hkept.
    change (mw.logResponseWriter.mk w 200)
      with (mw.logResponseWriter.mk w StatusOK).
    destruct (mw.ServeHTTP mw.logResponseWriter.methods (next r)
                (mw.logResponseWriter.mk w StatusOK, s1))
      as [served [lw s2]].
    cbn [fst snd] in Hkept. subst lw. reflexivity.
  - intros status cell s'.
    cbn [mw.callWriteHeader mw.logResponseWriter.methods
         mw.logResponseWriter.byValue].
    unfold mw.logResponseWriter.WriteHeader. cbn [mw.logResponseWriter.w].
    now destruct (mw.WriteHeader (mw.logResponseWriter.w cell) status s').
Qed.

Variable float64 : Type.
Variable millisecondsSince : Time -> M T float64.
Variable Inc : gmap string string -> M T unit.
Variable Observe : gmap string string -> float64 -> M T unit.

(** X25. The status label of both metrics of WithPrometheus is "200"
    whatever the handler does, for the same reason: a call of
    WriteHeader through the pointer passes the status on to the
    underlying writer and leaves the prometheusResponseWriter as it
    was.  When the handler returns, the counter is incremented and
    then the latency observed under the method, the path and the
    status "200"; a handler that panics is not counted. *)
Theorem X25_WithPrometheus_counts_200
    (next : Request -> mw.Program T H C)
    (w : mw.ResponseWriter T H C) (r : Request) (s : Store T) :
  mw.WithPrometheus T H C Request Method Path Time float64 Now
    millisecondsSince Inc Observe next w r s
  = (let (start, s1) := Now s in
     let '(served, (_, s2)) :=
       mw.ServeHTTP mw.prometheusResponseWriter.methods (next r)
         (mw.prometheusResponseWriter.mk w 200, s1) in
     match served with
     | Panics v => (Panics v, s2)
     | Returns _ =>
         let labels : gmap string string :=
           {[ "method" := Method r; "path" := Path r; "status" := "200" ]} in
         let (_, s3) := Inc labels s2 in
         let (v, s4) := millisecondsSince start s3 in
         let (_, s5) := Observe labels v s4 in
         (Returns tt, s5)
     end)
  /\ forall (status : Z) (cell : mw.prometheusResponseWriter.t T H C)
            (s' : Store T),
       mw.callWriteHeader mw.prometheusResponseWriter.methods status
         (cell, s')
       = let (res, s'') :=
           mw.WriteHeader (mw.prometheusResponseWriter.w cell) status s' in
         (res, (cell, s'')).
Proof.
  split.
  - unfold mw.WithPrometheus. destruct (Now s) as [start s1].
    pose proof (prometheusResponseWriter_kept (next r)
                  (mw.prometheusResponseWriter.mk w StatusOK) s1) as Hkept.
    change (mw.prometheusResponseWriter.mk w 200)
      with (mw.prometheusResponseWriter.mk w StatusOK).
    destruct (mw.ServeHTTP mw.prometheusResponseWriter.methods (next r)
                (mw.prometheusResponseWriter.mk w StatusOK, s1))
      as [served [pw s2]].
    cbn [fst snd] in Hkept. subst pw. reflexivity.
  - intros status cell s'.
    cbn [mw.callWriteHeader mw.prometheusResponseWriter.methods
         mw.prometheusResponseWriter.byValue].
    unfold mw.prometheusResponseWriter.WriteHeader.
    cbn [mw.prometheusResponseWriter.w].
    now destruct (mw.WriteHeader (mw.prometheusResponseWriter.w cell)
                    status s').
Qed.

End WriterProperties.


Lemma X23_proxyHandler_forwards_headers_witness :
  let NewRequest := fun (method url : string) (body : unit) =>
                      Ok (http.mkRequest method url ∅ body) in
  let upstream := fun _ : http.Request unit => Ok (mkResponse 204 "") in
  let r := main.mkRequest "POST" "api.example.com" "10.0.0.7:4711"
             ({[ "X-Forwarded-For" := ["1.2.3.4"] ]} : http.Header) tt in
  exists req,
    main.sent
      (main.calls
         (main.proxyHandler unit string Ok id NewRequest id upstream
            (main.mkHandler "https://upstream.example.com/hook")
            (map_to_list (main.Header r)) r))
    = [req]
    /\ http.URL req = "https://upstream.example.com/hook"
    /\ http.Values (http.Headers req) "X-Forwarded-For"
       = ["10.0.0.7:4711"; "1.2.3.4"].
Proof.
  intros NewRequest upstream r.
  destruct (X23_proxyHandler_forwards_headers unit string Ok id NewRequest id
              upstream (main.mkHandler "https://upstream.example.com/hook")
              (map_to_list (main.Header r)) r
              "https://upstream.example.com/hook"
              (http.mkRequest "POST" "https://upstream.example.com/hook" ∅ tt))
    as (req & Hsent & _ & Hurl & _ & Hvalues & _);
    [reflexivity | reflexivity | reflexivity | reflexivity | reflexivity
    | reflexivity |].
  exists req. split; [exact Hsent|]. split; [exact Hurl|].
  rewrite Hvalues. vm_compute. reflexivity.
Defined.

Lemma X24_WithLog_logs_200_witness :
  let w : mw.ResponseWriter (list Z) unit unit :=
    mw.mkResponseWriter (list Z) unit unit
      (fun s => (Returns tt, s))
      (fun status s => (Returns tt, mkStore (self s ++ [status]) (world s)))
      (fun b s => (Returns (0, None), s))
      None None in
  let next := fun _ : string =>
                mw.Inspect
                  (fun d =>
                     if bool_decide ("Flush" ∈ mw.MethodNames d)
                     then mw.CallWriteHeader 404 mw.Return
                     else (mw.Return : mw.Program (list Z) unit unit)) in
  let l : mw.Logger (list Z) unit unit :=
    fun keyvals s =>
      (None,
       mkStore (self s ++ match keyvals !! 11%nat with
                          | Some (mw.Int n) => [n]
                          | _ => []
                          end) (world s)) in
  mw.WithLog (list Z) unit unit string id id unit (fun _ => tt) unit unit
    (fun s => (tt, s)) (fun _ s => (tt, s)) next l w "/missing"
    (mkStore [] Fixture.start)
  = (Returns tt, mkStore [404; 200] Fixture.start).
Proof.
  intros w next l.
  rewrite (proj1 (X24_WithLog_logs_200 (list Z) unit unit string id id unit
                    (fun _ => tt) unit unit (fun s => (tt, s))
                    (fun _ s => (tt, s)) next l w "/missing"
                    (mkStore [] Fixture.start))).
  vm_compute. reflexivity.
Defined.

Lemma X25_WithPrometheus_counts_200_witness :
  let w : mw.ResponseWriter (list string) unit unit :=
    mw.mkResponseWriter (list string) unit unit
      (fun s => (Returns tt, s))
      (fun status s =>
         (Returns tt, mkStore (self s ++ [fmt.d status]) (world s)))
      (fun b s => (Returns (0, None), s))
      None None in
  let next := fun _ : string =>
                mw.CallWriteHeader 500
                  (mw.Return : mw.Program (list string) unit unit) in
  let Inc := fun (labels : gmap string string) (s : Store (list string)) =>
               (tt, mkStore (self s ++ [default "" (labels !! "status")])
                      (world s)) in
  mw.WithPrometheus (list string) unit unit string id id unit unit
    (fun s => (tt, s)) (fun _ s => (tt, s)) Inc (fun _ _ s => (tt, s))
    next w "/broken" (mkStore [] Fixture.start)
  = (Returns tt, mkStore ["500"; "200"] Fixture.start).
Proof.
  intros w next Inc.
  rewrite (proj1 (X25_WithPrometheus_counts_200 (list string) unit unit
                    string id id unit (fun s => (tt, s)) unit
                    (fun _ s => (tt, s)) Inc (fun _ _ s => (tt, s)) next w
                    "/broken" (mkStore [] Fixture.start))).
  vm_compute. reflexivity.
Defined.

(** ** Trailing slashes of the tenant URL, in the calls *)

Section TrailingSlashes.

Variable defaultHTTPClient : Client.
Variable jsonMarshal : gmap string string -> string.
Variable jsonDecode : string -> result Granter.accessTokenResponse.
Variable decodeKeys : string -> result (list Verifier.jwk).
Variable ParseRSAPublicKeyFromPEM : string -> result PublicKey.

Abbreviation GetToken :=
  (Granter.GetToken defaultHTTPClient jsonMarshal jsonDecode).
Abbreviation getKey :=
  (Verifier.getKey defaultHTTPClient decodeKeys ParseRSAPublicKeyFromPEM).
Abbreviation keyFunc :=
  (Verifier.keyFunc defaultHTTPClient decodeKeys ParseRSAPublicKeyFromPEM).

(** The granter [g] with [n] slashes more at the end of its tenant
    URL, and the verifier [v] likewise. *)
Abbreviation slashedGranter g n :=
  (Granter.mk (Granter.ClientID g) (Granter.ClientSecret g)
     (Granter.TenantURL g +:+ strings.Repeat "/" n)
     (Granter.HTTPClient g) (Granter.ExpirationMargin g) (Granter.cache g)).

Abbreviation slashedVerifier v n :=
  (Verifier.mk (Verifier.Resource v)
     (Verifier.TenantURL v +:+ strings.Repeat "/" n)
     (Verifier.HTTPClient v) (Verifier.ExpirationMargin v)
     (Verifier.cache v)).

Lemma verifyAudience_Resource (v v' : Verifier.t) (audiences : list string) :
  Verifier.Resource v' = Verifier.Resource v ->
  Verifier.verifyAudience v' audiences = Verifier.verifyAudience v audiences.
Proof.
  intros Hres. induction audiences as [|a l IH]; cbn; rewrite Hres;
    [reflexivity|]. now rewrite IH.
Qed.

(** [getKey] does the same with more slashes. *)
Lemma getKey_slashed (v : Verifier.t) (n : nat) (w : World) (kid : string) :
  let a := run (getKey kid) v w in
  let a' := run (getKey kid) (slashedVerifier v n) w in
  fst a' = fst a
  /\ world (snd a') = world (snd a)
  /\ Verifier.cache (self (snd a')) = Verifier.cache (self (snd a)).
Proof.
  intros a a'. subst a a'. set (v' := slashedVerifier v n).
  assert (fst (run (Verifier.readPublicKey kid) v' w)
          = fst (run (Verifier.readPublicKey kid) v w)) as Hread
    by now rewrite !readPublicKey_run.
  destruct (fst (run (Verifier.readPublicKey kid) v w)) as [pk|] eqn:Hr.
  - rewrite (getKey_hit _ _ _ v w kid pk Hr),
      (getKey_hit _ _ _ v' w kid pk Hread). now repeat split.
  - rewrite (getKey_miss _ _ _ v w kid Hr), (getKey_miss _ _ _ v' w kid Hread).
    rewrite !fetchKey_run.
    assert (Verifier.keysRequest v' = Verifier.keysRequest v) as ->.
    { unfold Verifier.keysRequest, v'. cbn [Verifier.TenantURL].
      now rewrite TrimRight_more_slashes. }
    change (Verifier.client defaultHTTPClient v')
      with (Verifier.client defaultHTTPClient v).
    destruct (outcome _) as [resp|err]; [|now repeat split].
    destruct ((StatusCode resp <? 200) || (StatusCode resp >=? 400));
      [now repeat split|].
    destruct (decodeKeys (Body resp)) as [keys|err]; [|now repeat split].
    rewrite !scanKeys_run.
    destruct (Verifier.firstMatch kid keys) as [entry|]; [|now repeat split].
    destruct (Verifier.CertificateChain entry) as [|certString chain];
      [now repeat split|].
    destruct (ParseRSAPublicKeyFromPEM (Verifier.pem certString))
      as [pk|err]; now repeat split.
Qed.

(** X7. Slashes appended to the end of the tenant URL change nothing
    in what the calls do.  GetToken on a granter whose tenant URL, not
    empty, is followed by any number of slashes returns what it returns
    without them, sends the same request, logs the same and leaves the
    same cache; and so does the key function of the verifier, with the
    issuer it compares and the key set it fetches. *)
Theorem X7_trailing_slashes_do_not_matter
    (g : Granter.t) (v : Verifier.t) (w : World) (resource : string)
    (token : jwt.Token Claims) (n m : nat) :
  Granter.TenantURL g <> "" ->
  let a := run (GetToken resource) g w in
  let a' := run (GetToken resource) (slashedGranter g n) w in
  let b := run (keyFunc token) v w in
  let b' := run (keyFunc token) (slashedVerifier v m) w in
  (fst a' = fst a
   /\ world (snd a') = world (snd a)
   /\ Granter.cache (self (snd a')) = Granter.cache (self (snd a)))
  /\ (fst b' = fst b
      /\ world (snd b') = world (snd b)
      /\ Verifier.cache (self (snd b')) = Verifier.cache (self (snd b))).
Proof.
  intros Htenant a a' b b'. subst a a' b b'. split.
  - set (g' := slashedGranter g n).
    destruct (decide (resource = "")) as [->|Hres].
    { rewrite !GetToken_points. now repeat split. }
    assert (fst (run (Granter.readToken resource) g' w)
            = fst (run (Granter.readToken resource) g w)) as Hread
      by now rewrite !readToken_run.
    destruct (fst (run (Granter.readToken resource) g w)) as [tok ok] eqn:Hr.
    destruct ok.
    + destruct (readToken_found g w resource tok Hr)
        as (c & tc & Hc & Hentry & <- & Hfresh).
      rewrite (GetToken_hit _ _ _ g w resource c tc Hres Hc Hentry Hfresh),
        (GetToken_hit _ _ _ g' w resource c tc Hres Hc Hentry Hfresh).
      now repeat split.
    + assert (Granter.miss g w resource) as Hmiss
        by (unfold Granter.miss; now rewrite Hr).
      assert (Granter.miss g' w resource) as Hmiss'
        by (unfold Granter.miss; now rewrite Hread).
      rewrite (GetToken_miss _ _ _ g w resource Hres Hmiss),
        (GetToken_miss _ _ _ g' w resource Hres Hmiss').
      destruct (configured_dec g) as [Hconf|Hnot].
      * assert (Granter.configured g') as Hconf'.
        { destruct Hconf as (Hid & Hsecret & _).
          split; [exact Hid|]. split; [exact Hsecret|].
          unfold g'. cbn [Granter.TenantURL].
          destruct (Granter.TenantURL g); [congruence | discriminate]. }
        rewrite (fetchToken_run _ _ _ g _ resource Hconf),
          (fetchToken_run _ _ _ g' _ resource Hconf').
        assert (Granter.tokenRequest jsonMarshal g' resource
                = Granter.tokenRequest jsonMarshal g resource) as ->.
        { unfold Granter.tokenRequest, g'.
          cbn [Granter.TenantURL Granter.ClientID Granter.ClientSecret].
          now rewrite TrimRight_more_slashes. }
        change (Granter.client defaultHTTPClient g')
          with (Granter.client defaultHTTPClient g).
        destruct (outcome _) as [resp|err]; [|now repeat split].
        destruct ((StatusCode resp <? 200) || (StatusCode resp >=? 400));
          [now repeat split|].
        destruct (jsonDecode (Body resp)) as [atr|err]; now repeat split.
      * assert (~ Granter.configured g') as Hnot'.
        { intros (Hid & Hsecret & _). apply Hnot. now repeat split. }
        rewrite (fetchToken_unconfigured _ _ _ g _ resource Hnot),
          (fetchToken_unconfigured _ _ _ g' _ resource Hnot').
        now repeat split.
  - set (v' := slashedVerifier v m). rewrite !keyFunc_run.
    destruct (jwt.claims token) as [claims|mc]; [|now repeat split].
    rewrite (verifyAudience_Resource v v') by reflexivity.
    destruct (Verifier.verifyAudience v (elements (Audience claims)));
      [now repeat split|].
    assert (Verifier.expectedIssuer v' = Verifier.expectedIssuer v) as ->.
    { unfold Verifier.expectedIssuer, v'. cbn [Verifier.TenantURL].
      now rewrite TrimRight_more_slashes. }
    destruct (String.eqb (Issuer claims) (Verifier.expectedIssuer v));
      [|now repeat split].
    destruct (jwt.Header token !! "kid") as [[| | |kid| |]|];
      try (now repeat split).
    destruct (getKey_slashed v m w kid) as (Hfst & Hworld & Hcache).
    fold v' in Hfst, Hworld, Hcache.
    destruct (run (getKey kid) v w) as [[pk|err] s],
      (run (getKey kid) v' w) as [[pk'|err'] s']; cbn [fst snd] in *;
      try discriminate; injection Hfst as ->; now repeat split.
Qed.

(** X8. A tenant URL made of slashes only passes the check GetToken
    makes of the configuration, for it is not empty: on a cache miss
    the request is sent all the same, one request, and it goes to the
    bare path ["/oauth/token"]. *)
Theorem X8_tenant_of_slashes
    (g : Granter.t) (w : World) (resource : string) (n : nat) :
  resource <> "" ->
  Granter.miss g w resource ->
  Granter.ClientID g <> "" ->
  Granter.ClientSecret g <> "" ->
  Granter.TenantURL g = strings.Repeat "/" (S n) ->
  exists req,
    sentBetween w (world (snd (run (GetToken resource) g w))) [req]
    /\ URL req = "/oauth/token".
Proof.
  intros Hres Hmiss Hid Hsecret Htenant.
  assert (Granter.configured g) as Hconf.
  { split; [exact Hid|]. split; [exact Hsecret|]. rewrite Htenant.
    discriminate. }
  exists (Granter.tokenRequest jsonMarshal g resource). split.
  - rewrite (GetToken_miss _ _ _ g w resource Hres Hmiss).
    rewrite (fetchToken_run _ _ _ g _ resource Hconf).
    unfold sentBetween.
    destruct (outcome _) as [resp|err];
      [destruct ((StatusCode resp <? 200) || (StatusCode resp >=? 400));
       [|destruct (jsonDecode (Body resp)) as [atr|err]]|];
      cbn [snd world trace logged];
      rewrite ?requests_app, requests_atFetch; cbn;
      rewrite ?app_nil_r; reflexivity.
  - unfold Granter.tokenRequest. cbn [URL]. rewrite Htenant.
    change (strings.Repeat "/" (S n)) with ("" +:+ strings.Repeat "/" (S n)).
    now rewrite TrimRight_more_slashes.
Qed.

End TrailingSlashes.

Lemma X7_trailing_slashes_do_not_matter_witness :
  let g := Granter.mk "client-a" "secret-a" "https://tenant.example.com"
             None 60 None in
  let g' := Granter.mk "client-a" "secret-a" "https://tenant.example.com/"
              None 60 None in
  let GetToken :=
    Granter.GetToken (Fixture.respond 200 "tok1" 0) Fixture.jsonMarshal
      Fixture.decodeToken Fixture.svcB in
  fst (run GetToken g' Fixture.start) = fst (run GetToken g Fixture.start)
  /\ world (snd (run GetToken g' Fixture.start))
     = world (snd (run GetToken g Fixture.start)).
Proof.
  intros g g' GetToken.
  destruct (X7_trailing_slashes_do_not_matter (Fixture.respond 200 "tok1" 0)
              Fixture.jsonMarshal Fixture.decodeToken Fixture.decodeKeys
              Fixture.parsePEM g (Fixture.verifier 200) Fixture.start
              Fixture.svcB
              (Fixture.tokenFor [Fixture.svcB] Fixture.goodIssuer "key-1")
              1 1) as ((Hfst & Hworld & _) & _).
  - discriminate.
  - split; [exact Hfst | exact Hworld].
Defined.

Lemma X8_tenant_of_slashes_witness :
  exists req,
    sentBetween Fixture.start
      (world (snd (run (Granter.GetToken (Fixture.respond 200 "tok1" 0)
                          Fixture.jsonMarshal Fixture.decodeToken
                          Fixture.svcB)
                     (Granter.mk "client-a" "secret-a" "//" None 60 None)
                     Fixture.start)))
      [req]
    /\ URL req = "/oauth/token".
Proof.
  apply (X8_tenant_of_slashes (Fixture.respond 200 "tok1" 0)
           Fixture.jsonMarshal Fixture.decodeToken
           (Granter.mk "client-a" "secret-a" "//" None 60 None)
           Fixture.start Fixture.svcB 1);
    [discriminate | reflexivity | discriminate | discriminate | reflexivity].
Defined.
